(** * geotiff-processor: a shallow embedding of [process.py]

    The development follows [ConvertGeotiff] of [src/process.py]:

    - Python values: exceptions, [None], binary64 numbers;
    - the elevation colour ramp ([getMdeColorValues]) and the hillshade
      gamma expression of [getColoredHillshade];
    - filename handling ([removeExtension], [cleanFilename], [str.split]);
    - the per-file body of [processTifs], with the configuration module
      [params] as a record and the list [params.metadata] as an object in
      a store, since the code keeps a reference to it;
    - [exportGeoserverFiles] and [exportOutline] as traces of the calls
      they make to the raster/vector engine.

    Calls into GDAL/OGR, numpy and PIL are not part of the repository: where
    a result of such a call steers the control flow it is an explicit
    input (an oracle record), and each call is an event of the trace. *)

From Stdlib Require Import ZArith QArith Qround Lqa Uint63 Floats Lia List String
  Ascii Bool Sorted.
From stdpp Require Import base option list gmap strings pretty.
Import ListNotations.

Set Default Proof Using "Type".
Local Open Scope Z_scope.

(** ** Python values *)

(** The exceptions the modelled code can raise. *)
Inductive exn : Type :=
| TypeError
| ValueError
| AttributeError
| UnboundLocalError
| IndexError
| RuntimeError
| SystemExit (code : Z).

(** Outcome of a Python computation: a value or a raised exception. *)
Inductive result (A : Type) : Type :=
| Ok (a : A)
| Raise (e : exn).
Arguments Ok {A} a.
Arguments Raise {A} e.

Definition rbind {A B} (m : result A) (k : A -> result B) : result B :=
  match m with
  | Ok a => k a
  | Raise e => Raise e
  end.

Notation "'let?' x ':=' m 'in' k" := (rbind m (fun x => k))
  (at level 10, x name, m at level 100, k at level 200, only parsing).

(** ** Numbers

    [getMdeColorValues] computes on the values [np.percentile] returns.
    The loop is written once over the arithmetic it uses and read at two
    instances: [binary64] (IEEE 754 double precision: the arithmetic of
    [float64] percentiles, which Byte, integer and Float64 bands give; a
    Float32 band gives [float32] percentiles and the same loop then runs in
    single precision, which is not modelled) and [exactQ] (the rationals,
    the arithmetic the specification reasons in). *)

Class PyFloat (R : Type) : Type := {
  fadd : R -> R -> R;
  fsub : R -> R -> R;
  fmul : R -> R -> R;
  fdiv : R -> R -> R;
  of_int : Z -> R;
  isnan : R -> bool
}.

(** [float(z)] for a Python int: exact for [|z| < 2^53]; the code converts
    only the literals 2, 3, 7, 255 and pixel values. *)
Definition float_of_int (z : Z) : float :=
  if z <? 0 then PrimFloat.opp (PrimFloat.of_uint63 (Uint63.of_Z (- z)))
  else PrimFloat.of_uint63 (Uint63.of_Z z).

#[export] Instance binary64 : PyFloat float := {
  fadd := PrimFloat.add;
  fsub := PrimFloat.sub;
  fmul := PrimFloat.mul;
  fdiv := PrimFloat.div;
  of_int := float_of_int;
  isnan := PrimFloat.is_nan
}.

#[export] Instance exactQ : PyFloat Q := {
  fadd := Qplus;
  fsub := Qminus;
  fmul := Qmult;
  fdiv := Qdiv;
  of_int := inject_Z;
  isnan := fun _ => false
}.

(** ** The elevation colour ramp: [getMdeColorValues], lines 486-503

    [np.percentile] delivers [trimmedMin] and [trimmedMax]; the model starts
    from these two numbers. *)

Section ColorRamp.
Context {R : Type} {F : PyFloat R}.

(** The variables the [while] loop reads and writes. *)
Record ramp_state : Type := RampState {
  cont : Z;
  trimmedMin : R;
  colorValues : list R
}.

(** [per = ((trimmedMax / 2) - (trimmedMin / 2)) / 7] *)
Definition ramp_per (trimmedMin trimmedMax : R) : R :=
  fdiv (fsub (fdiv trimmedMax (of_int 2)) (fdiv trimmedMin (of_int 2)))
       (of_int 7).

Definition ramp_cond (st : ramp_state) : bool := cont st <? 7.

(** One pass through the loop body. *)
Definition ramp_body (per : R) (st : ramp_state) : ramp_state :=
  let colorValues := colorValues st ++ [trimmedMin st] in
  let trimmedMin := fadd (trimmedMin st) per in
  let trimmedMin :=
    if cont st =? 1 then fadd trimmedMin per
    else if cont st =? 3 then fadd trimmedMin (fmul per (of_int 3))
    else if (cont st =? 4) || (cont st =? 5)
         then fadd trimmedMin (fmul per (of_int 2))
    else trimmedMin in
  RampState (cont st + 1) trimmedMin colorValues.

(** [while cond: body], [None] when the fuel runs out first. *)
Fixpoint while_loop {St : Type} (cond : St -> bool) (body : St -> St)
    (fuel : nat) (st : St) : option St :=
  match fuel with
  | O => if cond st then None else Some st
  | S fuel' =>
      if cond st then while_loop cond body fuel' (body st) else Some st
  end.

Definition getMdeColorValues (fuel : nat) (trimmedMin trimmedMax : R)
  : option (result (list R)) :=
  if isnan trimmedMax || isnan trimmedMin then Some (Raise RuntimeError)
  else
    let per := ramp_per trimmedMin trimmedMax in
    match while_loop ramp_cond (ramp_body per) fuel
                     (RampState 0 trimmedMin []) with
    | Some st => Some (Ok (colorValues st))
    | None => None
    end.
End ColorRamp.

(** ** The hillshade gamma expression: [getColoredHillshade], line 598

    [uint8(((A/255)*(0.5))*255)] on a Byte raster: [A] holds integers in
    [0,255]; [/] and [*] are binary64 operations; [uint8] is numpy's
    conversion of a float to an unsigned 8-bit integer, which drops the
    fractional part. *)

(** Integer part of a binary64 number (toward zero); 0 for nan and the
    infinities, which the expression never produces on [0,255]. *)
Definition float_trunc (f : float) : Z :=
  match Prim2SF f with
  | S754_finite s m e =>
      let v := if 0 <=? e then Z.shiftl (Z.pos m) e
               else Z.shiftr (Z.pos m) (- e) in
      if s then - v else v
  | _ => 0
  end.

(** [uint8(x)]: truncate, then wrap to 8 bits. *)
Definition uint8 (x : float) : Z := float_trunc x mod 256.

Definition gamma_hillshade (A : Z) : Z :=
  uint8 (PrimFloat.mul
           (PrimFloat.mul (PrimFloat.div (float_of_int A) (float_of_int 255))
                          0.5%float)
           (float_of_int 255)).

(** ** Strings: the [str] and [os.path] operations the code calls *)

Local Open Scope string_scope.

(** [sub in s] *)
Fixpoint contains (sub s : string) : bool :=
  String.prefix sub s ||
  match s with
  | EmptyString => false
  | String _ s' => contains sub s'
  end.

(** [s.endswith(suffix)] *)
Definition endswith (s suffix : string) : bool :=
  String.prefix (String.rev suffix) (String.rev s).

(** The fields of [s] between the occurrences of a non-empty [sep], found
    left to right without overlap; [skip] counts the characters of a
    separator just found that are still to be passed over. *)
Fixpoint split_fields (sep : string) (skip : nat) (s : string) : list string :=
  match s with
  | EmptyString => [""]
  | String c s' =>
      match skip with
      | S k => split_fields sep k s'
      | O =>
          if String.prefix sep s
          then "" :: split_fields sep (String.length sep - 1) s'
          else match split_fields sep 0 s' with
               | f :: fs => String c f :: fs
               | [] => [String c ""]
               end
      end
  end.

(** [s.split(sep)]: an empty separator raises [ValueError]. *)
Definition py_split (s sep : string) : result (list string) :=
  match sep with
  | EmptyString => Raise ValueError
  | _ => Ok (split_fields sep 0 s)
  end.

(** [l[i]] for [i >= 0]: [IndexError] out of range. *)
Definition py_item {A} (l : list A) (i : nat) : result A :=
  match l !! i with
  | Some x => Ok x
  | None => Raise IndexError
  end.

(** [s.rfind(c)] for a single character: the last index of [c], or -1. *)
Fixpoint rfind_from (c : ascii) (s : string) (i : Z) (found : Z) : Z :=
  match s with
  | EmptyString => found
  | String d s' => rfind_from c s' (i + 1) (if Ascii.eqb d c then i else found)
  end.
Definition rfind (s : string) (c : ascii) : Z := rfind_from c s 0 (-1).

(** [s[i:j]] for [0 <= i]. *)
Definition py_slice (s : string) (i j : Z) : string :=
  String.substring (Z.to_nat i) (Z.to_nat (j - i)) s.

(** [s[:-n]] *)
Definition drop_last (n : nat) (s : string) : string :=
  String.substring 0 (String.length s - n) s.

Fixpoint string_existsb (f : ascii -> bool) (s : string) : bool :=
  match s with
  | EmptyString => false
  | String c s' => f c || string_existsb f s'
  end.

(** The path flavour of the host: [os.sep], [os.altsep] and the directory
    [tempfile.gettempdir()] answers. *)
Record Platform : Type := {
  os_sep : ascii;
  os_altsep : option ascii;
  TEMP_FOLDER : string
}.

(** [os.path.splitext(p)[0]] ([genericpath._splitext]): the extension
    starts at the last dot of the last path component, unless only dots
    precede it there. *)
Definition splitext_root (pf : Platform) (p : string) : string :=
  let sepIndex := rfind p (os_sep pf) in
  let sepIndex := match os_altsep pf with
                  | Some a => Z.max sepIndex (rfind p a)
                  | None => sepIndex
                  end in
  let dotIndex := rfind p "."%char in
  if (sepIndex <? dotIndex)%Z &&
     string_existsb (fun c => negb (Ascii.eqb c "."%char))
                    (py_slice p (sepIndex + 1) dotIndex)
  then py_slice p 0 dotIndex
  else p.

Definition removeExtension (pf : Platform) (filename : string) : string :=
  splitext_root pf filename.

(** [cleanFilename]: [filename.split('-')[0]] *)
Definition cleanFilename (filename : string) : result string :=
  let? parts := py_split filename "-" in
  py_item parts 0.

(** [secrets.token_hex(nbytes)]: [nbytes] bytes of the system's entropy
    source, each written as two lower-case hexadecimal digits.  The source
    is an input: [entropy i] is the [i]-th byte it delivers. *)
Definition hex_digit (n : N) : ascii :=
  match String.get (N.to_nat n) "0123456789abcdef" with
  | Some c => c
  | None => "0"%char
  end.

Definition hex_of_byte (b : Byte.byte) : string :=
  let n := Byte.to_N b in
  String (hex_digit (n / 16)) (String (hex_digit (n mod 16)) "").

Definition token_hex (entropy : nat -> Byte.byte) (nbytes : nat) : string :=
  String.concat "" (map (fun i => hex_of_byte (entropy i)) (seq 0 nbytes)).

(** ** The configuration module [params]

    [params.py] is not part of the sources; its entries are the fields of a
    record, named [<dict>_<key>] for the dictionaries.  [params.metadata] is
    a Python list that the code appends to through a second reference, so
    the record holds the list's address and the list itself lives in the
    store. *)

Abbreviation loc := positive.

Record Params : Type := {
  filename_prefix : string;
  filename_suffix : string;
  metadata : loc;
  geoserver_epsg : Z;
  geoserver_gsd : float;
  geoserver_output_folder : string;
  geoserver_creationOptions : list string;
  geoserver_overviews : bool;
  geoserverMDE_gsd : float;
  geoserverMDE_output_folder : string;
  geoserverMDE_creationOptions : list string;
  storage_gsd : option float;
  storage_output_folder : string;
  storage_output_folder_json : string;
  storage_creationOptions : list string;
  storage_overviews : bool;
  storage_exportJSON : bool;
  storage_previews : bool;
  storageMDE_gsd : float;
  storageMDE_creationOptions : list string;
  storagePreview_output_folder : string;
  outlines_enabled : bool;
  outlines_minimum_area : float;
  outlines_output_folder : string
}.

(** ** Rasters as GDAL presents them *)

Record Band : Type := {
  ColorInterpretation : Z;
  NoDataValue : option float      (* [GetNoDataValue()]: [None] when undeclared *)
}.

Record Dataset : Type := {
  bands : list Band;              (* [RasterCount] is their number *)
  GeoTransform_1 : float;         (* [GetGeoTransform()[1]] *)
  GeoTransform_5 : float;         (* [GetGeoTransform()[5]] *)
  AUTHORITY_1 : option Z;         (* [GetAttrValue('AUTHORITY', 1)], a decimal
                                     code, or [None] *)
  MetadataItems : gmap string string
}.

Definition RasterCount (ds : Dataset) : Z := Z.of_nat (length (bands ds)).

(** [GetRasterBand(n)], bands counted from 1; with [gdal.UseExceptions()] an
    illegal band number raises [RuntimeError]. *)
Definition GetRasterBand (ds : Dataset) (n : Z) : result Band :=
  if (1 <=? n)%Z then
    match bands ds !! Z.to_nat (n - 1) with
    | Some b => Ok b
    | None => Raise RuntimeError
    end
  else Raise RuntimeError.

Definition GetMetadataItem (ds : Dataset) (name : string) : option string :=
  MetadataItems ds !! name.

(** What the local variable [file_ds] of [processTifs] holds. *)
Inductive file_ds_var : Type :=
| Unbound
| PyNone
| Opened (ds : Dataset).

(** ** Library functions taken as given

    [datetime.strptime], [datetime.strftime] and the built-in [round(x, 2)]
    are used as the interpreter provides them. *)

Record datetime : Type := {
  year : Z; month : Z; day : Z; hour : Z; minute : Z; second : Z
}.

Class PyLib : Type := {
  strptime : string -> string -> result datetime;
  strftime : datetime -> string -> string;
  round2 : float -> float
}.

(** ** Calls to the raster/vector engine *)

(** The [noData]/[srcNodata] argument: the string ['none'] or a number. *)
Inductive nodata_arg : Type :=
| nodata_none
| nodata_value (v : float).

(** The raster a call works on. *)
Inductive raster_ref : Type :=
| source_file                    (* the dataset [gdal.Open] returned *)
| written_to (path : string).    (* the result of a Warp or Translate *)

Record warp_kwargs : Type := {
  w_xRes : float; w_yRes : float;
  w_srcSRS : string; w_dstSRS : string;
  w_srcNodata : nodata_arg
}.

Record translate_kwargs : Type := {
  t_bandList : list Z;
  t_xRes : float; t_yRes : float;
  t_creationOptions : list string;
  t_metadataOptions : list string;   (* the list's content when called *)
  t_noData : nodata_arg;
  t_maskBand : option Z
}.

(** A polygon the polygonizer found, known by its area. *)
Record polygon : Type := { poly_id : nat; area : float }.

Record feature : Type := {
  f_geometry : list polygon;       (* the polygons merged into the outline *)
  f_gsd : float;
  f_map_id : string;
  f_registro_id : string;
  f_date : option string
}.

Inductive event : Type :=
| EvWarp (dst : string) (src : raster_ref) (kw : warp_kwargs)
| EvTranslate (dst : string) (src : raster_ref) (kw : translate_kwargs)
| EvBuildOverviews (on : raster_ref) (levels : list Z)
| EvExportJSON (path : string)
| EvExportStoragePreview (path : string) (coloredHillshade : bool)
| EvDeleteDataSource (path : string)
| EvCreateDataSource (path : string)
| EvCreateLayer (path : string)
| EvPolygonize (src : raster_ref) (band : Z) (into : string)
| EvCreateFeature (path : string) (f : feature).

(** Answers of the environment during one file's processing. *)
Record Oracle : Type := {
  entropy : nat -> Byte.byte;      (* the system's random bytes *)
  ImportFromEPSG_res : Z;
  tmp_outline_exists : bool;       (* [os.path.exists(tmpGdaloutput)] *)
  outline_exists : bool;           (* [os.path.exists(gdaloutput)] *)
  polygons : list polygon;         (* features of the polygonized mask *)
  repaired_IsValid : bool;         (* [mergedGeom.IsValid()] after MakeValid *)
  simplified_str : string          (* [str(simplifyGeom)] *)
}.

(** ** Store, trace and exceptions: the monad of the file loop *)

Record world : Type := World {
  store : gmap loc (list string);
  trace : list event
}.

Definition M (A : Type) : Type := world -> result A * world.

Definition ret {A} (a : A) : M A := fun w => (Ok a, w).
Definition raise {A} (e : exn) : M A := fun w => (Raise e, w).
Definition bind {A B} (m : M A) (k : A -> M B) : M B :=
  fun w => match m w with
           | (Ok a, w') => k a w'
           | (Raise e, w') => (Raise e, w')
           end.
Definition lift {A} (r : result A) : M A := fun w => (r, w).
Definition emit (e : event) : M unit :=
  fun w => (Ok tt, World (store w) ((trace w ++ [e])%list)).
(** [l.append(x)] on the list object at address [l]. *)
Definition list_append (l : loc) (x : string) : M unit :=
  fun w => (Ok tt, World (alter (fun xs => (xs ++ [x])%list) l (store w)) (trace w)).
(** The current content of the list object at address [l]. *)
Definition list_read (l : loc) : M (list string) :=
  fun w => (Ok (default [] (store w !! l)), w).
Definition when (b : bool) (m : M unit) : M unit := if b then m else ret tt.

Notation "'let*' x ':=' m 'in' k" := (bind m (fun x => k))
  (at level 10, x name, m at level 100, k at level 200, only parsing).
Notation "m ;;; k" := (bind m (fun _ => k))
  (at level 100, k at level 200, right associativity, only parsing).

(** ** [ConvertGeotiff]: the per-file state and the methods *)

(** The attributes of [self] that one file's processing assigns. *)
Record Self : Type := {
  bandas : Z;
  tieneCanalAlfa : bool;
  noDataValue : float;
  isMDE : bool;
  mapId : string;
  registroid : string;
  output : string;
  outputFilename : string;
  pixelSizeX : float;
  pixelSizeY : float;
  original_gsd : float;
  epsg : Z;
  date : option datetime;
  extra_metadata : loc
}.

(** Truth value of an optional string: [None] and [''] are false. *)
Definition nonempty (o : option string) : option string :=
  match o with
  | Some EmptyString => None
  | _ => o
  end.

(** Truth value of a number: everything but zero. *)
Definition truthy_number (g : float) : bool := negb (PrimFloat.eqb g 0%float).

Definition overview_levels : list Z := [2; 4; 8; 16; 32; 64; 128; 256]%Z.

Section Methods.
Context {lib : PyLib}.
Variable pf : Platform.
Variable params : Params.

(** [getDate] *)
Definition getDate (file_ds : Dataset) : result (option datetime) :=
  let droneDeployDate := GetMetadataItem file_ds "acquisitionStartDate" in
  let pix4DMaticDate := GetMetadataItem file_ds "TIFFTAG_DATETIME" in
  match nonempty droneDeployDate with
  | Some d =>
      let? t := strptime (drop_last 6 d) "%Y-%m-%dT%H:%M:%S" in
      Ok (Some t)
  | None =>
      match nonempty pix4DMaticDate with
      | Some d =>
          let? t := strptime d "%Y:%m:%d %H:%M:%S" in
          Ok (Some t)
      | None => Ok None
      end
  end.

(** [self.mapId], lines 110-112 and 117-118 *)
Definition resolve_mapId (file : string) (isMDE ok : bool)
    (entropy : nat -> Byte.byte) : result string :=
  if isMDE then
    if ok then
      let? a := py_split file (filename_prefix params) in
      let? a1 := py_item a 1 in
      let? b := py_split a1 (filename_suffix params) in
      let? b0 := py_item b 0 in
      Ok (removeExtension pf b0)
    else Ok (token_hex entropy 6)
  else
    if ok then
      let? a := py_split file (filename_prefix params) in
      let? a1 := py_item a 1 in
      Ok (removeExtension pf a1)
    else Ok (token_hex entropy 6).

(** [self.registroid], lines 114-115 and 120-121 *)
Definition resolve_registroid (file : string) (isMDE ok : bool)
    : result string :=
  if isMDE then
    if ok then
      let? a := py_split file (filename_prefix params) in
      py_item a 0
    else
      let? a := py_split file (filename_suffix params) in
      let? a0 := py_item a 0 in
      cleanFilename (removeExtension pf a0)
  else
    if ok then
      let? a := py_split file "_" in
      py_item a 0
    else cleanFilename (removeExtension pf file).

Definition nodata_option (self : Self) : nodata_arg :=
  if tieneCanalAlfa self then nodata_none
  else nodata_value (noDataValue self).

(** [exportStorageFiles].  The preview of an elevation raster is the
    coloured hillshade, whose numeric core is modelled above; here it is one
    call. *)
Definition exportStorageFiles (self : Self) : M unit :=
  let gdaloutput :=
    storage_output_folder params ++ "/" ++ outputFilename self ++ ".tif" in
  let* md := list_read (extra_metadata self) in
  let kwargs := {|
    t_bandList := if negb (isMDE self) then [1; 2; 3]%Z else [1]%Z;
    t_xRes :=
      if negb (isMDE self) then
        match storage_gsd params with
        | Some g => if truthy_number g then (g / 100)%float
                    else pixelSizeX self
        | None => pixelSizeX self
        end
      else (storageMDE_gsd params / 100)%float;
    t_yRes :=
      if negb (isMDE self) then
        match storage_gsd params with
        | Some g => if truthy_number g then (g / 100)%float
                    else pixelSizeY self
        | None => pixelSizeY self
        end
      else (storageMDE_gsd params / 100)%float;
    t_creationOptions :=
      if negb (isMDE self) then storage_creationOptions params
      else storageMDE_creationOptions params;
    t_metadataOptions := md;
    t_noData := nodata_option self;
    t_maskBand := if negb (isMDE self) then Some 4%Z else None
  |} in
  emit (EvTranslate gdaloutput source_file kwargs) ;;;
  when (storage_overviews params)
       (emit (EvBuildOverviews (written_to gdaloutput) overview_levels)) ;;;
  when (storage_exportJSON params && negb (isMDE self))
       (emit (EvExportJSON (storage_output_folder_json params ++ "/"
                            ++ outputFilename self ++ ".json"))) ;;;
  when (storage_previews params)
       (emit (EvExportStoragePreview
                (storagePreview_output_folder params ++ "/"
                 ++ outputFilename self ++ ".jpg")
                (isMDE self))).

(** [exportOutline].  [file_ds] is the raster handed over and [nbands] its
    band count, which a Warp leaves as it is; [GetRasterBand(4)] raises on
    fewer than four bands. *)
Definition exportOutline (self : Self) (file_ds : raster_ref) (nbands : Z)
    (o : Oracle) : M unit :=
  if negb (ImportFromEPSG_res o =? 0)%Z then raise RuntimeError
  else
    let tmpFilename := outputFilename self ++ ".geojson" in
    let tmpGdaloutput := TEMP_FOLDER pf ++ "\" ++ tmpFilename in
    when (tmp_outline_exists o) (emit (EvDeleteDataSource tmpGdaloutput)) ;;;
    emit (EvCreateDataSource tmpGdaloutput) ;;;
    emit (EvCreateLayer tmpGdaloutput) ;;;
    (if (nbands <? 4)%Z then raise RuntimeError else ret tt) ;;;
    emit (EvPolygonize file_ds 4 tmpGdaloutput) ;;;
    let gdaloutput :=
      outlines_output_folder params ++ "/" ++ outputFilename self
      ++ ".geojson" in
    when (outline_exists o) (emit (EvDeleteDataSource gdaloutput)) ;;;
    emit (EvCreateDataSource gdaloutput) ;;;
    emit (EvCreateLayer gdaloutput) ;;;
    let biggerGeoms :=
      List.filter (fun g => PrimFloat.ltb (outlines_minimum_area params) (area g))
                  (polygons o) in
    if negb (repaired_IsValid o) then ret tt
    else if String.eqb (simplified_str o) "POLYGON EMPTY" then ret tt
    else
      let dateFormated :=
        match date self with
        | Some d => Some (strftime d "%Y" ++ "-" ++ strftime d "%m" ++ "-"
                          ++ strftime d "%d")
        | None => None
        end in
      emit (EvCreateFeature gdaloutput {|
              f_geometry := biggerGeoms;
              f_gsd := original_gsd self;
              f_map_id := mapId self;
              f_registro_id := registroid self;
              f_date := dateFormated |}).

(** [exportGeoserverFiles] *)
Definition exportGeoserverFiles (self : Self) (file : string) (o : Oracle)
    : M unit :=
  let reproject := negb (epsg self =? geoserver_epsg params)%Z in
  let tmpWarp := TEMP_FOLDER pf ++ "\" ++ file in
  when reproject
    (emit (EvWarp tmpWarp source_file {|
             w_xRes := (geoserver_gsd params / 100)%float;
             w_yRes := (geoserver_gsd params / 100)%float;
             w_srcSRS := "EPSG:" ++ pretty (epsg self);
             w_dstSRS := "EPSG:" ++ pretty (geoserver_epsg params);
             w_srcNodata := nodata_option self |})) ;;;
  let gdaloutput :=
    (if negb (isMDE self) then geoserver_output_folder params
     else geoserverMDE_output_folder params)
    ++ "/" ++ outputFilename self ++ ".tif" in
  let* md := list_read (extra_metadata self) in
  let res := if negb (isMDE self) then (geoserver_gsd params / 100)%float
             else (geoserverMDE_gsd params / 100)%float in
  let kwargs := {|
    t_bandList := if negb (isMDE self) then [1; 2; 3]%Z else [1]%Z;
    t_xRes := res;
    t_yRes := res;
    t_creationOptions :=
      if negb (isMDE self) then geoserver_creationOptions params
      else geoserverMDE_creationOptions params;
    t_metadataOptions := md;
    t_noData := nodata_option self;
    t_maskBand := if negb (isMDE self) then Some 4%Z else None
  |} in
  let fileToConvert := if reproject then written_to tmpWarp else source_file in
  (if outlines_enabled params && negb (isMDE self)
   then exportOutline self fileToConvert (bandas self) o
   else ret tt) ;;;
  emit (EvTranslate gdaloutput fileToConvert kwargs) ;;;
  when (geoserver_overviews params)
       (emit (EvBuildOverviews (written_to gdaloutput) overview_levels)).

(** The first half of the body of the file loop of [processTifs], lines
    92-143: the attributes of [self] read off the entry [file] and the
    local [file_ds] as it stands. *)
Definition file_state (file : string) (file_ds : file_ds_var) (o : Oracle)
    : result Self :=
  let ok := contains (filename_prefix params) file in
  let? file_ds := match file_ds with
                  | Opened ds => Ok ds
                  | PyNone => Raise AttributeError
                  | Unbound => Raise UnboundLocalError
                  end in
  let bandas := RasterCount file_ds in
  let? ultimaBanda := GetRasterBand file_ds bandas in
  let tieneCanalAlfa := (ColorInterpretation ultimaBanda =? 6)%Z in
  let noDataValue := NoDataValue ultimaBanda in
  (* math.isnan(None) is a TypeError *)
  let? noDataValue := match noDataValue with
                      | None => Raise TypeError
                      | Some v => Ok (if PrimFloat.is_nan v then 0%float else v)
                      end in
  let isMDE := (bandas <=? 2)%Z in
  let? mapId := resolve_mapId file isMDE ok (entropy o) in
  let? registroid := resolve_registroid file isMDE ok in
  let output := registroid ++ filename_prefix params ++ mapId in
  let outputFilename :=
    if negb isMDE then output else output ++ filename_suffix params in
  let pixelSizeX := GeoTransform_1 file_ds in
  let pixelSizeY := PrimFloat.opp (GeoTransform_5 file_ds) in
  let original_gsd :=
    round2 ((pixelSizeY + pixelSizeX) / 2 * 100)%float in
  (* int(None) is a TypeError *)
  let? epsg := match AUTHORITY_1 file_ds with
               | Some code => Ok code
               | None => Raise TypeError
               end in
  let? date := getDate file_ds in
  Ok {| bandas := bandas; tieneCanalAlfa := tieneCanalAlfa;
        noDataValue := noDataValue; isMDE := isMDE;
        mapId := mapId; registroid := registroid;
        output := output; outputFilename := outputFilename;
        pixelSizeX := pixelSizeX; pixelSizeY := pixelSizeY;
        original_gsd := original_gsd; epsg := epsg; date := date;
        extra_metadata := metadata params |}.

(** The whole body, lines 92-158: the state, the two tags appended to
    the list [self.extra_metadata] refers to, and the exports. *)
Definition process_file (file : string) (file_ds : file_ds_var) (o : Oracle)
    : M Self :=
  let* self := lift (file_state file file_ds o) in
  list_append (extra_metadata self) ("registroId=" ++ registroid self) ;;;
  list_append (extra_metadata self) ("mapId=" ++ mapId self) ;;;
  exportStorageFiles self ;;;
  exportGeoserverFiles self file o ;;;
  ret self.

(** An entry that [os.walk] lists, with what [gdal.Open] answers for it
    and the environment's answers while it is processed. *)
Record walked_file : Type := {
  wf_name : string;
  wf_open : result Dataset;
  wf_oracle : Oracle
}.

(** The file loop of [processTifs].  Only the [gdal.Open] sits under the
    extension test; the rest of the body runs for every entry.  The
    result lists [self] as each file left it. *)
Fixpoint processTifs_from (files : list walked_file) (file_ds : file_ds_var)
    : M (list Self) :=
  match files with
  | [] => ret []
  | f :: rest =>
      let file := wf_name f in
      let* file_ds :=
        if endswith file ".tif" || endswith file ".tiff" then
          match wf_open f with
          | Ok ds => ret (Opened ds)
          | Raise RuntimeError => raise (SystemExit 1)
          | Raise e => raise e
          end
        else ret file_ds in
      let* self := process_file file file_ds (wf_oracle f) in
      (* file_ds = None *)
      let* selves := processTifs_from rest PyNone in
      ret (self :: selves)
  end.

Definition processTifs (files : list walked_file) : M (list Self) :=
  processTifs_from files Unbound.
End Methods.

(** ** Notions the statements below are phrased with *)

(** The multiples of the step at which the ramp places its breakpoints. *)
Definition ramp_multiples : list Z := [0; 1; 3; 4; 8; 11; 14]%Z.

(** The step as the specification writes it, over the rationals. *)
Definition ramp_step (trimmedMin trimmedMax : Q) : Q :=
  ((trimmedMax / 2 - trimmedMin / 2) / 7)%Q.

(** [trimmedMin + k * step] for each multiple [k], in exact arithmetic. *)
Definition ramp_points (trimmedMin trimmedMax : Q) : list Q :=
  map (fun k => (trimmedMin + inject_Z k * ramp_step trimmedMin trimmedMax)%Q)
      ramp_multiples.

(** The same two notions evaluated in binary64. *)
Definition ramp_step64 (trimmedMin trimmedMax : float) : float :=
  ((trimmedMax / 2 - trimmedMin / 2) / 7)%float.

Definition ramp_points64 (trimmedMin trimmedMax : float) : list float :=
  map (fun k => (trimmedMin
                 + float_of_int k * ramp_step64 trimmedMin trimmedMax)%float)
      ramp_multiples.

(** What binary64 delivers instead: running sums.  Between two breakpoints
    the step is added once, and then, for four of them, a multiple of it;
    every addition rounds. *)
Definition ramp_addends64 (step : float) : list (list float) :=
  [ [step]; [step; step]; [step]; [step; step * 3];
    [step; step * 2]; [step; step * 2] ]%float.

Fixpoint running_sums64 (x : float) (addends : list (list float))
    : list float :=
  x :: match addends with
       | [] => []
       | a :: rest => running_sums64 (fold_left PrimFloat.add a x) rest
       end.

(** ** Shapes of IEEE numbers *)

(** Zero of either sign, a positive number or plus infinity. *)
Definition sf_nonneg (x : spec_float) : bool :=
  match x with
  | S754_zero _ | S754_finite false _ _ | S754_infinity false => true
  | _ => false
  end.

(** A number or plus infinity. *)
Definition sf_above (x : spec_float) : bool :=
  match x with
  | S754_nan | S754_infinity true => false
  | _ => true
  end.

(** A number: zero or finite. *)
Definition sf_number (x : spec_float) : bool :=
  match x with
  | S754_zero _ | S754_finite _ _ _ => true
  | _ => false
  end.

(** The value of a number in units of [2^emin]; an integer for every
    number of the format. *)
Definition sf_units (emin : Z) (x : spec_float) : Z :=
  match x with
  | S754_finite s m e => cond_Zopp s (Zpos m * 2 ^ (e - emin))
  | _ => 0
  end.

(** Zero of either sign, a negative number or minus infinity. *)
Definition sf_nonpos (x : spec_float) : bool :=
  match x with
  | S754_zero _ | S754_finite true _ _ | S754_infinity true => true
  | _ => false
  end.

(** A number or minus infinity. *)
Definition sf_below (x : spec_float) : bool :=
  match x with
  | S754_nan | S754_infinity false => false
  | _ => true
  end.

(** The number 2 in binary64. *)
Definition sf_two : spec_float := S754_finite false 4503599627370496 (-51).

(** The gamma expression over the rationals, and the two usual readings of
    rounding to the nearest integer (ties upward, ties to even). *)
Definition gamma_exact (A : Z) : Q :=
  (inject_Z A / inject_Z 255 * (1 # 2) * inject_Z 255)%Q.

Definition round_half_up (q : Q) : Z := Qfloor (q + (1 # 2))%Q.

Definition round_half_even (q : Q) : Z :=
  let f := Qfloor q in
  match (q - inject_Z f ?= 1 # 2)%Q with
  | Lt => f
  | Gt => (f + 1)%Z
  | Eq => if Z.even f then f else (f + 1)%Z
  end.

(** The pixel values of a Byte raster. *)
Definition byte_values : list Z := map Z.of_nat (seq 0 256).

(** The part of [s] before the first occurrence of [sep]; all of [s] when
    [sep] does not occur. *)
Fixpoint before_first (sep s : string) : string :=
  match s with
  | EmptyString => ""
  | String c s' =>
      if String.prefix sep s then "" else String c (before_first sep s')
  end.

(** [s] cut at its first dash. *)
Fixpoint truncate_at_first_dash (s : string) : string :=
  match s with
  | EmptyString => ""
  | String c s' =>
      if Ascii.eqb c "-"%char then "" else String c (truncate_at_first_dash s')
  end.

Fixpoint string_forallb (f : ascii -> bool) (s : string) : bool :=
  match s with
  | EmptyString => true
  | String c s' => f c && string_forallb f s'
  end.

Definition is_hex_digit (c : ascii) : bool :=
  string_existsb (Ascii.eqb c) "0123456789abcdef".

Definition is_Warp (e : event) : bool :=
  match e with EvWarp _ _ _ => true | _ => false end.

Definition is_CreateFeature (e : event) : bool :=
  match e with EvCreateFeature _ _ => true | _ => false end.

(** The calls only [exportOutline] makes. *)
Definition is_outline_event (e : event) : bool :=
  match e with
  | EvDeleteDataSource _ | EvCreateDataSource _ | EvCreateLayer _
  | EvPolygonize _ _ _ | EvCreateFeature _ _ => true
  | _ => false
  end.

(** The number of features written. *)
Definition features (evs : list event) : nat :=
  length (List.filter is_CreateFeature evs).

(** [only Q m]: whatever the state, [m] extends the trace, and by events
    that satisfy [Q]. *)
Definition only {A} (Q : event -> Prop) (m : M A) : Prop :=
  forall w, exists evs, trace (snd (m w)) = (trace w ++ evs)%list /\ Forall Q evs.

(** [at_most n m]: [m] extends the trace and writes at most [n] features. *)
Definition at_most {A} (n : nat) (m : M A) : Prop :=
  forall w, exists evs,
    trace (snd (m w)) = (trace w ++ evs)%list /\ (features evs <= n)%nat.

(** [keeps_store m]: [m] leaves every list of the store as it is. *)
Definition keeps_store {A} (m : M A) : Prop :=
  forall w, store (snd (m w)) = store w.

(** The two tags a file's processing appends to its metadata list. *)
Definition file_tags (self : Self) : list string :=
  ["registroId=" ++ registroid self; "mapId=" ++ mapId self].

(** The [metadataOptions] of the Translate calls of a trace, in order. *)
Definition stamped_metadata (tr : list event) : list (string * list string) :=
  omap (fun e => match e with
                 | EvTranslate dst _ kw => Some (dst, t_metadataOptions kw)
                 | _ => None
                 end) tr.

(** [ds] with the nodata value of its last band replaced. *)
Definition with_last_nodata (ds : Dataset) (v : option float) : Dataset :=
  {| bands :=
       match List.rev (bands ds) with
       | [] => []
       | b :: front =>
           (List.rev front ++
            [{| ColorInterpretation := ColorInterpretation b;
                NoDataValue := v |}])%list
       end;
     GeoTransform_1 := GeoTransform_1 ds;
     GeoTransform_5 := GeoTransform_5 ds;
     AUTHORITY_1 := AUTHORITY_1 ds;
     MetadataItems := MetadataItems ds |}.

(** ** Sample inputs *)

Module Sample.
Definition nt : Platform :=
  {| os_sep := "\"%char; os_altsep := Some "/"%char; TEMP_FOLDER := "C:\Temp" |}.

Definition lib : PyLib :=
  {| strptime := fun _ _ => Raise ValueError;
     strftime := fun _ _ => "";
     round2 := fun x => x |}.

Definition params : Params := {|
  filename_prefix := "_ortho_";
  filename_suffix := "_mde";
  metadata := 1%positive;
  geoserver_epsg := 3857;
  geoserver_gsd := 20;
  geoserver_output_folder := "output/geoserver";
  geoserver_creationOptions := [];
  geoserver_overviews := false;
  geoserverMDE_gsd := 50;
  geoserverMDE_output_folder := "output/geoserver_mde";
  geoserverMDE_creationOptions := [];
  storage_gsd := None;
  storage_output_folder := "output/storage";
  storage_output_folder_json := "output/json";
  storage_creationOptions := [];
  storage_overviews := false;
  storage_exportJSON := false;
  storage_previews := false;
  storageMDE_gsd := 50;
  storageMDE_creationOptions := [];
  storagePreview_output_folder := "output/previews";
  outlines_enabled := true;
  outlines_minimum_area := 10;
  outlines_output_folder := "output/outlines" |}.

Definition band (ci : Z) (nd : option float) : Band :=
  {| ColorInterpretation := ci; NoDataValue := nd |}.

(** A four-band orthomosaic with alpha channel in EPSG:4326. *)
Definition rgba : Dataset :=
  {| bands := [band 3 (Some 0%float); band 4 (Some 0%float);
               band 5 (Some 0%float); band 6 (Some 0%float)];
     GeoTransform_1 := 0.5; GeoTransform_5 := (-0.5)%float;
     AUTHORITY_1 := Some 4326%Z; MetadataItems := ∅ |}.

(** A one-band elevation raster whose nodata value is nan. *)
Definition dem : Dataset :=
  {| bands := [band 1 (Some PrimFloat.nan)];
     GeoTransform_1 := 0.5; GeoTransform_5 := (-0.5)%float;
     AUTHORITY_1 := Some 3857%Z; MetadataItems := ∅ |}.

(** The same raster with no nodata value declared. *)
Definition dem_undeclared : Dataset :=
  {| bands := [band 1 None];
     GeoTransform_1 := 0.5; GeoTransform_5 := (-0.5)%float;
     AUTHORITY_1 := Some 3857%Z; MetadataItems := ∅ |}.

Definition oracle : Oracle :=
  {| entropy := fun _ => Byte.xab;
     ImportFromEPSG_res := 0;
     tmp_outline_exists := false;
     outline_exists := false;
     polygons := [ {| poly_id := 0; area := 100 |};
                   {| poly_id := 1; area := 10 |} ];
     repaired_IsValid := true;
     simplified_str := "POLYGON ((0 0,1 0,1 1,0 0))" |}.

(** The store at start-up: [params.metadata] holds one configured tag. *)
Definition world0 : world := World {[ 1%positive := ["source=drone"] ]} [].

(** [self] as the first file of the batch leaves it. *)
Definition self_rgba : Self :=
  {| bandas := 4; tieneCanalAlfa := true; noDataValue := 0; isMDE := false;
     mapId := "mapA"; registroid := "REG42";
     output := "REG42_ortho_mapA"; outputFilename := "REG42_ortho_mapA";
     pixelSizeX := 0.5; pixelSizeY := 0.5; original_gsd := 50;
     epsg := 4326; date := None; extra_metadata := 1%positive |}.

Definition batch : list walked_file :=
  [ {| wf_name := "REG42_ortho_mapA.tif"; wf_open := Ok rgba;
       wf_oracle := oracle |};
    {| wf_name := "REG43_ortho_mapB.tif"; wf_open := Ok rgba;
       wf_oracle := oracle |} ].
End Sample.

(** ** Further notions *)

(** An entry whose name passes the extension test of [processTifs]. *)
Definition is_tif (file : string) : bool :=
  endswith file ".tif" || endswith file ".tiff".

(** [file_ds] as the loop has it after [n] entries: unbound before the
    first, [None] after any. *)
Definition file_ds_after (n : nat) (fd : file_ds_var) : file_ds_var :=
  match n with
  | O => fd
  | S _ => PyNone
  end.

(** The first statement of the loop body of [processTifs], lines 84-90:
    what [file_ds] holds after it. *)
Definition open_entry (f : walked_file) (fd : file_ds_var) : M file_ds_var :=
  if is_tif (wf_name f) then
    match wf_open f with
    | Ok ds => ret (Opened ds)
    | Raise RuntimeError => raise (SystemExit 1)
    | Raise e => raise e
    end
  else ret fd.



(** [s[n:]] *)
Fixpoint string_drop (n : nat) (s : string) : string :=
  match n, s with
  | O, _ => s
  | S n', String _ s' => string_drop n' s'
  | S _, EmptyString => ""
  end.

(** The part of [s] behind the first occurrence of [sep]; empty when [sep]
    does not occur. *)
Fixpoint after_first (sep s : string) : string :=
  match s with
  | EmptyString => ""
  | String _ s' =>
      if String.prefix sep s then string_drop (String.length sep) s
      else after_first sep s'
  end.

(** The scratch and final paths of [exportOutline]. *)
Definition outline_tmp_path (pf : Platform) (self : Self) : string :=
  TEMP_FOLDER pf ++ "\" ++ (outputFilename self ++ ".geojson").

Definition outline_path (params : Params) (self : Self) : string :=
  outlines_output_folder params ++ "/" ++ outputFilename self ++ ".geojson".

(** The raster [exportGeoserverFiles] hands to Polygonize and Translate. *)
Definition fileToConvert (pf : Platform) (params : Params) (self : Self)
    (file : string) : raster_ref :=
  if negb (epsg self =? geoserver_epsg params)%Z
  then written_to (TEMP_FOLDER pf ++ "\" ++ file)
  else source_file.

(** The raster an event reads, for the calls that read one. *)
Definition reads_from (src : raster_ref) (e : event) : Prop :=
  match e with
  | EvTranslate _ s _ | EvPolygonize s _ _ => s = src
  | _ => True
  end.

(** The nodata argument of a Warp or Translate call. *)
Definition nodata_of (e : event) : option nodata_arg :=
  match e with
  | EvWarp _ _ kw => Some (w_srcNodata kw)
  | EvTranslate _ _ kw => Some (t_noData kw)
  | _ => None
  end.

Definition is_Translate (e : event) : bool :=
  match e with EvTranslate _ _ _ => true | _ => false end.

(** The world once the two tags of [self] are appended to its list. *)
Definition tagged (self : Self) (w : world) : world :=
  World (alter (fun xs => (xs ++ [("mapId=" ++ mapId self)%string])%list)
               (extra_metadata self)
               (alter (fun xs => (xs ++ [("registroId=" ++ registroid self)%string])%list)
                      (extra_metadata self) (store w)))
        (trace w).

(** What the nodata argument of a call may be for a raster whose last band
    is [b]: ['none'] with an alpha band; else the band's nodata value, or 0
    in place of nan. *)
Definition nodata_from_band (b : Band) (e : event) : Prop :=
  match nodata_of e with
  | None => True
  | Some nodata_none => ColorInterpretation b = 6%Z
  | Some (nodata_value v) =>
      ColorInterpretation b <> 6%Z /\
      PrimFloat.is_nan v = false /\
      exists v0, NoDataValue b = Some v0 /\
                 v = if PrimFloat.is_nan v0 then 0%float else v0
  end.

(** ** The soft-light merge: [getColoredHillshade], lines 602-606

    [uint8((2*(A/255.)*(B/255.)*(A<128)
            + (1 - 2*(1-(A/255.))*(1-(B/255.)))*(A>=128)) * 255)]
    per pixel, [A] the gamma-adjusted hillshade and [B] a band of the colour
    relief, both Byte; a comparison counts as 1.0 or 0.0. *)

Definition bool_float (b : bool) : float := if b then 1%float else 0%float.

Definition soft_light (A B : Z) : Z :=
  let a := (float_of_int A / 255)%float in
  let b := (float_of_int B / 255)%float in
  uint8 ((2 * a * b * bool_float (A <? 128)%Z
          + (1 - 2 * (1 - a) * (1 - b)) * bool_float (128 <=? A)%Z)
         * 255)%float.

(** A pixel of the coloured hillshade: the hillshade value [A] goes through
    the gamma expression, then merges with the colour value [B]. *)
Definition colored_hillshade (A B : Z) : Z := soft_light (gamma_hillshade A) B.

(** [f] holds for every pair of Byte values. *)
Definition all_bytes2 (f : Z -> Z -> bool) : bool :=
  forallb (fun A => forallb (f A) byte_values) byte_values.

(** The shades the gamma expression can deliver. *)
Definition dark_values : list Z := map Z.of_nat (seq 0 128).


(** ** The elevation preview: [exportSld], [getColoredHillshade] and
    [exportStoragePreview]

    What these methods do to the files they name: each engine call that is
    given an output path makes that file, [open(p, 'w')] makes an empty text
    file, [write] appends to it, [os.remove] deletes.  The pixel content of
    rasters is not tracked here; the texts written are. *)

(** [str(round(x, n))], [str(x)] and [ImageColor.getcolor(c, 'RGB')], as the
    interpreter and PIL provide them; an unknown colour is a [ValueError]. *)
Class PyText : Type := {
  str_round : float -> Z -> string;
  str_float : float -> string;
  getcolor_RGB : string -> result (list Z)
}.

(** [params.styleMDE], the entries these methods read. *)
Record StyleMDE : Type := {
  palette : list string;
  export_sld : bool
}.

Inductive file_content : Type :=
| Raster
| Text (chunks : list string).

(** The files, and the GDAL option [GDAL_PAM_ENABLED] ([true] for ['YES']). *)
Record hs_world : Type := HsWorld {
  fs : gmap string file_content;
  GDAL_PAM_ENABLED : bool
}.

Inductive os_exn : Type :=
| PyExn (e : exn)
| FileNotFoundError.

Inductive outcome (A : Type) : Type :=
| Done (a : A)
| Failed (e : os_exn).
Arguments Done {A} a.
Arguments Failed {A} e.

(** Computations on the files; [None] when a loop is out of fuel. *)
Definition FS (A : Type) : Type := hs_world -> option (outcome A * hs_world).

Definition hret {A} (a : A) : FS A := fun w => Some (Done a, w).
Definition hraise {A} (e : os_exn) : FS A := fun w => Some (Failed e, w).
Definition hbind {A B} (m : FS A) (k : A -> FS B) : FS B :=
  fun w => match m w with
           | Some (Done a, w') => k a w'
           | Some (Failed e, w') => Some (Failed e, w')
           | None => None
           end.
Definition hlift {A} (r : result A) : FS A :=
  match r with
  | Ok a => hret a
  | Raise e => hraise (PyExn e)
  end.

Notation "'let+' x ':=' m 'in' k" := (hbind m (fun x => k))
  (at level 10, x name, m at level 100, k at level 200, only parsing).
Notation "m ;+ k" := (hbind m (fun _ => k))
  (at level 100, k at level 200, right associativity, only parsing).

(** An engine call writing the raster [path]. *)
Definition create_raster (path : string) : FS unit :=
  fun w => Some (Done tt, HsWorld (<[path := Raster]> (fs w)) (GDAL_PAM_ENABLED w)).

(** [open(path, 'w')] *)
Definition open_w (path : string) : FS unit :=
  fun w => Some (Done tt, HsWorld (<[path := Text []]> (fs w)) (GDAL_PAM_ENABLED w)).

Definition add_chunk (chunk : string) (c : file_content) : file_content :=
  match c with
  | Text chunks => Text (chunks ++ [chunk])%list
  | Raster => Raster
  end.

(** [f.write(chunk)] on the file opened at [path]. *)
Definition write_to (path chunk : string) (w : hs_world) : hs_world :=
  HsWorld (alter (add_chunk chunk) path (fs w)) (GDAL_PAM_ENABLED w).

Definition write (path chunk : string) : FS unit :=
  fun w => Some (Done tt, write_to path chunk w).

(** [os.remove(path)] *)
Definition os_remove (path : string) : FS unit :=
  fun w => match fs w !! path with
           | Some _ => Some (Done tt, HsWorld (delete path (fs w)) (GDAL_PAM_ENABLED w))
           | None => Some (Failed FileNotFoundError, w)
           end.

(** [gdal.SetConfigOption('GDAL_PAM_ENABLED', ...)] *)
Definition SetConfigOption_PAM (enabled : bool) : FS unit :=
  fun w => Some (Done tt, HsWorld (fs w) enabled).

Definition hwhen (b : bool) (m : FS unit) : FS unit := if b then m else hret tt.

(** The double quote, written by its code. *)
Definition dquote : string := String "034"%char "".
Definition newline : string := String "010"%char "".

Section Preview.
Context {txt : PyText}.
Variable pf : Platform.
Variable params : Params.
Variable style : StyleMDE.

(** The loops of [exportSld] (lines 514-522) and [getColoredHillshade] (lines
    565-571): [i] runs below [n]; each pass reads [colorValues[i]] and
    [colors[i]] and writes one chunk. *)
Record write_state : Type := WriteState {
  ws_i : nat;
  ws_exc : option exn;
  ws_world : hs_world
}.

Definition write_cond (n : nat) (st : write_state) : bool :=
  match ws_exc st with
  | Some _ => false
  | None => (ws_i st <? n)%nat
  end.

Definition write_body (chunk : float -> string -> string) (path : string)
    (colorValues : list float) (colors : list string) (st : write_state)
    : write_state :=
  match colorValues !! ws_i st with
  | None => WriteState (ws_i st) (Some IndexError) (ws_world st)
  | Some v =>
      match colors !! ws_i st with
      | None => WriteState (ws_i st) (Some IndexError) (ws_world st)
      | Some c =>
          WriteState (S (ws_i st)) None
                     (write_to path (chunk v c) (ws_world st))
      end
  end.

Definition write_entries (chunk : float -> string -> string) (path : string)
    (n : nat) (colorValues : list float) (colors : list string) (fuel : nat)
    : FS unit :=
  fun w =>
    match while_loop (write_cond n) (write_body chunk path colorValues colors)
                     fuel (WriteState 0 None w) with
    | None => None
    | Some st =>
        Some (match ws_exc st with
              | Some e => Failed (PyExn e)
              | None => Done tt
              end, ws_world st)
    end.

Definition sld_header : string :=
  String.concat dquote [
    "<?xml version="; "1.0"; " encoding="; "UTF-8";
    "?><StyledLayerDescriptor xmlns="; "http://www.opengis.net/sld";
    " xmlns:xsi="; "http://www.w3.org/2001/XMLSchema-instance";
    "><NamedLayer><Name>dipsoh:ortomosaicos_mde</Name><UserStyle><FeatureTypeStyle><Rule><RasterSymbolizer><ChannelSelection><GrayChannel><SourceChannelName>1</SourceChannelName></GrayChannel></ChannelSelection><ColorMap type=";
    "ramp"; ">" ].

Definition sld_footer : string :=
  "</ColorMap></RasterSymbolizer></Rule></FeatureTypeStyle></UserStyle></NamedLayer></StyledLayerDescriptor>".

Definition sld_entry (v : float) (color : string) : string :=
  String.concat dquote [
    "<ColorMapEntry label="; str_round v 2; " quantity="; str_round v 6;
    " color="; color; "/>" ].

(** What [exportSld] leaves in the file: the header, one entry for each
    value and colour, and the footer when the loop completes. *)
Definition sld_text (colorValues : list float) : list string :=
  ((sld_header :: zip_with sld_entry colorValues (palette style))
   ++ (if (length (palette style) <=? length colorValues)%nat
       then [sld_footer] else []))%list.

Definition sld_path (self : Self) : string :=
  storage_output_folder params ++ "\" ++ outputFilename self ++ ".sld".

(** [exportSld] *)
Definition exportSld (self : Self) (colorValues : list float) (fuel : nat)
    : FS unit :=
  let sldPath := sld_path self in
  open_w sldPath ;+
  write sldPath sld_header ;+
  write_entries sld_entry sldPath (length (palette style)) colorValues
                (palette style) fuel ;+
  write sldPath sld_footer.

Definition tmpColorRelief : string := TEMP_FOLDER pf ++ "\colorRelief.tif".
Definition tmpHillshade : string := TEMP_FOLDER pf ++ "\hillshade.tif".
Definition tmpGammaHillshade : string := TEMP_FOLDER pf ++ "\gammaHillshade.tif".
Definition tmpColoredHillshade : string :=
  TEMP_FOLDER pf ++ "\coloredHillshade.tif".
Definition tmpColoredHillshadeContrast : string :=
  TEMP_FOLDER pf ++ "\coloredHillshadeC.tif".
Definition tmpFileColorPath : string := TEMP_FOLDER pf ++ "\colorPalette.txt".
Definition tmpGeotiffCompressed : string := TEMP_FOLDER pf ++ "\mde_compress.tif".

(** [' '.join(map(str, ImageColor.getcolor(x, 'RGB')))] for each colour of
    the palette, in order; the first unknown colour raises. *)
Fixpoint rgb_palette (colors : list string) : result (list string) :=
  match colors with
  | [] => Ok []
  | x :: rest =>
      let? rgb := getcolor_RGB x in
      let? more := rgb_palette rest in
      Ok (String.concat " " (map pretty rgb) :: more)
  end.

Definition palette_line (v : float) (rgb : string) : string :=
  (str_float v ++ " " ++ rgb) ++ newline.

(** [getColoredHillshade]; [trimmedMin] and [trimmedMax] are the two
    percentiles numpy finds in the warped raster. *)
Definition getColoredHillshade (self : Self) (trimmedMin trimmedMax : float)
    (fuel : nat) : FS string :=
  create_raster tmpGeotiffCompressed ;+
  let+ colorValues :=
    (fun w => match getMdeColorValues fuel trimmedMin trimmedMax with
              | Some r => hlift r w
              | None => None
              end) in
  hwhen (export_sld style) (exportSld self colorValues fuel) ;+
  open_w tmpFileColorPath ;+
  let+ rgbPalette := hlift (rgb_palette (palette style)) in
  write_entries palette_line tmpFileColorPath (length (palette style))
                colorValues rgbPalette fuel ;+
  create_raster tmpColorRelief ;+
  create_raster tmpHillshade ;+
  create_raster tmpGammaHillshade ;+
  create_raster tmpColoredHillshade ;+
  create_raster tmpColoredHillshadeContrast ;+
  os_remove tmpColorRelief ;+
  os_remove tmpHillshade ;+
  os_remove tmpGammaHillshade ;+
  os_remove tmpFileColorPath ;+
  os_remove tmpColoredHillshade ;+
  hret tmpColoredHillshadeContrast.

Definition preview_path (self : Self) : string :=
  storagePreview_output_folder params ++ "/" ++ outputFilename self ++ ".jpg".

(** [exportStoragePreview] *)
Definition exportStoragePreview (self : Self) (trimmedMin trimmedMax : float)
    (fuel : nat) : FS unit :=
  SetConfigOption_PAM false ;+
  let+ geotiff :=
    if isMDE self
    then let+ p := getColoredHillshade self trimmedMin trimmedMax fuel in
         hret (Some p)
    else hret None in
  create_raster (preview_path self) ;+
  match geotiff with
  | Some p => if isMDE self then os_remove p else hret tt
  | None => hret tt
  end ;+
  SetConfigOption_PAM true.
End Preview.

(** The scratch files [getColoredHillshade] deletes itself, and the one its
    caller deletes. *)
Definition scratch_paths (pf : Platform) : list string :=
  [tmpColorRelief pf; tmpHillshade pf; tmpGammaHillshade pf;
   tmpFileColorPath pf; tmpColoredHillshade pf;
   tmpColoredHillshadeContrast pf].

(** The last character of a string. *)
Fixpoint last_char (s : string) : option ascii :=
  match s with
  | EmptyString => None
  | String c EmptyString => Some c
  | String _ s' => last_char s'
  end.


(** Sample values for the elevation preview. *)
Module PreviewSample.
Definition text : PyText :=
  {| str_round := fun _ _ => "0.0";
     str_float := fun _ => "0.0";
     getcolor_RGB := fun c =>
       if String.eqb c "#000000" then Ok [0; 0; 0]%Z
       else if String.eqb c "#ffffff" then Ok [255; 255; 255]%Z
       else Raise ValueError |}.

Definition style : StyleMDE :=
  {| palette := ["#000000"; "#ffffff"]; export_sld := true |}.

(** A palette of eight colours, one more than the ramp has values. *)
Definition long_style : StyleMDE :=
  {| palette := repeat "#000000" 8; export_sld := false |}.

Definition self_dem : Self :=
  {| bandas := 1; tieneCanalAlfa := false; noDataValue := 0; isMDE := true;
     mapId := "mapA"; registroid := "REG42";
     output := "REG42_ortho_mapA_mde"; outputFilename := "REG42_ortho_mapA_mde";
     pixelSizeX := 0.5; pixelSizeY := 0.5; original_gsd := 50;
     epsg := 3857; date := None; extra_metadata := 1%positive |}.

Definition files0 : hs_world := HsWorld ∅ true.
End PreviewSample.


(** Further sample entries of an input folder. *)
Module BatchSample.
(** An entry that is no raster. *)
Definition stray : walked_file :=
  {| wf_name := "notes.txt"; wf_open := Raise RuntimeError;
     wf_oracle := Sample.oracle |}.

(** A [.tif] that [gdal.Open] cannot read. *)
Definition unreadable : walked_file :=
  {| wf_name := "REG44_ortho_mapC.tif"; wf_open := Raise RuntimeError;
     wf_oracle := Sample.oracle |}.

(** A three-band orthomosaic, without alpha channel. *)
Definition rgb : Dataset :=
  {| bands := [Sample.band 3 (Some 0%float); Sample.band 4 (Some 0%float);
               Sample.band 5 (Some 0%float)];
     GeoTransform_1 := 0.5; GeoTransform_5 := (-0.5)%float;
     AUTHORITY_1 := Some 4326%Z; MetadataItems := ∅ |}.

(** The sample configuration with the prefix marker left empty. *)
Definition params_no_prefix : Params := {|
  filename_prefix := "";
  filename_suffix := filename_suffix Sample.params;
  metadata := metadata Sample.params;
  geoserver_epsg := geoserver_epsg Sample.params;
  geoserver_gsd := geoserver_gsd Sample.params;
  geoserver_output_folder := geoserver_output_folder Sample.params;
  geoserver_creationOptions := geoserver_creationOptions Sample.params;
  geoserver_overviews := geoserver_overviews Sample.params;
  geoserverMDE_gsd := geoserverMDE_gsd Sample.params;
  geoserverMDE_output_folder := geoserverMDE_output_folder Sample.params;
  geoserverMDE_creationOptions := geoserverMDE_creationOptions Sample.params;
  storage_gsd := storage_gsd Sample.params;
  storage_output_folder := storage_output_folder Sample.params;
  storage_output_folder_json := storage_output_folder_json Sample.params;
  storage_creationOptions := storage_creationOptions Sample.params;
  storage_overviews := storage_overviews Sample.params;
  storage_exportJSON := storage_exportJSON Sample.params;
  storage_previews := storage_previews Sample.params;
  storageMDE_gsd := storageMDE_gsd Sample.params;
  storageMDE_creationOptions := storageMDE_creationOptions Sample.params;
  storagePreview_output_folder := storagePreview_output_folder Sample.params;
  outlines_enabled := outlines_enabled Sample.params;
  outlines_minimum_area := outlines_minimum_area Sample.params;
  outlines_output_folder := outlines_output_folder Sample.params |}.
End BatchSample.

(** * Properties *)

Local Open Scope Z_scope.

(** * IEEE arithmetic: rounding respects the representable numbers *)

Lemma pow2_pred (d : Z) : 0 < d -> 2 ^ d = 2 * 2 ^ (d - 1).
Proof.
  intros Hd. rewrite <- Z.pow_succ_r by lia. f_equal. lia.
Qed.

Lemma digits2_pos_bounds (m : positive) :
  2 ^ (Zpos (digits2_pos m) - 1) <= Zpos m < 2 ^ Zpos (digits2_pos m).
Proof.
  induction m as [p IH|p IH|]; cbn [digits2_pos].
  - rewrite Pos2Z.inj_succ.
    set (d := Zpos (digits2_pos p)) in *.
    replace (Z.succ d - 1) with d by lia.
    rewrite (pow2_pred (Z.succ d)) by lia.
    replace (Z.succ d - 1) with d by lia.
    rewrite (pow2_pred d) in * by lia. lia.
  - rewrite Pos2Z.inj_succ.
    set (d := Zpos (digits2_pos p)) in *.
    replace (Z.succ d - 1) with d by lia.
    rewrite (pow2_pred (Z.succ d)) by lia.
    replace (Z.succ d - 1) with d by lia.
    rewrite (pow2_pred d) in * by lia. lia.
  - split; [apply Z.leb_le | apply Z.ltb_lt]; reflexivity.
Qed.

Lemma Zdigits2_log2 (x : Z) : 0 < x -> Zdigits2 x = Z.log2 x + 1.
Proof.
  intros Hx. destruct x as [|m|m]; try lia. cbn [Zdigits2].
  pose proof (digits2_pos_bounds m) as Hb.
  symmetry. apply Z.add_move_r. apply Z.log2_unique; [lia|].
  replace (Z.succ (Zpos (digits2_pos m) - 1)) with (Zpos (digits2_pos m)) by lia.
  exact Hb.
Qed.

Lemma Zdigits2_nonneg (x : Z) : 0 <= Zdigits2 x.
Proof. destruct x; cbn; lia. Qed.

Lemma Zdigits2_pos (x : Z) : 0 < x -> 0 < Zdigits2 x.
Proof. destruct x; cbn; lia. Qed.

Lemma Zdigits2_le (a b : Z) : 0 <= a <= b -> Zdigits2 a <= Zdigits2 b.
Proof.
  intros [Ha Hab]. destruct (Z.eq_dec a 0) as [->|Hne].
  - apply Zdigits2_nonneg.
  - rewrite !Zdigits2_log2 by lia.
    pose proof (Z.log2_le_mono a b Hab). lia.
Qed.

Lemma Zdigits2_mul_pow2 (a k : Z) :
  0 < a -> 0 <= k -> Zdigits2 (a * 2 ^ k) = Zdigits2 a + k.
Proof.
  intros Ha Hk. rewrite !Zdigits2_log2 by nia.
  rewrite Z.log2_mul_pow2 by lia. lia.
Qed.

Lemma Zdigits2_bounds (x : Z) :
  0 < x -> 2 ^ (Zdigits2 x - 1) <= x < 2 ^ Zdigits2 x.
Proof.
  intros Hx. destruct x as [|m|m]; try lia. apply digits2_pos_bounds.
Qed.

Lemma Zdigits2_lt_pow2 (x d : Z) : 0 <= x -> 0 <= d -> x < 2 ^ d -> Zdigits2 x <= d.
Proof.
  intros Hx Hd Hlt. destruct (Z.eq_dec x 0) as [->|Hne]; [cbn; lia|].
  pose proof (Zdigits2_bounds x ltac:(lia)) as [Hlo _].
  destruct (Z_le_gt_dec (Zdigits2 x) d) as [|Hgt]; [assumption|].
  assert (2 ^ d <= 2 ^ (Zdigits2 x - 1)) by (apply Z.pow_le_mono_r; lia).
  lia.
Qed.

Lemma Zdigits2_ge_pow2 (x d : Z) : 0 <= d -> 2 ^ d <= x -> d + 1 <= Zdigits2 x.
Proof.
  intros Hd Hle.
  assert (0 < x) by (pose proof (Z.pow_pos_nonneg 2 d); lia).
  pose proof (Zdigits2_bounds x ltac:(lia)) as [_ Hhi].
  destruct (Z_le_gt_dec (d + 1) (Zdigits2 x)) as [|Hgt]; [assumption|].
  assert (2 ^ Zdigits2 x <= 2 ^ d)
    by (apply Z.pow_le_mono_r; pose proof (Zdigits2_nonneg x); lia).
  lia.
Qed.

(** ** Shifting to the right *)

Lemma iter_pos_iter {A} (f : A -> A) (p : positive) (x : A) :
  SpecFloat.iter_pos f p x = Pos.iter f x p.
Proof.
  revert x. induction p as [p IH|p IH|]; intros x; cbn [SpecFloat.iter_pos Pos.iter].
  - rewrite !IH. now rewrite <- !Pos.iter_swap.
  - now rewrite !IH.
  - reflexivity.
Qed.

Lemma shr_1_spec (m : Z) (r s : bool) :
  0 <= m ->
  shr_1 (Build_shr_record m r s) = Build_shr_record (m / 2) (Z.odd m) (r || s).
Proof.
  intros Hm. destruct m as [|[p|p|]|]; try lia; cbn [shr_1].
  - reflexivity.
  - f_equal. apply (Z.div_unique _ _ _ 1); lia.
  - f_equal. apply (Z.div_unique _ _ _ 0); lia.
  - reflexivity.
Qed.

Lemma shr_iter_m (p : positive) (mrs : shr_record) :
  0 <= shr_m mrs ->
  shr_m (SpecFloat.iter_pos shr_1 p mrs) = shr_m mrs / 2 ^ Zpos p.
Proof.
  intros Hm. rewrite iter_pos_iter.
  induction p as [|p IH] using Pos.peano_ind.
  - cbn [Pos.iter]. destruct mrs as [m r s]. cbn [shr_m] in *.
    rewrite shr_1_spec by exact Hm. reflexivity.
  - rewrite Pos.iter_succ.
    destruct (Pos.iter shr_1 mrs p) as [m r s] eqn:E. cbn [shr_m] in IH.
    assert (0 <= m).
    { rewrite IH. apply Z.div_pos; [exact Hm|]. apply Z.pow_pos_nonneg; lia. }
    rewrite shr_1_spec by assumption. cbn [shr_m].
    rewrite IH, Pos2Z.inj_succ, Z.pow_succ_r by lia.
    rewrite Z.div_div by (try apply Z.pow_pos_nonneg; lia).
    f_equal. lia.
Qed.

Lemma shr_iter_exact (p : positive) (m : Z) :
  0 <= m -> m mod 2 ^ Zpos p = 0 ->
  loc_of_shr_record (SpecFloat.iter_pos shr_1 p (Build_shr_record m false false)) =
  loc_Exact.
Proof.
  intros Hm. rewrite iter_pos_iter.
  induction p as [|p IH] using Pos.peano_ind; intros Hdiv.
  - cbn [Pos.iter]. rewrite shr_1_spec by exact Hm.
    change (2 ^ 1) with 2 in Hdiv.
    rewrite <- Z.negb_even, (proj2 (Z.even_spec m)); [reflexivity|].
    exists (m / 2). pose proof (Z.div_mod m 2). lia.
  - rewrite Pos.iter_succ.
    rewrite Pos2Z.inj_succ, Z.pow_succ_r in Hdiv by lia.
    assert (Hp : 0 < 2 ^ Zpos p) by (apply Z.pow_pos_nonneg; lia).
    assert (Hq : m = 2 ^ Zpos p * (2 * (m / (2 * 2 ^ Zpos p)))).
    { pose proof (Z.div_mod m (2 * 2 ^ Zpos p)). lia. }
    assert (Hlow : m mod 2 ^ Zpos p = 0).
    { rewrite Hq at 1. rewrite Z.mul_comm. apply Z.mod_mul. lia. }
    specialize (IH Hlow).
    pose proof (shr_iter_m p (Build_shr_record m false false) Hm) as Hmm.
    rewrite iter_pos_iter in Hmm. cbn [shr_m] in Hmm.
    destruct (Pos.iter shr_1 (Build_shr_record m false false) p) as [m' r s].
    cbn [shr_m] in Hmm. subst m'.
    destruct r, s; try discriminate IH.
    rewrite shr_1_spec by (apply Z.div_pos; lia).
    cbn [loc_of_shr_record orb].
    replace (Z.odd (m / 2 ^ Zpos p)) with false; [reflexivity|].
    symmetry. rewrite <- Z.negb_even. apply negb_false_iff, Z.even_spec.
    exists (m / (2 * 2 ^ Zpos p)).
    rewrite Hq at 1. rewrite Z.mul_comm, Z.div_mul by lia. reflexivity.
Qed.

Lemma loc_of_record_of_loc (m : Z) (l : location) :
  loc_of_shr_record (shr_record_of_loc m l) = l.
Proof. now destruct l as [|[]]. Qed.

Lemma shr_m_record_of_loc (m : Z) (l : location) :
  shr_m (shr_record_of_loc m l) = m.
Proof. now destruct l as [|[]]. Qed.

(** [shr] by [n >= 0] places: the mantissa is divided by [2^n]. *)
Lemma shr_spec (m e n : Z) (l : location) :
  0 <= m -> 0 <= n ->
  shr_m (fst (shr (shr_record_of_loc m l) e n)) = m / 2 ^ n /\
  snd (shr (shr_record_of_loc m l) e n) = e + n.
Proof.
  intros Hm Hn. destruct n as [|p|p]; try lia; cbn [shr fst snd].
  - rewrite shr_m_record_of_loc, Z.div_1_r. split; [reflexivity | lia].
  - rewrite shr_iter_m by (rewrite shr_m_record_of_loc; exact Hm).
    now rewrite shr_m_record_of_loc.
Qed.

Lemma shr_exact (m e n : Z) :
  0 <= m -> 0 <= n -> m mod 2 ^ n = 0 ->
  loc_of_shr_record (fst (shr (shr_record_of_loc m loc_Exact) e n)) = loc_Exact.
Proof.
  intros Hm Hn Hdiv. destruct n as [|p|p]; try lia; cbn [shr fst].
  - reflexivity.
  - now apply shr_iter_exact.
Qed.

Lemma shr_nonpos (mrs : shr_record) (e n : Z) :
  n <= 0 -> shr mrs e n = (mrs, e).
Proof. intros Hn. destruct n; try lia; reflexivity. Qed.

Lemma round_nearest_even_bounds (m : Z) (l : location) :
  m <= round_nearest_even m l <= m + 1.
Proof. destruct l as [|[]]; cbn; try destruct (Z.even m); lia. Qed.

(** ** Rounding, bounded by the representable numbers around it *)

Section RoundBounds.
Variables prec emax : Z.
Hypothesis Hprec : 0 < prec.
Hypothesis Hemax : prec < emax.


Lemma fexp_le (a b : Z) : a <= b -> (SpecFloat.fexp prec emax) a <= (SpecFloat.fexp prec emax) b.
Proof. unfold SpecFloat.fexp. lia. Qed.

Lemma fexp_emin (a : Z) : (SpecFloat.emin prec emax) <= (SpecFloat.fexp prec emax) a.
Proof. unfold SpecFloat.fexp. lia. Qed.

Lemma fexp_lt (a : Z) : (SpecFloat.emin prec emax) < a -> (SpecFloat.fexp prec emax) a < a.
Proof using Hprec. unfold SpecFloat.fexp. lia. Qed.

Lemma canonical_fexp (m : positive) (e : Z) :
  canonical_mantissa prec emax m e = true ->
  (SpecFloat.fexp prec emax) (Zpos (digits2_pos m) + e) = e.
Proof. unfold canonical_mantissa. apply Z.eqb_eq. Qed.

Lemma bounded_canonical (m : positive) (e : Z) :
  bounded prec emax m e = true ->
  canonical_mantissa prec emax m e = true /\ e <= emax - prec.
Proof.
  unfold bounded. intros [Hc He]%andb_true_iff. split; [exact Hc|].
  now apply Z.leb_le.
Qed.

Lemma div_pow2_pos (m n : Z) :
  0 < m -> 0 <= n -> n <= Zdigits2 m - 1 -> 1 <= m / 2 ^ n.
Proof.
  intros Hm Hn Hd.
  pose proof (Zdigits2_bounds m Hm) as [Hlo _].
  assert (2 ^ n <= 2 ^ (Zdigits2 m - 1)) by (apply Z.pow_le_mono_r; lia).
  assert (0 < 2 ^ n) by (apply Z.pow_pos_nonneg; lia).
  apply Z.div_le_lower_bound; lia.
Qed.

(** The second normalisation of [binary_round_aux], on a mantissa [m2]
    at the exponent [e1]. *)
Lemma shr_fexp_exact_cases (m2 e1 : Z) :
  0 <= m2 ->
  let n2 := (SpecFloat.fexp prec emax) (Zdigits2 m2 + e1) - e1 in
  let r := shr_fexp prec emax m2 e1 loc_Exact in
  (n2 <= 0 /\ shr_m (fst r) = m2 /\ snd r = e1) \/
  (0 < n2 /\ shr_m (fst r) = m2 / 2 ^ n2 /\ snd r = e1 + n2).
Proof.
  intros Hm2 n2 r. unfold r, shr_fexp. fold n2.
  destruct (Z_le_gt_dec n2 0) as [Hle|Hgt].
  - left. rewrite shr_nonpos by exact Hle. cbn [fst snd].
    now rewrite shr_m_record_of_loc.
  - right. destruct (shr_spec m2 e1 n2 loc_Exact Hm2 ltac:(lia)) as [H1 H2].
    split; [lia|]. split; assumption.
Qed.

(** Rounding does not go below a representable number that lies below. *)
Lemma round_aux_lower (s : bool) (m e : Z) (l : location)
    (my : positive) (ey : Z) :
  canonical_mantissa prec emax my ey = true ->
  e <= ey ->
  e <= (SpecFloat.fexp prec emax) (Zdigits2 m + e) ->
  Zpos my * 2 ^ (ey - e) <= m ->
  binary_round_aux prec emax s m e l = S754_infinity s \/
  exists m3 e3,
    binary_round_aux prec emax s m e l = S754_finite s m3 e3 /\
    (ey < e3 \/ (e3 = ey /\ (my <= m3)%positive)).
Proof using Hprec.
  intros Hcan%canonical_fexp Hey He Hle.
  assert (Hpow : 0 < 2 ^ (ey - e)) by (apply Z.pow_pos_nonneg; lia).
  assert (Hm : 0 < m) by nia.
  assert (Hdig : Zpos (digits2_pos my) + (ey - e) <= Zdigits2 m).
  { rewrite <- (Zdigits2_mul_pow2 (Zpos my)) by lia.
    apply Zdigits2_le. lia. }
  set (g := Zdigits2 m + e) in *.
  set (e1 := (SpecFloat.fexp prec emax) g) in *.
  assert (Hey1 : ey <= e1).
  { rewrite <- Hcan. apply fexp_le. unfold g. lia. }
  assert (Hemin : (SpecFloat.emin prec emax) <= ey) by (rewrite <- Hcan; apply fexp_emin).
  assert (He1g : e1 < g).
  { apply fexp_lt. unfold g. pose proof (Pos2Z.is_pos (digits2_pos my)). lia. }
  unfold binary_round_aux, shr_fexp. fold g. fold e1.
  destruct (shr_spec m e (e1 - e) l ltac:(lia) ltac:(lia)) as [Hm1 He'].
  destruct (shr (shr_record_of_loc m l) e (e1 - e)) as [mrs' e'].
  cbn [fst snd] in Hm1, He'. replace e' with e1 by lia. clear e' He'.
  set (m1 := shr_m mrs') in *.
  assert (Hm1pos : 1 <= m1).
  { rewrite Hm1. apply div_pow2_pos; [lia | lia | unfold g in He1g; lia]. }
  assert (Hm1y : e1 = ey -> Zpos my <= m1).
  { intros Heq. rewrite Hm1, Heq.
    apply Z.div_le_lower_bound; [assumption | lia]. }
  pose proof (round_nearest_even_bounds m1 (loc_of_shr_record mrs')) as Hm2.
  set (m2 := round_nearest_even m1 (loc_of_shr_record mrs')) in *.
  pose proof (shr_fexp_exact_cases m2 e1 ltac:(lia)) as Hcases.
  unfold shr_fexp in Hcases. cbn zeta in Hcases.
  destruct (shr (shr_record_of_loc m2 loc_Exact) e1
                ((SpecFloat.fexp prec emax) (Zdigits2 m2 + e1) - e1)) as [mrs'' e''].
  cbn [fst snd] in Hcases.
  assert (Hm3 : 1 <= shr_m mrs'' /\
                (ey < e'' \/ (e'' = ey /\ Zpos my <= shr_m mrs''))).
  { destruct Hcases as [(Hn2 & -> & ->) | (Hn2 & -> & ->)].
    - split; [lia|].
      destruct (Z.eq_dec e1 ey) as [Heq|Hne]; [right | left; lia].
      split; [exact Heq|]. specialize (Hm1y Heq). lia.
    - split; [|left; lia].
      apply div_pow2_pos; [lia | lia |].
      pose proof (fexp_lt (Zdigits2 m2 + e1)) as Hlt.
      pose proof (Zdigits2_pos m2 ltac:(lia)).
      pose proof (fexp_emin g). fold e1 in H0. lia. }
  destruct Hm3 as [Hpos Hlex].
  destruct (shr_m mrs'') as [|m3|m3]; try lia.
  destruct (e'' <=? emax - prec); [right | left; reflexivity].
  exists m3, e''. split; [reflexivity|].
  destruct Hlex as [Hlt | [Heq Hmy]]; [left; exact Hlt | right].
  split; [exact Heq|]. apply Pos2Z.pos_le_pos. exact Hmy.
Qed.

(** Rounding does not go above a representable number that lies above. *)
Lemma round_aux_upper (s : bool) (m e : Z) (l : location)
    (my : positive) (ey : Z) :
  bounded prec emax my ey = true ->
  0 <= m ->
  e <= ey ->
  e <= (SpecFloat.fexp prec emax) (Zdigits2 m + e) ->
  (match l with loc_Exact => m | _ => m + 1 end) <= Zpos my * 2 ^ (ey - e) ->
  binary_round_aux prec emax s m e l = S754_zero s \/
  exists m3 e3,
    binary_round_aux prec emax s m e l = S754_finite s m3 e3 /\
    (SpecFloat.emin prec emax) <= e3 /\
    (e3 < ey \/ (e3 = ey /\ (m3 <= my)%positive)).
Proof using Hprec.
  intros [Hcan%canonical_fexp Hbnd]%bounded_canonical Hm Hey He Hle.
  assert (Hpow : 0 < 2 ^ (ey - e)) by (apply Z.pow_pos_nonneg; lia).
  assert (Hmle : m <= Zpos my * 2 ^ (ey - e)) by (destruct l; lia).
  assert (Hdig : Zdigits2 m <= Zpos (digits2_pos my) + (ey - e)).
  { rewrite <- (Zdigits2_mul_pow2 (Zpos my)) by lia.
    apply Zdigits2_le. lia. }
  set (g := Zdigits2 m + e) in *.
  set (e1 := (SpecFloat.fexp prec emax) g) in *.
  assert (Hey1 : e1 <= ey).
  { rewrite <- Hcan. apply fexp_le. unfold g. lia. }
  set (Y := Zpos my * 2 ^ (ey - e1)).
  assert (Hp1 : 0 < 2 ^ (e1 - e)) by (apply Z.pow_pos_nonneg; lia).
  assert (Hp2 : 0 < 2 ^ (ey - e1)) by (apply Z.pow_pos_nonneg; lia).
  assert (HY : Zpos my * 2 ^ (ey - e) = Y * 2 ^ (e1 - e)).
  { unfold Y. rewrite <- Z.mul_assoc, <- Z.pow_add_r by lia.
    do 2 f_equal. lia. }
  unfold binary_round_aux, shr_fexp. fold g. fold e1.
  destruct (shr_spec m e (e1 - e) l ltac:(lia) ltac:(lia)) as [Hm1 He'].
  pose proof (shr_exact m e (e1 - e) Hm ltac:(lia)) as Hexact.
  destruct (shr (shr_record_of_loc m l) e (e1 - e)) as [mrs' e'] eqn:Hshr.
  cbn [fst snd] in Hm1, He'. replace e' with e1 in * by lia. clear He'.
  set (m1 := shr_m mrs') in *.
  assert (Hm1nn : 0 <= m1) by (rewrite Hm1; apply Z.div_pos; lia).
  assert (Hm1Y : m1 <= Y).
  { rewrite Hm1. apply Z.div_le_upper_bound; lia. }
  pose proof (round_nearest_even_bounds m1 (loc_of_shr_record mrs')) as Hm2.
  assert (Hm2Y : round_nearest_even m1 (loc_of_shr_record mrs') <= Y).
  { destruct (Z.eq_dec m1 Y) as [Heq|Hne]; [|lia].
    assert (Hmge : Y * 2 ^ (e1 - e) <= m).
    { rewrite <- Heq, Hm1, Z.mul_comm. apply Z.mul_div_le. lia. }
    assert (Hl : l = loc_Exact) by (destruct l; [reflexivity | lia]).
    subst l.
    assert (Hmeq : m = Y * 2 ^ (e1 - e)) by lia.
    rewrite Hshr in Hexact. cbn [fst] in Hexact.
    rewrite Hexact by (rewrite Hmeq; apply Z.mod_mul; lia).
    cbn [round_nearest_even]. lia. }
  set (m2 := round_nearest_even m1 (loc_of_shr_record mrs')) in *.
  pose proof (shr_fexp_exact_cases m2 e1 ltac:(lia)) as Hcases.
  unfold shr_fexp in Hcases. cbn zeta in Hcases.
  destruct (shr (shr_record_of_loc m2 loc_Exact) e1
                ((SpecFloat.fexp prec emax) (Zdigits2 m2 + e1) - e1)) as [mrs'' e''].
  cbn [fst snd] in Hcases.
  assert (Hd2 : 0 < m2 -> (SpecFloat.fexp prec emax) (Zdigits2 m2 + e1) <= ey).
  { intros Hpos. rewrite <- Hcan. apply fexp_le.
    assert (Zdigits2 m2 <= Zdigits2 Y) by (apply Zdigits2_le; lia).
    unfold Y in H. rewrite Zdigits2_mul_pow2 in H by lia.
    cbn [Zdigits2] in H. lia. }
  assert (Hemin1 : (SpecFloat.emin prec emax) <= e1) by apply fexp_emin.
  assert (Hemin3 : (SpecFloat.emin prec emax) <= e'') by (destruct Hcases as [(? & _ & ->) | (? & _ & ->)]; lia).
  assert (Hm3 : 0 <= shr_m mrs'' /\
                (0 < shr_m mrs'' ->
                 e'' < ey \/ (e'' = ey /\ shr_m mrs'' <= Zpos my))).
  { destruct Hcases as [(Hn2 & -> & ->) | (Hn2 & -> & ->)].
    - split; [lia|]. intros Hpos.
      destruct (Z.eq_dec e1 ey) as [Heq|Hne]; [right | left; lia].
      split; [exact Heq|].
      assert (Y = Zpos my)
        by (unfold Y; rewrite Heq, Z.sub_diag, Z.pow_0_r; lia).
      lia.
    - assert (Hp3 : 0 < 2 ^ ((SpecFloat.fexp prec emax) (Zdigits2 m2 + e1) - e1))
        by (apply Z.pow_pos_nonneg; lia).
      split; [apply Z.div_pos; lia|]. intros Hpos.
      assert (Hm2pos : 0 < m2).
      { destruct (Z_lt_le_dec 0 m2) as [|Hle0]; [assumption|].
        pose proof (Z.div_le_mono m2 0 _ Hp3 Hle0) as Hd0.
        rewrite Z.div_0_l in Hd0 by lia. lia. }
      specialize (Hd2 Hm2pos).
      destruct (Z.eq_dec (e1 + ((SpecFloat.fexp prec emax) (Zdigits2 m2 + e1) - e1)) ey)
        as [Heq|Hne]; [right | left; lia].
      split; [exact Heq|].
      replace ((SpecFloat.fexp prec emax) (Zdigits2 m2 + e1) - e1) with (ey - e1) by lia.
      apply Z.div_le_upper_bound; [lia|].
      fold Y. rewrite Z.mul_comm. fold Y. lia. }
  destruct Hm3 as [Hnn Hlex].
  destruct (shr_m mrs'') as [|m3|m3]; [left; reflexivity | | lia].
  right. specialize (Hlex ltac:(lia)).
  assert (Hok : e'' <= emax - prec) by lia.
  apply Z.leb_le in Hok. rewrite Hok.
  exists m3, e''. split; [reflexivity|]. split; [exact Hemin3|].
  destruct Hlex as [Hlt | [Heq Hmy]]; [left; exact Hlt | right].
  split; [exact Heq|]. apply Pos2Z.pos_le_pos. exact Hmy.
Qed.

(** The sign is kept and no nan arises. *)
Lemma round_aux_shape (s : bool) (m e : Z) (l : location) :
  0 <= m ->
  binary_round_aux prec emax s m e l = S754_zero s \/
  (exists m3 e3, binary_round_aux prec emax s m e l = S754_finite s m3 e3) \/
  binary_round_aux prec emax s m e l = S754_infinity s.
Proof.
  intros Hm. unfold binary_round_aux, shr_fexp.
  set (n := (SpecFloat.fexp prec emax) (Zdigits2 m + e) - e).
  assert (Hm1 : 0 <= shr_m (fst (shr (shr_record_of_loc m l) e n))).
  { destruct (Z_le_gt_dec n 0) as [Hle|Hgt].
    - rewrite shr_nonpos by exact Hle. cbn [fst].
      now rewrite shr_m_record_of_loc.
    - destruct (shr_spec m e n l Hm ltac:(lia)) as [-> _].
      apply Z.div_pos; [lia|]. apply Z.pow_pos_nonneg; lia. }
  destruct (shr (shr_record_of_loc m l) e n) as [mrs' e'].
  cbn [fst] in Hm1.
  pose proof (round_nearest_even_bounds (shr_m mrs') (loc_of_shr_record mrs'))
    as Hm2.
  set (m2 := round_nearest_even (shr_m mrs') (loc_of_shr_record mrs')) in *.
  pose proof (shr_fexp_exact_cases m2 e' ltac:(lia)) as Hcases.
  unfold shr_fexp in Hcases. cbn zeta in Hcases.
  destruct (shr (shr_record_of_loc m2 loc_Exact) e'
                ((SpecFloat.fexp prec emax) (Zdigits2 m2 + e') - e')) as [mrs'' e''].
  cbn [fst snd] in Hcases.
  assert (Hm3 : 0 <= shr_m mrs'').
  { destruct Hcases as [(_ & -> & _) | (Hn2 & -> & _)]; [lia|].
    apply Z.div_pos; [lia|]. apply Z.pow_pos_nonneg; lia. }
  destruct (shr_m mrs'') as [|m3|m3]; [now left | | lia].
  right. destruct (e'' <=? emax - prec); [left | right; reflexivity].
  now exists m3, e''.
Qed.
End RoundBounds.

(** ** Comparison of numbers of one sign *)

Lemma SFleb_pos (m1 m2 : positive) (e1 e2 : Z) :
  e1 < e2 \/ (e2 = e1 /\ (m1 <= m2)%positive) ->
  SFleb (S754_finite false m1 e1) (S754_finite false m2 e2) = true.
Proof.
  unfold SFleb, SFcompare. intros [Hlt | [-> Hle]].
  - now rewrite (proj2 (Z.compare_lt_iff e1 e2) Hlt).
  - rewrite Z.compare_refl. change (Pos.compare_cont Eq m1 m2) with (m1 ?= m2)%positive.
    apply Pos.compare_le_iff in Hle. now destruct (m1 ?= m2)%positive.
Qed.

Lemma SFleb_neg (m1 m2 : positive) (e1 e2 : Z) :
  e2 < e1 \/ (e2 = e1 /\ (m2 <= m1)%positive) ->
  SFleb (S754_finite true m1 e1) (S754_finite true m2 e2) = true.
Proof.
  unfold SFleb, SFcompare. intros [Hlt | [-> Hle]].
  - now rewrite (proj2 (Z.compare_gt_iff e1 e2) Hlt).
  - rewrite Z.compare_refl. change (Pos.compare_cont Eq m1 m2) with (m1 ?= m2)%positive.
    apply Pos.compare_ge_iff in Hle. now destruct (m1 ?= m2)%positive.
Qed.

Lemma SFleb_refl (x : spec_float) : x <> S754_nan -> SFleb x x = true.
Proof.
  destruct x as [s|s| |s m e]; try easy; intros _.
  - now destruct s.
  - destruct s; [apply SFleb_neg | apply SFleb_pos]; right;
      (split; [reflexivity | apply Pos.le_refl]).
Qed.

(** ** Alignment and [binary_round] *)

Lemma iter_xO (m d : positive) : Zpos (Pos.iter xO m d) = Zpos m * 2 ^ Zpos d.
Proof.
  induction d as [|d IH] using Pos.peano_ind.
  - cbn [Pos.iter]. lia.
  - rewrite Pos.iter_succ, Pos2Z.inj_succ, Z.pow_succ_r by lia.
    change (Zpos (Pos.iter xO m d)~0) with (2 * Zpos (Pos.iter xO m d)).
    rewrite IH. lia.
Qed.

Lemma shl_align_spec (m : positive) (e e' : Z) :
  Zpos (fst (shl_align m e e')) = Zpos m * 2 ^ (e - Z.min e e') /\
  snd (shl_align m e e') = Z.min e e'.
Proof.
  unfold shl_align. destruct (e' - e) as [|d|d] eqn:Hd; cbn [fst snd].
  - replace (Z.min e e') with e by lia. rewrite Z.sub_diag. lia.
  - replace (Z.min e e') with e by lia. rewrite Z.sub_diag. lia.
  - replace (Z.min e e') with e' by lia. rewrite iter_xO.
    split; [|reflexivity]. do 2 f_equal. lia.
Qed.

Section RoundOps.
Variables prec emax : Z.
Hypothesis Hprec : 0 < prec.
Hypothesis Hemax : prec < emax.


(** What [binary_round] hands to [binary_round_aux]. *)
Lemma binary_round_aligned (s : bool) (m : positive) (e : Z) :
  exists mz ez,
    binary_round prec emax s m e =
      binary_round_aux prec emax s (Zpos mz) ez loc_Exact /\
    ez <= e /\
    Zpos mz = Zpos m * 2 ^ (e - ez) /\
    ez <= (SpecFloat.fexp prec emax) (Zdigits2 (Zpos mz) + ez).
Proof.
  unfold binary_round.
  destruct (shl_align_spec m e ((SpecFloat.fexp prec emax) (Zpos (digits2_pos m) + e))) as [Hmz Hez].
  destruct (shl_align m e ((SpecFloat.fexp prec emax) (Zpos (digits2_pos m) + e))) as [mz ez].
  cbn [fst snd] in Hmz, Hez. exists mz, ez. split; [reflexivity|].
  split; [lia|]. split; [rewrite Hmz, Hez; reflexivity|].
  rewrite Hmz, Zdigits2_mul_pow2 by lia. cbn [Zdigits2].
  replace (Zpos (digits2_pos m) + (e - Z.min e ((SpecFloat.fexp prec emax) (Zpos (digits2_pos m) + e))) + ez)
    with (Zpos (digits2_pos m) + e) by lia.
  lia.
Qed.

Lemma binary_round_lower (s : bool) (m : positive) (e : Z)
    (my : positive) (ey : Z) :
  canonical_mantissa prec emax my ey = true ->
  e <= ey ->
  Zpos my * 2 ^ (ey - e) <= Zpos m ->
  binary_round prec emax s m e = S754_infinity s \/
  exists m3 e3,
    binary_round prec emax s m e = S754_finite s m3 e3 /\
    (ey < e3 \/ (e3 = ey /\ (my <= m3)%positive)).
Proof using Hprec.
  intros Hcan Hey Hle.
  destruct (binary_round_aligned s m e) as (mz & ez & -> & Hez & Hmz & He).
  apply round_aux_lower with (my := my) (ey := ey); try assumption; [lia|].
  rewrite Hmz. replace (ey - ez) with ((ey - e) + (e - ez)) by lia.
  rewrite Z.pow_add_r by lia.
  assert (0 < 2 ^ (e - ez)) by (apply Z.pow_pos_nonneg; lia). nia.
Qed.

Lemma binary_round_upper (s : bool) (m : positive) (e : Z)
    (my : positive) (ey : Z) :
  bounded prec emax my ey = true ->
  e <= ey ->
  Zpos m <= Zpos my * 2 ^ (ey - e) ->
  binary_round prec emax s m e = S754_zero s \/
  exists m3 e3,
    binary_round prec emax s m e = S754_finite s m3 e3 /\
    (SpecFloat.emin prec emax) <= e3 /\
    (e3 < ey \/ (e3 = ey /\ (m3 <= my)%positive)).
Proof using Hprec.
  intros Hbnd Hey Hle.
  destruct (binary_round_aligned s m e) as (mz & ez & -> & Hez & Hmz & He).
  apply round_aux_upper with (my := my) (ey := ey); try assumption; [lia | lia |].
  rewrite Hmz. replace (ey - ez) with ((ey - e) + (e - ez)) by lia.
  rewrite Z.pow_add_r by lia.
  assert (0 < 2 ^ (e - ez)) by (apply Z.pow_pos_nonneg; lia). nia.
Qed.

Lemma binary_round_shape (s : bool) (m : positive) (e : Z) :
  binary_round prec emax s m e = S754_zero s \/
  (exists m3 e3, binary_round prec emax s m e = S754_finite s m3 e3) \/
  binary_round prec emax s m e = S754_infinity s.
Proof.
  destruct (binary_round_aligned s m e) as (mz & ez & -> & _).
  apply round_aux_shape. lia.
Qed.

Lemma binary_round_nonneg (m : positive) (e : Z) :
  sf_nonneg (binary_round prec emax false m e) = true.
Proof.
  destruct (binary_round_shape false m e) as [-> | [(m3 & e3 & ->) | ->]];
    reflexivity.
Qed.

(** ** Adding a non-negative number never lowers the sum *)

Lemma SFadd_nonneg_ge (x p : spec_float) :
  SpecFloat.valid_binary prec emax x = true ->
  SpecFloat.valid_binary prec emax p = true ->
  sf_above x = true ->
  sf_nonneg p = true ->
  SFleb x (SFadd prec emax x p) = true /\
  sf_above (SFadd prec emax x p) = true.
Proof using Hprec.
  intros Hvx Hvp Hx Hp.
  destruct x as [sx|[|]| |sx mx ex]; try discriminate Hx;
    destruct p as [sp|[|]| |[|] mp ep]; try discriminate Hp;
    try (split; reflexivity);
    try (destruct sx; split; reflexivity);
    try (destruct sx, sp; split; reflexivity).
  - (* finite + zero *)
    cbn [SFadd]. split; [apply SFleb_refl; discriminate | reflexivity].
  - (* finite + finite *)
    cbn [SpecFloat.valid_binary] in Hvx, Hvp.
    cbn [SFadd].
    set (ez := Z.min ex ep).
    destruct (shl_align_spec mx ex ez) as [HX _].
    destruct (shl_align_spec mp ep ez) as [HP _].
    replace (Z.min ex ez) with ez in HX by lia.
    replace (Z.min ep ez) with ez in HP by lia.
    set (X := Zpos (fst (shl_align mx ex ez))) in *.
    set (P := Zpos (fst (shl_align mp ep ez))) in *.
    assert (H2x : 0 < 2 ^ (ex - ez)) by (apply Z.pow_pos_nonneg; lia).
    assert (H2p : 0 < 2 ^ (ep - ez)) by (apply Z.pow_pos_nonneg; lia).
    assert (HPpos : 0 < P) by (rewrite HP; nia).
    assert (HXpos : 0 < X) by (rewrite HX; nia).
    clearbody X P.
    destruct sx; cbn [cond_Zopp].
    + (* a negative number *)
      destruct (- X + P) as [|M|M] eqn:EM; cbn [binary_normalize].
      * split; reflexivity.
      * destruct (binary_round_shape false M ez)
          as [-> | [(m3 & e3 & ->) | ->]]; split; reflexivity.
      * destruct (binary_round_upper true M ez mx ex Hvx ltac:(lia))
          as [-> | (m3 & e3 & -> & _ & Hlex)].
        -- rewrite <- HX. lia.
        -- split; reflexivity.
        -- split; [apply SFleb_neg; exact Hlex | reflexivity].
    + (* a positive number *)
      destruct (X + P) as [|M|M] eqn:EM; try lia; cbn [binary_normalize].
      apply bounded_canonical in Hvx as [Hcx _].
      destruct (binary_round_lower false M ez mx ex Hcx ltac:(lia))
        as [-> | (m3 & e3 & -> & Hlex)].
      * rewrite <- HX. lia.
      * split; reflexivity.
      * split; [apply SFleb_pos | reflexivity].
        destruct Hlex as [Hlt | [-> Hle]]; [left; exact Hlt | right; easy].
Qed.
End RoundOps.

Section RoundSigns.
Variables prec emax : Z.
Hypothesis Hprec : 0 < prec.
Hypothesis Hemax : prec < emax.


(** ** Products and quotients by a positive number keep the sign *)

Lemma SFmul_nonneg (p : spec_float) (mc : positive) (ec : Z) :
  sf_nonneg p = true ->
  sf_nonneg (SFmul prec emax p (S754_finite false mc ec)) = true.
Proof.
  destruct p as [s|[|]| |[|] m e]; try discriminate; intros _; try reflexivity.
  cbn [SFmul xorb].
  destruct (round_aux_shape prec emax false (Zpos (m * mc)) (e + ec) loc_Exact)
    as [-> | [(m3 & e3 & ->) | ->]]; [lia | reflexivity..].
Qed.

Lemma SFdiv_core_nonneg (m1 m2 : positive) (e1 e2 : Z) :
  0 <= fst (fst (SFdiv_core_binary prec emax (Zpos m1) e1 (Zpos m2) e2)).
Proof.
  unfold SFdiv_core_binary.
  set (s := e1 - e2 - _).
  set (m' := match s with Z0 => Zpos m1 | Zpos _ => Z.shiftl (Zpos m1) s
                     | Zneg _ => 0 end).
  assert (Hm' : 0 <= m').
  { unfold m'. destruct s; try lia. apply Z.shiftl_nonneg. lia. }
  pose proof (Z.div_pos m' (Zpos m2) Hm' ltac:(lia)) as Hq.
  unfold Z.div in Hq.
  destruct (Z.div_eucl m' (Zpos m2)) as [q r]. exact Hq.
Qed.

Lemma SFdiv_nonneg (p : spec_float) (mc : positive) (ec : Z) :
  sf_nonneg p = true ->
  sf_nonneg (SFdiv prec emax p (S754_finite false mc ec)) = true.
Proof.
  destruct p as [s|[|]| |[|] m e]; try discriminate; intros _; try reflexivity.
  cbn [SFdiv xorb].
  pose proof (SFdiv_core_nonneg m mc e ec) as Hq.
  destruct (SFdiv_core_binary prec emax (Zpos m) e (Zpos mc) ec) as [[mz ez] lz].
  cbn [fst] in Hq.
  destruct (round_aux_shape prec emax false mz ez lz Hq)
    as [-> | [(m3 & e3 & ->) | ->]]; reflexivity.
Qed.

(** ** Numbers as multiples of the smallest one *)

Lemma canonical_digits (m : positive) (e : Z) :
  canonical_mantissa prec emax m e = true ->
  Zpos (digits2_pos m) <= prec /\ (SpecFloat.emin prec emax) <= e /\
  ((SpecFloat.emin prec emax) < e -> Zpos (digits2_pos m) = prec).
Proof.
  intros Hc%canonical_fexp. unfold SpecFloat.fexp in Hc. lia.
Qed.

Lemma units_lt_exp (m1 m2 : positive) (e1 e2 : Z) :
  canonical_mantissa prec emax m1 e1 = true ->
  canonical_mantissa prec emax m2 e2 = true ->
  e1 < e2 ->
  Zpos m1 * 2 ^ (e1 - (SpecFloat.emin prec emax)) < Zpos m2 * 2 ^ (e2 - (SpecFloat.emin prec emax)).
Proof using Hprec.
  intros (Hd1 & He1 & _)%canonical_digits (_ & He2 & Hd2)%canonical_digits Hlt.
  specialize (Hd2 ltac:(lia)).
  pose proof (digits2_pos_bounds m1) as [_ Hm1].
  pose proof (digits2_pos_bounds m2) as [Hm2 _].
  rewrite Hd2 in Hm2.
  assert (H1 : 2 ^ Zpos (digits2_pos m1) <= 2 ^ prec)
    by (apply Z.pow_le_mono_r; lia).
  rewrite (pow2_pred prec Hprec) in H1.
  assert (Ha : 0 < 2 ^ (e1 - (SpecFloat.emin prec emax))) by (apply Z.pow_pos_nonneg; lia).
  assert (Hb : 2 * 2 ^ (e1 - (SpecFloat.emin prec emax)) <= 2 ^ (e2 - (SpecFloat.emin prec emax))).
  { rewrite <- Z.pow_succ_r by lia. apply Z.pow_le_mono_r; lia. }
  assert (Hh : 0 < 2 ^ (prec - 1)) by (apply Z.pow_pos_nonneg; lia).
  nia.
Qed.

Lemma SFleb_pos_inv (m1 m2 : positive) (e1 e2 : Z) :
  SFleb (S754_finite false m1 e1) (S754_finite false m2 e2) = true ->
  e1 < e2 \/ (e2 = e1 /\ (m1 <= m2)%positive).
Proof.
  unfold SFleb, SFcompare.
  destruct (Z.compare_spec e1 e2) as [->|Hlt|Hgt]; try discriminate;
    [|left; exact Hlt].
  change (Pos.compare_cont Eq m1 m2) with (m1 ?= m2)%positive.
  intros H. right. split; [reflexivity|]. unfold Pos.le.
  destruct (m1 ?= m2)%positive; [discriminate | discriminate | discriminate H].
Qed.

Lemma SFleb_neg_inv (m1 m2 : positive) (e1 e2 : Z) :
  SFleb (S754_finite true m1 e1) (S754_finite true m2 e2) = true ->
  e2 < e1 \/ (e2 = e1 /\ (m2 <= m1)%positive).
Proof.
  unfold SFleb, SFcompare.
  destruct (Z.compare_spec e1 e2) as [->|Hlt|Hgt]; try discriminate;
    [|left; exact Hgt].
  change (Pos.compare_cont Eq m1 m2) with (m1 ?= m2)%positive.
  intros H. right. split; [reflexivity|]. apply Pos.ge_le. unfold Pos.ge.
  destruct (m1 ?= m2)%positive; [discriminate | discriminate H | discriminate].
Qed.

Lemma units_le_lex (m1 m2 : positive) (e1 e2 : Z) :
  canonical_mantissa prec emax m1 e1 = true ->
  canonical_mantissa prec emax m2 e2 = true ->
  e1 < e2 \/ (e2 = e1 /\ (m1 <= m2)%positive) ->
  Zpos m1 * 2 ^ (e1 - (SpecFloat.emin prec emax)) <= Zpos m2 * 2 ^ (e2 - (SpecFloat.emin prec emax)).
Proof using Hprec.
  intros Hc1 Hc2 [Hlt | [-> Hle]].
  - pose proof (units_lt_exp m1 m2 e1 e2 Hc1 Hc2 Hlt). lia.
  - apply Z.mul_le_mono_nonneg_r; [apply Z.pow_nonneg; lia|].
    apply Pos2Z.pos_le_pos. exact Hle.
Qed.

(** The comparison of two numbers agrees with that of their multiples. *)
Lemma SFleb_units (x y : spec_float) :
  SpecFloat.valid_binary prec emax x = true ->
  SpecFloat.valid_binary prec emax y = true ->
  sf_number x = true -> sf_number y = true ->
  SFleb x y = true ->
  sf_units (SpecFloat.emin prec emax) x <= sf_units (SpecFloat.emin prec emax) y.
Proof using Hprec.
  intros Hvx Hvy Hx Hy Hle.
  destruct x as [sx| | |sx mx ex]; try discriminate Hx;
    destruct y as [sy| | |sy my ey]; try discriminate Hy;
    cbn [sf_units SpecFloat.valid_binary] in *.
  - lia.
  - apply bounded_canonical in Hvy as [(_ & He & _)%canonical_digits _].
    assert (0 < 2 ^ (ey - (SpecFloat.emin prec emax))) by (apply Z.pow_pos_nonneg; lia).
    destruct sy; [discriminate Hle|]. cbn [cond_Zopp]. nia.
  - apply bounded_canonical in Hvx as [(_ & He & _)%canonical_digits _].
    assert (0 < 2 ^ (ex - (SpecFloat.emin prec emax))) by (apply Z.pow_pos_nonneg; lia).
    destruct sx; [|discriminate Hle]. cbn [cond_Zopp]. nia.
  - apply bounded_canonical in Hvx as [Hcx _].
    apply bounded_canonical in Hvy as [Hcy _].
    pose proof (canonical_digits _ _ Hcx) as (_ & Hex & _).
    pose proof (canonical_digits _ _ Hcy) as (_ & Hey & _).
    assert (0 < 2 ^ (ex - (SpecFloat.emin prec emax))) by (apply Z.pow_pos_nonneg; lia).
    assert (0 < 2 ^ (ey - (SpecFloat.emin prec emax))) by (apply Z.pow_pos_nonneg; lia).
    destruct sx, sy; cbn [cond_Zopp].
    + apply SFleb_neg_inv in Hle.
      assert (Hle' : ey < ex \/ (ex = ey /\ (my <= mx)%positive))
        by (destruct Hle as [?|[-> ?]]; [left | right]; easy).
      pose proof (units_le_lex my mx ey ex Hcy Hcx Hle'). lia.
    + nia.
    + discriminate Hle.
    + apply SFleb_pos_inv in Hle.
      exact (units_le_lex mx my ex ey Hcx Hcy Hle).
Qed.

(** Two numbers with the same multiple are the same number, or two zeros. *)
Lemma sf_units_inj (x y : spec_float) :
  SpecFloat.valid_binary prec emax x = true ->
  SpecFloat.valid_binary prec emax y = true ->
  sf_number x = true -> sf_number y = true ->
  sf_units (SpecFloat.emin prec emax) x = sf_units (SpecFloat.emin prec emax) y ->
  x = y \/ (sf_units (SpecFloat.emin prec emax) x = 0 /\ sf_units (SpecFloat.emin prec emax) y = 0).
Proof using Hprec.
  intros Hvx Hvy Hx Hy Heq.
  destruct x as [sx| | |sx mx ex]; try discriminate Hx;
    destruct y as [sy| | |sy my ey]; try discriminate Hy;
    cbn [sf_units SpecFloat.valid_binary] in *;
    try (right; split; [reflexivity | lia]);
    try (right; split; [lia | reflexivity]).
  left.
  apply bounded_canonical in Hvx as [Hcx _].
  apply bounded_canonical in Hvy as [Hcy _].
  pose proof (canonical_digits _ _ Hcx) as (_ & Hex & _).
  pose proof (canonical_digits _ _ Hcy) as (_ & Hey & _).
  assert (0 < 2 ^ (ex - (SpecFloat.emin prec emax))) by (apply Z.pow_pos_nonneg; lia).
  assert (0 < 2 ^ (ey - (SpecFloat.emin prec emax))) by (apply Z.pow_pos_nonneg; lia).
  assert (Hs : sx = sy) by (destruct sx, sy; cbn [cond_Zopp] in Heq; nia || reflexivity).
  subst sy.
  assert (Hm : Zpos mx * 2 ^ (ex - (SpecFloat.emin prec emax)) = Zpos my * 2 ^ (ey - (SpecFloat.emin prec emax)))
    by (destruct sx; cbn [cond_Zopp] in Heq; lia).
  assert (He : ex = ey).
  { destruct (Z.lt_trichotomy ex ey) as [Hlt | [Heq' | Hgt]]; [|exact Heq'|].
    - pose proof (units_lt_exp mx my ex ey Hcx Hcy Hlt). lia.
    - pose proof (units_lt_exp my mx ey ex Hcy Hcx Hgt). lia. }
  subst ey. f_equal. nia.
Qed.

(** ** The difference of a number and a smaller one is not negative *)

Lemma SFsub_nonneg (a b : spec_float) :
  SpecFloat.valid_binary prec emax a = true ->
  SpecFloat.valid_binary prec emax b = true ->
  sf_number a = true -> sf_number b = true ->
  sf_units (SpecFloat.emin prec emax) b <= sf_units (SpecFloat.emin prec emax) a ->
  sf_nonneg (SFsub prec emax a b) = true.
Proof using Hprec.
  intros Hva Hvb Ha Hb Hle.
  destruct a as [sa| | |sa ma ea]; try discriminate Ha;
    destruct b as [sb| | |sb mb eb]; try discriminate Hb;
    cbn [sf_units SpecFloat.valid_binary] in *.
  - now destruct sa, sb.
  - apply bounded_canonical in Hvb as [(_ & He & _)%canonical_digits _].
    assert (0 < 2 ^ (eb - (SpecFloat.emin prec emax))) by (apply Z.pow_pos_nonneg; lia).
    destruct sb; [reflexivity|]. cbn [cond_Zopp] in Hle. nia.
  - apply bounded_canonical in Hva as [(_ & He & _)%canonical_digits _].
    assert (0 < 2 ^ (ea - (SpecFloat.emin prec emax))) by (apply Z.pow_pos_nonneg; lia).
    destruct sa; [|reflexivity]. cbn [cond_Zopp] in Hle. nia.
  - apply bounded_canonical in Hva as [(_ & Hea & _)%canonical_digits _].
    apply bounded_canonical in Hvb as [(_ & Heb & _)%canonical_digits _].
    cbn [SFsub].
    set (ez := Z.min ea eb).
    destruct (shl_align_spec ma ea ez) as [HA _].
    destruct (shl_align_spec mb eb ez) as [HB _].
    replace (Z.min ea ez) with ez in HA by lia.
    replace (Z.min eb ez) with ez in HB by lia.
    set (A := Zpos (fst (shl_align ma ea ez))) in *.
    set (B := Zpos (fst (shl_align mb eb ez))) in *.
    clearbody A B.
    assert (Hz : 0 < 2 ^ (ez - (SpecFloat.emin prec emax))) by (apply Z.pow_pos_nonneg; lia).
    assert (HA' : Zpos ma * 2 ^ (ea - (SpecFloat.emin prec emax)) = A * 2 ^ (ez - (SpecFloat.emin prec emax))).
    { rewrite HA, <- Z.mul_assoc, <- Z.pow_add_r by lia. do 2 f_equal. lia. }
    assert (HB' : Zpos mb * 2 ^ (eb - (SpecFloat.emin prec emax)) = B * 2 ^ (ez - (SpecFloat.emin prec emax))).
    { rewrite HB, <- Z.mul_assoc, <- Z.pow_add_r by lia. do 2 f_equal. lia. }
    rewrite HA', HB' in Hle.
    assert (Hdiff : 0 <= cond_Zopp sa A - cond_Zopp sb B).
    { destruct sa, sb; cbn [cond_Zopp] in *; nia. }
    destruct (cond_Zopp sa A - cond_Zopp sb B) as [|M|M]; try lia;
      cbn [binary_normalize]; [reflexivity|].
    apply binary_round_nonneg.
Qed.
End RoundSigns.

(** ** The order is transitive *)

Lemma SFleb_trans (x y z : spec_float) :
  SFleb x y = true -> SFleb y z = true -> SFleb x z = true.
Proof.
  destruct x as [sx|sx| |sx mx ex]; destruct y as [sy|sy| |sy my ey];
    destruct z as [sz|sz| |sz mz ez];
    try discriminate; try reflexivity;
    try (destruct sx; discriminate); try (destruct sy; discriminate);
    try (destruct sx, sy; discriminate);
    try (destruct sx, sy, sz; (discriminate || reflexivity)).
  destruct sx, sy, sz; try discriminate; try reflexivity.
  - intros H1%SFleb_neg_inv H2%SFleb_neg_inv. apply SFleb_neg.
    destruct H1 as [H1 | [-> H1]], H2 as [H2 | [-> H2]];
      [left; lia | left; lia | left; lia | right].
    split; [reflexivity|]. now apply (Pos.le_trans _ my).
  - intros H1%SFleb_pos_inv H2%SFleb_pos_inv. apply SFleb_pos.
    destruct H1 as [H1 | [-> H1]], H2 as [H2 | [-> H2]];
      [left; lia | left; lia | left; lia | right].
    split; [reflexivity|]. now apply (Pos.le_trans _ my).
Qed.

(** ** Halving in binary64 *)

Lemma div_eucl_div_mod (a b : Z) : Z.div_eucl a b = (a / b, a mod b).
Proof. unfold Z.div, Z.modulo. now destruct (Z.div_eucl a b). Qed.

Lemma SFdiv_core_two (m : positive) (e : Z) :
  bounded prec emax m e = true ->
  let e' := Z.max (Zpos (digits2_pos m) + e - 55) (-1074) in
  SFdiv_core_binary prec emax (Zpos m) e 4503599627370496 (-51) =
  ((Zpos m * 2 ^ (e + 51 - e')) / 2 ^ 52, e',
   new_location 4503599627370496 ((Zpos m * 2 ^ (e + 51 - e')) mod 2 ^ 52)) /\
  51 <= e + 51 - e'.
Proof.
  intros [Hc _]%bounded_canonical e'.
  apply canonical_fexp in Hc.
  unfold SpecFloat.fexp, SpecFloat.emin, prec, emax in Hc.
  assert (He' : e' <= e) by (unfold e'; lia).
  split; [|lia].
  unfold SFdiv_core_binary.
  change (Zdigits2 4503599627370496) with 53.
  cbn [Zdigits2].
  replace (Z.min (SpecFloat.fexp prec emax (Zpos (digits2_pos m) + e - (53 + -51)))
                 (e - -51)) with e'
    by (unfold e', SpecFloat.fexp, SpecFloat.emin, prec, emax; lia).
  replace (e - -51 - e') with (e + 51 - e') by lia.
  destruct (e + 51 - e') as [|k|k] eqn:Hk; try lia.
  rewrite Z.shiftl_mul_pow2 by lia.
  rewrite div_eucl_div_mod.
  change (Zpos 4503599627370496) with (2 ^ 52). reflexivity.
Qed.

Lemma new_location_two_exact : new_location 4503599627370496 0 = loc_Exact.
Proof. reflexivity. Qed.

(** A normal number is halved exactly; at the lowest exponent the half is
    rounded, and stays between the two integers around it. *)
Lemma SFdiv_two_units (x : spec_float) :
  SpecFloat.valid_binary prec emax x = true ->
  sf_number x = true ->
  sf_number (SFdiv prec emax x sf_two) = true /\
  sf_units (-1074) x / 2 <= sf_units (-1074) (SFdiv prec emax x sf_two)
    <= (sf_units (-1074) x + 1) / 2.
Proof.
  intros Hv Hx. destruct x as [s| | |s m e]; try discriminate Hx.
  { split; [reflexivity | split; vm_compute; discriminate]. }
  cbn [SpecFloat.valid_binary] in Hv.
  pose proof Hv as [Hc Hb]%bounded_canonical.
  pose proof Hc as Hfe%canonical_fexp.
  pose proof (canonical_digits prec emax m e Hc) as (Hd & Hemin & Hdeq).
  unfold SpecFloat.emin, prec, emax in Hd, Hemin, Hdeq, Hb.
  unfold SpecFloat.fexp, SpecFloat.emin, prec, emax in Hfe.
  assert (Hpr : 0 < prec) by reflexivity.
  cbn [SFdiv sf_two]. rewrite xorb_false_r.
  destruct (SFdiv_core_two m e Hv) as [-> Hs].
  set (d := Zpos (digits2_pos m)) in *.
  set (e' := Z.max (d + e - 55) (-1074)) in *.
  set (q := Zpos m * 2 ^ (e + 51 - e') / 2 ^ 52).
  set (r := (Zpos m * 2 ^ (e + 51 - e')) mod 2 ^ 52).
  set (l := new_location 4503599627370496 r).
  assert (He : e' <= SpecFloat.fexp prec emax (Zdigits2 q + e')).
  { destruct (Z.eq_dec e' (-1074)) as [->|Hne].
    { pose proof (fexp_emin prec emax (Zdigits2 q + -1074)) as Hfm.
      unfold SpecFloat.emin, prec, emax in Hfm. exact Hfm. }
    assert (Hd53 : d = 53) by lia.
    assert (Hq : q = Zpos m * 2 ^ 1).
    { unfold q. replace (e + 51 - e') with (1 + 52) by lia.
      rewrite Z.pow_add_r, Z.mul_assoc by lia. apply Z.div_mul. lia. }
    rewrite Hq, Zdigits2_mul_pow2 by lia. cbn [Zdigits2]. fold d.
    unfold SpecFloat.fexp, SpecFloat.emin, prec, emax. lia. }
  assert (Hq0 : 0 <= q).
  { unfold q. apply Z.div_pos; [|lia].
    assert (0 < 2 ^ (e + 51 - e')) by (apply Z.pow_pos_nonneg; lia). lia. }
  destruct (Z_lt_le_dec (-1074) e) as [Hnormal | Hsub].
  - (* a normal number: the half is (m, e-1) *)
    assert (Hd53 : d = 53) by lia.
    assert (Hq : q = Zpos m * 2 ^ (e - 1 - e')).
    { unfold q. replace (e + 51 - e') with ((e - 1 - e') + 52) by lia.
      rewrite Z.pow_add_r, Z.mul_assoc by lia. apply Z.div_mul. lia. }
    assert (Hr : r = 0).
    { unfold r. replace (e + 51 - e') with ((e - 1 - e') + 52) by lia.
      rewrite Z.pow_add_r, Z.mul_assoc by lia. apply Z.mod_mul. lia. }
    assert (Hl : l = loc_Exact) by (unfold l; rewrite Hr; reflexivity).
    assert (Hcy : canonical_mantissa prec emax m (e - 1) = true).
    { unfold canonical_mantissa. apply Z.eqb_eq. fold d.
      unfold SpecFloat.fexp, SpecFloat.emin, prec, emax. lia. }
    assert (Hby : bounded prec emax m (e - 1) = true).
    { unfold bounded. rewrite Hcy. apply Z.leb_le.
      unfold prec, emax. lia. }
    destruct (round_aux_lower prec emax Hpr s q e' l m (e - 1) Hcy
                ltac:(lia) He ltac:(lia))
      as [Hinf | (m3 & e3 & Hfin & Hlo)];
      destruct (round_aux_upper prec emax Hpr s q e' l m (e - 1) Hby Hq0
                  ltac:(lia) He ltac:(rewrite Hl; lia))
        as [Hzero | (m3' & e3' & Hfin' & _ & Hup)];
      try congruence.
    rewrite Hfin in Hfin'. injection Hfin' as <- <-.
    assert (He3 : e3 = e - 1) by lia.
    assert (Hm3 : m3 = m).
    { apply Pos.le_antisym; [destruct Hup | destruct Hlo]; lia. }
    subst e3 m3. rewrite Hfin. split; [reflexivity|].
    cbn [sf_units].
    replace (e - -1074) with (Z.succ (e - 1 - -1074)) by lia.
    rewrite Z.pow_succ_r by lia.
    set (u := 2 ^ (e - 1 - -1074)).
    assert (0 < u) by (apply Z.pow_pos_nonneg; lia).
    destruct s; cbn [cond_Zopp];
      replace (Zpos m * (2 * u)) with (2 * (Zpos m * u)) by lia;
      set (v := Zpos m * u); clearbody v;
      split; Z.div_mod_to_equations; lia.
  - (* the lowest exponent: the half is rounded *)
    assert (Hee : e = -1074) by lia. subst e.
    assert (He'e : e' = -1074) by (unfold e'; lia).
    assert (Hq : q = Zpos m / 2).
    { unfold q. rewrite He'e. change (-1074 + 51 - -1074) with 51.
      change (2 ^ 52) with (2 * 2 ^ 51).
      apply Z.div_mul_cancel_r; lia. }
    assert (Hr : Z.even (Zpos m) = true -> l = loc_Exact).
    { intros [k Hk]%Z.even_spec. unfold l.
      replace r with 0; [reflexivity|]. unfold r. rewrite He'e, Hk.
      change (-1074 + 51 - -1074) with 51.
      replace (2 * k * 2 ^ 51) with (k * 2 ^ 52)
        by (change (2 ^ 52) with (2 * 2 ^ 51); lia).
      symmetry. apply Z.mod_mul. lia. }
    rewrite He'e in *.
    pose proof (digits2_pos_bounds m) as [_ Hm53]. fold d in Hm53.
    assert (Hm53' : Zpos m < 2 ^ 53).
    { eapply Z.lt_le_trans; [exact Hm53|]. apply Z.pow_le_mono_r; lia. }
    set (qu := (Zpos m + 1) / 2).
    assert (Hqu : 1 <= qu <= Zpos m)
      by (unfold qu; split; Z.div_mod_to_equations; lia).
    assert (Hcan : forall k : positive, Zpos k <= Zpos m ->
              bounded prec emax k (-1074) = true).
    { intros k Hk. unfold bounded, canonical_mantissa.
      apply andb_true_iff. split; [apply Z.eqb_eq | reflexivity].
      assert (Zpos (digits2_pos k) <= 53).
      { apply (Zdigits2_lt_pow2 (Zpos k)); lia. }
      unfold SpecFloat.fexp, SpecFloat.emin, prec, emax. lia. }
    assert (Hqm : q <= Zpos m) by (rewrite Hq; Z.div_mod_to_equations; lia).
    assert (Hcq : q <> 0 ->
              canonical_mantissa prec emax (Z.to_pos q) (-1074) = true).
    { intros Hqne. apply (bounded_canonical prec emax), Hcan.
      rewrite Z2Pos.id; lia. }
    assert (Hlower : q <> 0 ->
              binary_round_aux prec emax s q (-1074) l = S754_infinity s \/
              exists m3 e3,
                binary_round_aux prec emax s q (-1074) l = S754_finite s m3 e3 /\
                (-1074 < e3 \/ (e3 = -1074 /\ (Z.to_pos q <= m3)%positive))).
    { intros Hqne.
      apply (round_aux_lower prec emax Hpr s q (-1074) l (Z.to_pos q) (-1074));
        [exact (Hcq Hqne) | lia | exact He |].
      rewrite Z2Pos.id, Z.sub_diag by lia. lia. }
    destruct (round_aux_upper prec emax Hpr s q (-1074) l (Z.to_pos qu) (-1074)
                ltac:(apply Hcan; rewrite Z2Pos.id; lia) Hq0
                ltac:(lia) He) as [Hzero | (m3 & e3 & Hfin & Hemin3 & Hup)].
    { rewrite Z2Pos.id, Z.sub_diag, Z.mul_1_r by lia.
      destruct (Z.even (Zpos m)) eqn:Hev.
      - rewrite (Hr eq_refl). unfold qu. rewrite Hq.
        Z.div_mod_to_equations; lia.
      - assert (q + 1 <= qu).
        { unfold qu. rewrite Hq.
          rewrite <- Z.negb_odd in Hev. apply negb_false_iff in Hev.
          apply Z.odd_spec in Hev as [k Hk]. rewrite Hk.
          Z.div_mod_to_equations; lia. }
        destruct l as [|[]]; lia. }
    + (* rounded to zero: only the smallest number does that *)
      rewrite Hzero. split; [reflexivity|]. cbn [sf_units].
      destruct (Z.eq_dec q 0) as [Hq00|Hqne].
      * rewrite Z.sub_diag, Z.mul_1_r.
        destruct s; cbn [cond_Zopp]; split; Z.div_mod_to_equations; lia.
      * exfalso.
        destruct (Hlower Hqne) as [Hinf | (m3 & e3 & Hfin & _)]; congruence.
    + rewrite Hfin. split; [reflexivity|].
      unfold SpecFloat.emin, prec, emax in Hemin3.
      assert (He3 : e3 = -1074) by lia. subst e3.
      assert (Hm3u : Zpos m3 <= qu).
      { destruct Hup as [|[_ Hm]]; [lia|].
        apply Pos2Z.pos_le_pos in Hm. rewrite Z2Pos.id in Hm; lia. }
      assert (Hm3l : q <= Zpos m3).
      { destruct (Z.eq_dec q 0) as [Hq00|Hqne]; [lia|].
        destruct (Hlower Hqne) as [Hinf | (m3' & e3' & Hfin' & Hlo)];
          [congruence|].
        rewrite Hfin in Hfin'. injection Hfin' as <- <-.
        destruct Hlo as [|[_ Hm]]; [lia|].
        apply Pos2Z.pos_le_pos in Hm. rewrite Z2Pos.id in Hm; lia. }
      cbn [sf_units]. rewrite Z.sub_diag, !Z.mul_1_r.
      unfold qu in Hm3u. rewrite Hq in Hm3l.
      destruct s; cbn [cond_Zopp]; split; Z.div_mod_to_equations; lia.
Qed.

(** Halving keeps the order. *)
Lemma SFdiv_two_mono (x y : spec_float) :
  SpecFloat.valid_binary prec emax x = true ->
  SpecFloat.valid_binary prec emax y = true ->
  sf_number x = true -> sf_number y = true ->
  sf_units (-1074) x <= sf_units (-1074) y ->
  sf_units (-1074) (SFdiv prec emax x sf_two)
    <= sf_units (-1074) (SFdiv prec emax y sf_two).
Proof.
  intros Hvx Hvy Hx Hy Hle.
  destruct (SFdiv_two_units x Hvx Hx) as [_ [Hxl Hxu]].
  destruct (SFdiv_two_units y Hvy Hy) as [_ [Hyl Hyu]].
  destruct (Z.eq_dec (sf_units (-1074) x) (sf_units (-1074) y)) as [Heq|Hne].
  - destruct (sf_units_inj prec emax ltac:(reflexivity) x y Hvx Hvy Hx Hy Heq)
      as [-> | [H0x H0y]]; [lia|].
    change (SpecFloat.emin prec emax) with (-1074) in H0x, H0y.
    rewrite H0x in Hxl, Hxu. rewrite H0y in Hyl, Hyu.
    change (0 / 2) with 0 in *. change ((0 + 1) / 2) with 0 in *. lia.
  - Z.div_mod_to_equations. lia.
Qed.

(** ** The mirror image: adding a non-positive number never raises the sum *)

Section RoundDown.
Variables prec emax : Z.
Hypothesis Hprec : 0 < prec.
Hypothesis Hemax : prec < emax.


Lemma binary_round_nonpos (m : positive) (e : Z) :
  sf_nonpos (binary_round prec emax true m e) = true.
Proof.
  destruct (binary_round_shape prec emax true m e)
    as [-> | [(m3 & e3 & ->) | ->]]; reflexivity.
Qed.

Lemma SFadd_nonpos_le (x p : spec_float) :
  SpecFloat.valid_binary prec emax x = true ->
  SpecFloat.valid_binary prec emax p = true ->
  sf_below x = true ->
  sf_nonpos p = true ->
  SFleb (SFadd prec emax x p) x = true /\
  sf_below (SFadd prec emax x p) = true.
Proof using Hprec.
  intros Hvx Hvp Hx Hp.
  destruct x as [sx|[|]| |sx mx ex]; try discriminate Hx;
    destruct p as [sp|[|]| |[|] mp ep]; try discriminate Hp;
    try (split; reflexivity);
    try (destruct sx; split; reflexivity);
    try (destruct sx, sp; split; reflexivity).
  - (* finite + zero *)
    cbn [SFadd]. split; [apply SFleb_refl; discriminate | reflexivity].
  - (* finite + finite *)
    cbn [SpecFloat.valid_binary] in Hvx, Hvp.
    cbn [SFadd].
    set (ez := Z.min ex ep).
    destruct (shl_align_spec mx ex ez) as [HX _].
    destruct (shl_align_spec mp ep ez) as [HP _].
    replace (Z.min ex ez) with ez in HX by lia.
    replace (Z.min ep ez) with ez in HP by lia.
    set (X := Zpos (fst (shl_align mx ex ez))) in *.
    set (P := Zpos (fst (shl_align mp ep ez))) in *.
    assert (H2x : 0 < 2 ^ (ex - ez)) by (apply Z.pow_pos_nonneg; lia).
    assert (H2p : 0 < 2 ^ (ep - ez)) by (apply Z.pow_pos_nonneg; lia).
    assert (HPpos : 0 < P) by (rewrite HP; nia).
    assert (HXpos : 0 < X) by (rewrite HX; nia).
    clearbody X P.
    destruct sx; cbn [cond_Zopp].
    + (* a negative number *)
      destruct (- X + - P) as [|M|M] eqn:EM; try lia; cbn [binary_normalize].
      apply bounded_canonical in Hvx as [Hcx _].
      destruct (binary_round_lower prec emax Hprec true M ez mx ex Hcx
                  ltac:(lia)) as [-> | (m3 & e3 & -> & Hlex)].
      * rewrite <- HX. lia.
      * split; reflexivity.
      * split; [apply SFleb_neg | reflexivity].
        destruct Hlex as [Hlt | [-> Hle]]; [left; exact Hlt | right; easy].
    + (* a positive number *)
      destruct (X + - P) as [|M|M] eqn:EM; cbn [binary_normalize].
      * split; reflexivity.
      * destruct (binary_round_upper prec emax Hprec false M ez mx ex Hvx
                    ltac:(lia)) as [-> | (m3 & e3 & -> & _ & Hlex)].
        -- rewrite <- HX. lia.
        -- split; reflexivity.
        -- split; [apply SFleb_pos | reflexivity].
           destruct Hlex as [Hlt | [-> Hle]]; [left; exact Hlt | right; easy].
      * destruct (binary_round_shape prec emax true M ez)
          as [-> | [(m3 & e3 & ->) | ->]]; split; reflexivity.
Qed.

Lemma SFmul_nonpos (p : spec_float) (mc : positive) (ec : Z) :
  sf_nonpos p = true ->
  sf_nonpos (SFmul prec emax p (S754_finite false mc ec)) = true.
Proof.
  destruct p as [s|[|]| |[|] m e]; try discriminate; intros _; try reflexivity.
  cbn [SFmul xorb].
  destruct (round_aux_shape prec emax true (Zpos (m * mc)) (e + ec) loc_Exact)
    as [-> | [(m3 & e3 & ->) | ->]]; [lia | reflexivity..].
Qed.

Lemma SFdiv_nonpos (p : spec_float) (mc : positive) (ec : Z) :
  sf_nonpos p = true ->
  sf_nonpos (SFdiv prec emax p (S754_finite false mc ec)) = true.
Proof.
  destruct p as [s|[|]| |[|] m e]; try discriminate; intros _; try reflexivity.
  cbn [SFdiv xorb].
  pose proof (SFdiv_core_nonneg prec emax m mc e ec) as Hq.
  destruct (SFdiv_core_binary prec emax (Zpos m) e (Zpos mc) ec) as [[mz ez] lz].
  cbn [fst] in Hq.
  destruct (round_aux_shape prec emax true mz ez lz Hq)
    as [-> | [(m3 & e3 & ->) | ->]]; reflexivity.
Qed.

Lemma SFsub_nonpos (a b : spec_float) :
  SpecFloat.valid_binary prec emax a = true ->
  SpecFloat.valid_binary prec emax b = true ->
  sf_number a = true -> sf_number b = true ->
  sf_units (SpecFloat.emin prec emax) a <= sf_units (SpecFloat.emin prec emax) b ->
  sf_nonpos (SFsub prec emax a b) = true.
Proof using Hprec.
  intros Hva Hvb Ha Hb Hle.
  destruct a as [sa| | |sa ma ea]; try discriminate Ha;
    destruct b as [sb| | |sb mb eb]; try discriminate Hb;
    cbn [sf_units SpecFloat.valid_binary] in *.
  - now destruct sa, sb.
  - apply bounded_canonical in Hvb as [(_ & He & _)%canonical_digits _].
    assert (0 < 2 ^ (eb - (SpecFloat.emin prec emax))) by (apply Z.pow_pos_nonneg; lia).
    destruct sb; [|reflexivity]. cbn [cond_Zopp] in Hle. nia.
  - apply bounded_canonical in Hva as [(_ & He & _)%canonical_digits _].
    assert (0 < 2 ^ (ea - (SpecFloat.emin prec emax))) by (apply Z.pow_pos_nonneg; lia).
    destruct sa; [reflexivity|]. cbn [cond_Zopp] in Hle. nia.
  - apply bounded_canonical in Hva as [(_ & Hea & _)%canonical_digits _].
    apply bounded_canonical in Hvb as [(_ & Heb & _)%canonical_digits _].
    cbn [SFsub].
    set (ez := Z.min ea eb).
    destruct (shl_align_spec ma ea ez) as [HA _].
    destruct (shl_align_spec mb eb ez) as [HB _].
    replace (Z.min ea ez) with ez in HA by lia.
    replace (Z.min eb ez) with ez in HB by lia.
    set (A := Zpos (fst (shl_align ma ea ez))) in *.
    set (B := Zpos (fst (shl_align mb eb ez))) in *.
    clearbody A B.
    assert (Hz : 0 < 2 ^ (ez - (SpecFloat.emin prec emax))) by (apply Z.pow_pos_nonneg; lia).
    assert (HA' : Zpos ma * 2 ^ (ea - (SpecFloat.emin prec emax)) = A * 2 ^ (ez - (SpecFloat.emin prec emax))).
    { rewrite HA, <- Z.mul_assoc, <- Z.pow_add_r by lia. do 2 f_equal. lia. }
    assert (HB' : Zpos mb * 2 ^ (eb - (SpecFloat.emin prec emax)) = B * 2 ^ (ez - (SpecFloat.emin prec emax))).
    { rewrite HB, <- Z.mul_assoc, <- Z.pow_add_r by lia. do 2 f_equal. lia. }
    rewrite HA', HB' in Hle.
    assert (Hdiff : cond_Zopp sa A - cond_Zopp sb B <= 0).
    { destruct sa, sb; cbn [cond_Zopp] in *; nia. }
    destruct (cond_Zopp sa A - cond_Zopp sb B) as [|M|M]; try lia;
      cbn [binary_normalize]; [reflexivity|].
    apply binary_round_nonpos.
Qed.
End RoundDown.

(** ** The colour ramp *)

(** Seven passes exhaust the loop whatever the numbers are: the state after
    them does not depend on the fuel left over. *)
Lemma ramp_loop_runs {R : Type} {F : PyFloat R} (per t0 : R) (fuel : nat) :
  (7 <= fuel)%nat ->
  while_loop ramp_cond (ramp_body per) fuel (RampState 0 t0 []) =
  while_loop ramp_cond (ramp_body per) 7 (RampState 0 t0 []).
Proof.
  intros Hfuel.
  do 7 (destruct fuel as [|fuel]; [lia|]).
  destruct fuel; reflexivity.
Qed.

Lemma getMdeColorValues_fuel {R : Type} {F : PyFloat R} (mn mx : R) (fuel : nat) :
  (7 <= fuel)%nat -> getMdeColorValues fuel mn mx = getMdeColorValues 7 mn mx.
Proof.
  intros Hfuel. unfold getMdeColorValues.
  now rewrite (ramp_loop_runs _ _ fuel Hfuel).
Qed.

(** Unless a percentile is nan, the ramp has seven values and starts at
    [trimmedMin]; this holds for any arithmetic. *)
Lemma getMdeColorValues_shape {R : Type} {F : PyFloat R} (mn mx : R) (fuel : nat) :
  (7 <= fuel)%nat ->
  isnan mx || isnan mn = false ->
  exists l, getMdeColorValues fuel mn mx = Some (Ok l) /\
            length l = 7%nat /\ head l = Some mn.
Proof.
  intros Hfuel Hnan. rewrite (getMdeColorValues_fuel _ _ _ Hfuel).
  unfold getMdeColorValues. rewrite Hnan.
  eexists. split; [reflexivity|]. split; reflexivity.
Qed.

(** The loop unrolled: the running value after each pass, for any
    arithmetic. *)
Lemma ramp_loop_unrolled {R : Type} {F : PyFloat R} (per t0 : R) :
  let t1 := fadd t0 per in
  let t2 := fadd (fadd t1 per) per in
  let t3 := fadd t2 per in
  let t4 := fadd (fadd t3 per) (fmul per (of_int 3)) in
  let t5 := fadd (fadd t4 per) (fmul per (of_int 2)) in
  let t6 := fadd (fadd t5 per) (fmul per (of_int 2)) in
  while_loop ramp_cond (ramp_body per) 7 (RampState 0 t0 []) =
  Some (RampState 7 (fadd t6 per) [t0; t1; t2; t3; t4; t5; t6]).
Proof. reflexivity. Qed.

Lemma ramp_per_step (mn mx : Q) : (ramp_per mn mx == ramp_step mn mx)%Q.
Proof.
  unfold ramp_per, ramp_step. cbn [fdiv fsub of_int exactQ]. reflexivity.
Qed.

(** In exact arithmetic the seven values are the listed multiples. *)
Lemma ramp_exact (mn mx : Q) :
  exists l, getMdeColorValues 7 mn mx = Some (Ok l) /\
            Forall2 Qeq l (ramp_points mn mx).
Proof.
  unfold getMdeColorValues. cbn [isnan exactQ orb].
  rewrite ramp_loop_unrolled. cbn [colorValues].
  eexists. split; [reflexivity|].
  unfold ramp_points, ramp_multiples. cbn [map].
  rewrite <- (ramp_per_step mn mx).
  generalize (ramp_per mn mx). intros per.
  repeat (constructor; [cbn [fadd fmul of_int exactQ]; ring|]).
  constructor.
Qed.

(** In binary64 the seven values are the running sums. *)
Lemma ramp_running64 (mn mx : float) :
  PrimFloat.is_nan mx || PrimFloat.is_nan mn = false ->
  getMdeColorValues 7 mn mx =
  Some (Ok (running_sums64 mn (ramp_addends64 (ramp_step64 mn mx)))).
Proof.
  intros Hnan. unfold getMdeColorValues. cbn [isnan binary64].
  rewrite Hnan. rewrite ramp_loop_unrolled. reflexivity.
Qed.

(** For the percentiles 0 and 1 the binary64 breakpoints 5 and 6 are not
    [11 * step] and [14 * step]: the running sums have rounded. *)
Lemma ramp_offsets_binary64 :
  exists l x5 y5 x6 y6,
    getMdeColorValues 7 0%float 1%float = Some (Ok l) /\
    l !! 5%nat = Some x5 /\ ramp_points64 0 1 !! 5%nat = Some y5 /\
    PrimFloat.eqb x5 y5 = false /\
    l !! 6%nat = Some x6 /\ ramp_points64 0 1 !! 6%nat = Some y6 /\
    PrimFloat.eqb x6 y6 = false.
Proof.
  do 5 eexists. split; [vm_compute; reflexivity|].
  repeat split; vm_compute; reflexivity.
Qed.

(** [C1] From the two percentiles the ramp computation returns exactly seven
    breakpoints.  In exact arithmetic they are [trimmedMin + k * step] for
    [k] = 0, 1, 3, 4, 8, 11, 14 with
    [step = ((trimmedMax/2) - (trimmedMin/2)) / 7].  In binary64 they are
    the running sums the loop accumulates, each addition rounded (unless a
    percentile is nan, which raises); for the percentiles 0 and 14 these are
    [0, 1, 3, 4, 8, 11, 14] to the bit. *)
Theorem getMdeColorValues_offsets (fuel : nat) :
  (7 <= fuel)%nat ->
  (forall trimmedMin trimmedMax : Q,
     exists l, getMdeColorValues fuel trimmedMin trimmedMax = Some (Ok l) /\
               length l = 7%nat /\
               Forall2 Qeq l (ramp_points trimmedMin trimmedMax)) /\
  (forall trimmedMin trimmedMax : float,
     PrimFloat.is_nan trimmedMax || PrimFloat.is_nan trimmedMin = false ->
     exists l, getMdeColorValues fuel trimmedMin trimmedMax = Some (Ok l) /\
               length l = 7%nat /\
               l = running_sums64 trimmedMin
                     (ramp_addends64 (ramp_step64 trimmedMin trimmedMax))) /\
  getMdeColorValues fuel 0%float 14%float =
    Some (Ok [0; 1; 3; 4; 8; 11; 14]%float).
Proof.
  intros Hfuel. split; [|split].
  - intros mn mx. rewrite (getMdeColorValues_fuel _ _ _ Hfuel).
    destruct (ramp_exact mn mx) as (l & Hl & Hpts).
    exists l. split; [exact Hl|]. split; [|exact Hpts].
    apply Forall2_length in Hpts. rewrite Hpts. reflexivity.
  - intros mn mx Hnan. rewrite (getMdeColorValues_fuel _ _ _ Hfuel).
    rewrite (ramp_running64 mn mx Hnan).
    eexists. split; [reflexivity|]. split; reflexivity.
  - rewrite (getMdeColorValues_fuel _ _ _ Hfuel). vm_compute. reflexivity.
Qed.

Lemma getMdeColorValues_offsets_witness :
  (7 <= 7)%nat /\
  (exists l, getMdeColorValues 7 0%Q 14%Q = Some (Ok l) /\
             Forall2 Qeq l (ramp_points 0 14)) /\
  (exists l, getMdeColorValues 7 0%float 1%float = Some (Ok l) /\
             l = running_sums64 0 (ramp_addends64 (ramp_step64 0 1))) /\
  getMdeColorValues 7 0%float 14%float = Some (Ok [0; 1; 3; 4; 8; 11; 14]%float).
Proof.
  split; [lia|].
  destruct (getMdeColorValues_offsets 7 (le_n 7)) as (Hq & Hr & Hf).
  split; [|split; [|exact Hf]].
  - destruct (Hq 0%Q 14%Q) as (l & Hl & _ & Hpts).
    exists l. split; [exact Hl | exact Hpts].
  - destruct (Hr 0%float 1%float eq_refl) as (l & Hl & _ & Hsum).
    exists l. split; [exact Hl | exact Hsum].
Defined.

(** With [trimmedMin <= trimmedMax] the step is not negative. *)
Lemma ramp_per_nonneg (mn mx : Q) : (mn <= mx)%Q -> (0 <= ramp_per mn mx)%Q.
Proof.
  intros Hle. unfold ramp_per. cbn [fdiv fsub of_int exactQ].
  assert (E : ((mx / inject_Z 2 - mn / inject_Z 2) / inject_Z 7
               == (mx - mn) * (1 # 14))%Q) by (unfold inject_Z; field).
  rewrite E. apply Qmult_le_0_compat; [lra | discriminate].
Qed.

(** Fourteen steps lead from [trimmedMin] to [trimmedMax]. *)
Lemma ramp_per_span (mn mx : Q) :
  (mn + inject_Z 14 * ramp_per mn mx == mx)%Q.
Proof.
  unfold ramp_per. cbn [fdiv fsub of_int exactQ]. unfold inject_Z. field.
Qed.

(** The binary64 run on the percentiles 0 and 1 ends just below 1: every
    [+=] rounds, and the last breakpoint is 0.99999999999999978. *)
Lemma ramp_last_binary64 :
  PrimFloat.leb 0 1 = true /\
  exists l x, getMdeColorValues 7 0%float 1%float = Some (Ok l) /\
              last l = Some x /\ PrimFloat.eqb x 1 = false.
Proof.
  split; [reflexivity|].
  eexists; eexists. split; [vm_compute; reflexivity|].
  split; [reflexivity|]. vm_compute. reflexivity.
Qed.

(** ** From the specification to the primitive binary64 numbers *)

Lemma is_finite_number (x : float) :
  PrimFloat.is_finite x = true -> sf_number (Prim2SF x) = true.
Proof.
  unfold PrimFloat.is_finite, PrimFloat.is_nan, PrimFloat.is_infinity.
  rewrite !FloatAxioms.eqb_spec, FloatAxioms.abs_spec.
  change (Prim2SF infinity) with (S754_infinity false).
  destruct (Prim2SF x) as [s|s| |s m e]; try reflexivity.
  - destruct s; discriminate.
  - discriminate.
Qed.

Lemma is_finite_not_nan (x : float) :
  PrimFloat.is_finite x = true -> PrimFloat.is_nan x = false.
Proof.
  unfold PrimFloat.is_finite. now destruct (PrimFloat.is_nan x).
Qed.

Lemma sf_number_above (x : spec_float) :
  sf_number x = true -> sf_above x = true.
Proof. now destruct x. Qed.

Lemma float_add_ge (x p : float) :
  sf_above (Prim2SF x) = true ->
  sf_nonneg (Prim2SF p) = true ->
  (x <=? x + p)%float = true /\ sf_above (Prim2SF (x + p)) = true.
Proof.
  intros Hx Hp. rewrite FloatAxioms.leb_spec, FloatAxioms.add_spec.
  apply (SFadd_nonneg_ge prec emax); try assumption;
    first [reflexivity | apply Prim2SF_valid].
Qed.

Lemma float_leb_trans (x y z : float) :
  (x <=? y)%float = true -> (y <=? z)%float = true -> (x <=? z)%float = true.
Proof. rewrite !FloatAxioms.leb_spec. apply SFleb_trans. Qed.

Lemma float_add2_ge (x p q : float) :
  sf_above (Prim2SF x) = true ->
  sf_nonneg (Prim2SF p) = true ->
  sf_nonneg (Prim2SF q) = true ->
  (x <=? x + p + q)%float = true /\ sf_above (Prim2SF (x + p + q)) = true.
Proof.
  intros Hx Hp Hq.
  destruct (float_add_ge x p Hx Hp) as [H1 Hxp].
  destruct (float_add_ge (x + p) q Hxp Hq) as [H2 Hxpq].
  split; [exact (float_leb_trans _ _ _ H1 H2) | exact Hxpq].
Qed.

(** For finite percentiles in order, the step and its multiples are not
    negative. *)
Lemma ramp_per_sign (mn mx : float) :
  PrimFloat.is_finite mn = true ->
  PrimFloat.is_finite mx = true ->
  (mn <=? mx)%float = true ->
  let per := ramp_per mn mx in
  sf_nonneg (Prim2SF per) = true /\
  sf_nonneg (Prim2SF (per * float_of_int 3)) = true /\
  sf_nonneg (Prim2SF (per * float_of_int 2)) = true.
Proof.
  intros Hmn%is_finite_number Hmx%is_finite_number Hle per.
  rewrite FloatAxioms.leb_spec in Hle.
  pose proof (SFleb_units prec emax ltac:(reflexivity) _ _
                (Prim2SF_valid mn) (Prim2SF_valid mx) Hmn Hmx Hle) as Hu.
  change (SpecFloat.emin prec emax) with (-1074) in Hu.
  destruct (SFdiv_two_units _ (Prim2SF_valid mn) Hmn) as [Hnb _].
  destruct (SFdiv_two_units _ (Prim2SF_valid mx) Hmx) as [Hna _].
  pose proof (SFdiv_two_mono _ _ (Prim2SF_valid mn) (Prim2SF_valid mx)
                Hmn Hmx Hu) as Hhalf.
  assert (Hper : sf_nonneg (Prim2SF per) = true).
  { unfold per, ramp_per. cbn [fdiv fsub of_int binary64].
    rewrite FloatAxioms.div_spec, FloatAxioms.sub_spec, !FloatAxioms.div_spec.
    change (Prim2SF (float_of_int 2)) with sf_two.
    change (Prim2SF (float_of_int 7))
      with (S754_finite false 7881299347898368 (-50)).
    apply (SFdiv_nonneg prec emax).
    assert (Hva : SpecFloat.valid_binary prec emax
                    (SFdiv prec emax (Prim2SF mx) sf_two) = true).
    { change sf_two with (Prim2SF (float_of_int 2)).
      rewrite <- FloatAxioms.div_spec. apply Prim2SF_valid. }
    assert (Hvb : SpecFloat.valid_binary prec emax
                    (SFdiv prec emax (Prim2SF mn) sf_two) = true).
    { change sf_two with (Prim2SF (float_of_int 2)).
      rewrite <- FloatAxioms.div_spec. apply Prim2SF_valid. }
    apply (SFsub_nonneg prec emax ltac:(reflexivity));
      first [assumption | exact Hhalf]. }
  split; [exact Hper|]. split.
  - rewrite FloatAxioms.mul_spec.
    change (Prim2SF (float_of_int 3))
      with (S754_finite false 6755399441055744 (-51)).
    now apply (SFmul_nonneg prec emax).
  - rewrite FloatAxioms.mul_spec.
    change (Prim2SF (float_of_int 2)) with sf_two.
    now apply (SFmul_nonneg prec emax).
Qed.

(** In binary64, for finite percentiles in order, the breakpoints never
    go down. *)
Lemma ramp_sorted_binary64 (fuel : nat) (mn mx : float) :
  (7 <= fuel)%nat ->
  PrimFloat.is_finite mn = true ->
  PrimFloat.is_finite mx = true ->
  (mn <=? mx)%float = true ->
  exists l,
    getMdeColorValues fuel mn mx = Some (Ok l) /\
    length l = 7%nat /\
    head l = Some mn /\
    Sorted (fun x y => (x <=? y)%float = true) l.
Proof.
  intros Hfuel Hfmn Hfmx Hle.
  destruct (ramp_per_sign mn mx Hfmn Hfmx Hle) as (Hp & Hp3 & Hp2).
  rewrite (getMdeColorValues_fuel _ _ _ Hfuel).
  unfold getMdeColorValues. cbn [isnan binary64].
  rewrite (is_finite_not_nan _ Hfmn), (is_finite_not_nan _ Hfmx).
  cbn [orb]. rewrite ramp_loop_unrolled. cbn [colorValues].
  cbn [fadd fmul of_int binary64].
  set (per := ramp_per mn mx) in *.
  eexists. split; [reflexivity|]. split; [reflexivity|].
  split; [reflexivity|].
  pose proof (sf_number_above _ (is_finite_number _ Hfmn)) as H0.
  destruct (float_add_ge mn per H0 Hp) as [L1 H1].
  destruct (float_add2_ge _ per per H1 Hp Hp) as [L2 H2].
  destruct (float_add_ge _ per H2 Hp) as [L3 H3].
  destruct (float_add2_ge _ per _ H3 Hp Hp3) as [L4 H4].
  destruct (float_add2_ge _ per _ H4 Hp Hp2) as [L5 H5].
  destruct (float_add2_ge _ per _ H5 Hp Hp2) as [L6 H6].
  repeat (constructor; [|try (constructor; assumption)]). constructor.
Qed.

(** Finiteness is needed: from minus infinity the step is plus infinity and
    the second breakpoint is nan, which no comparison orders. *)
Lemma ramp_infinite_binary64 :
  (neg_infinity <=? 0)%float = true /\
  PrimFloat.is_nan neg_infinity || PrimFloat.is_nan 0 = false /\
  exists l x, getMdeColorValues 7 neg_infinity 0%float = Some (Ok l) /\
              l !! 1%nat = Some x /\ PrimFloat.is_nan x = true.
Proof.
  split; [reflexivity|]. split; [reflexivity|].
  do 2 eexists. split; [vm_compute; reflexivity|]. split; reflexivity.
Qed.

(** [C10] For [trimmedMin <= trimmedMax] the first of the seven breakpoints
    is [trimmedMin] and the breakpoints never go down: in exact arithmetic,
    and in binary64 for finite percentiles.  That the last one is
    [trimmedMax] (fourteen steps span the range) holds in exact
    arithmetic. *)
Theorem ramp_spans_range (fuel : nat) :
  (7 <= fuel)%nat ->
  (forall trimmedMin trimmedMax : Q,
     (trimmedMin <= trimmedMax)%Q ->
     exists l, getMdeColorValues fuel trimmedMin trimmedMax = Some (Ok l) /\
               Sorted Qle l /\
               head l = Some trimmedMin /\
               exists x, last l = Some x /\ (x == trimmedMax)%Q) /\
  (forall trimmedMin trimmedMax : float,
     PrimFloat.is_finite trimmedMin = true ->
     PrimFloat.is_finite trimmedMax = true ->
     (trimmedMin <=? trimmedMax)%float = true ->
     exists l, getMdeColorValues fuel trimmedMin trimmedMax = Some (Ok l) /\
               length l = 7%nat /\
               head l = Some trimmedMin /\
               Sorted (fun x y => (x <=? y)%float = true) l) /\
  (forall trimmedMin trimmedMax : float,
     PrimFloat.is_nan trimmedMax || PrimFloat.is_nan trimmedMin = false ->
     exists l, getMdeColorValues fuel trimmedMin trimmedMax = Some (Ok l) /\
               length l = 7%nat /\ head l = Some trimmedMin).
Proof.
  intros Hfuel. split; [|split].
  - intros mn mx Hle. rewrite (getMdeColorValues_fuel _ _ _ Hfuel).
    pose proof (ramp_per_nonneg mn mx Hle) as Hper.
    pose proof (ramp_per_span mn mx) as Hspan.
    unfold getMdeColorValues. cbn [isnan exactQ orb].
    rewrite ramp_loop_unrolled. cbn [colorValues].
    revert Hper Hspan. generalize (ramp_per mn mx). intros per Hper Hspan.
    eexists. split; [reflexivity|].
    cbn [fadd fmul of_int exactQ]. unfold inject_Z in *.
    split; [|split; [reflexivity|]].
    + repeat (constructor; [|try (constructor; lra)]). constructor.
    + eexists. split; [reflexivity|]. rewrite <- Hspan. ring.
  - intros mn mx Hfmn Hfmx Hle.
    exact (ramp_sorted_binary64 fuel mn mx Hfuel Hfmn Hfmx Hle).
  - intros mn mx Hnan.
    exact (getMdeColorValues_shape (F := binary64) mn mx fuel Hfuel Hnan).
Qed.

Lemma ramp_spans_range_witness :
  (7 <= 7)%nat /\ (0 <= 14)%Q /\
  (exists l, getMdeColorValues 7 0%Q 14%Q = Some (Ok l) /\
             Sorted Qle l /\ head l = Some 0%Q /\
             exists x, last l = Some x /\ (x == 14)%Q) /\
  (exists l, getMdeColorValues 7 0%float 1%float = Some (Ok l) /\
             Sorted (fun x y => (x <=? y)%float = true) l).
Proof.
  split; [lia|]. split; [discriminate|].
  destruct (ramp_spans_range 7 (le_n 7)) as (Hq & Hf & _).
  split; [apply (Hq 0%Q 14%Q); discriminate|].
  destruct (Hf 0%float 1%float eq_refl eq_refl eq_refl) as (l & Hl & _ & _ & Hs).
  exists l. split; [exact Hl | exact Hs].
Defined.

(** ** The gamma expression *)

Lemma byte_values_spec (A : Z) : 0 <= A <= 255 -> In A byte_values.
Proof.
  intros HA. unfold byte_values. apply in_map_iff.
  exists (Z.to_nat A). split; [lia|]. apply in_seq. lia.
Qed.

(** All 256 pixel values, evaluated in binary64. *)
Lemma gamma_hillshade_table :
  forallb (fun A => gamma_hillshade A =? A / 2) byte_values = true.
Proof. vm_compute. reflexivity. Qed.

Lemma gamma_exact_floor (A : Z) : Qfloor (gamma_exact A) = A / 2.
Proof.
  assert (E : (gamma_exact A == inject_Z A * (1 # 2))%Q).
  { unfold gamma_exact. field. }
  rewrite E. unfold Qfloor, Qmult, inject_Z. cbn [Qnum Qden].
  now rewrite Z.mul_1_r.
Qed.

(** At pixel value 3 the expression yields 1, while 3/255 * 0.5 * 255 = 1.5
    rounds to 2 under either reading of rounding to nearest. *)
Lemma gamma_hillshade_not_rounded :
  0 <= 3 <= 255 /\
  gamma_hillshade 3 = 1 /\
  round_half_even (gamma_exact 3) = 2 /\
  round_half_up (gamma_exact 3) = 2.
Proof. repeat split; try lia; vm_compute; reflexivity. Qed.

(** [C4] For every pixel value in [0,255] the gamma expression
    yields the integer part of [input/255 * 0.5 * 255], that is the input
    halved with the fraction dropped. *)
Theorem gamma_hillshade_halves (A : Z) :
  0 <= A <= 255 ->
  gamma_hillshade A = Qfloor (gamma_exact A) /\ gamma_hillshade A = A / 2.
Proof.
  intros HA. rewrite gamma_exact_floor.
  pose proof gamma_hillshade_table as Htable.
  rewrite forallb_forall in Htable.
  specialize (Htable A (byte_values_spec A HA)).
  apply Z.eqb_eq in Htable. split; exact Htable.
Qed.

Lemma gamma_hillshade_halves_witness :
  0 <= 255 <= 255 /\
  gamma_hillshade 255 = Qfloor (gamma_exact 255) /\ gamma_hillshade 255 = 127.
Proof.
  split; [lia|]. apply (gamma_hillshade_halves 255). lia.
Defined.

(** ** Strings and the fallback identity *)

Lemma prefix_dash (c : ascii) (s : string) :
  String.prefix "-" (String c s) = Ascii.eqb c "-"%char.
Proof.
  cbn [String.prefix]. destruct (ascii_dec "-" c) as [<-|Hne].
  - now destruct s.
  - symmetry. apply Ascii.eqb_neq. congruence.
Qed.

Lemma before_first_dash (s : string) :
  before_first "-" s = truncate_at_first_dash s.
Proof.
  induction s as [|c s IH]; [reflexivity|].
  cbn [before_first truncate_at_first_dash].
  rewrite prefix_dash. now rewrite IH.
Qed.

(** The first field of a split is what precedes the first separator. *)
Lemma split_fields_head (sep s : string) :
  exists fs, split_fields sep 0 s = before_first sep s :: fs.
Proof.
  induction s as [|c s [fs IH]]; [now exists []|].
  cbn [split_fields before_first].
  destruct (String.prefix sep (String c s)); [eauto|].
  rewrite IH. eauto.
Qed.

Lemma py_split_head (s sep : string) :
  sep <> "" ->
  rbind (py_split s sep) (fun parts => py_item parts 0) = Ok (before_first sep s).
Proof.
  intros Hsep. unfold py_split.
  destruct sep as [|c sep]; [congruence|].
  destruct (split_fields_head (String c sep) s) as [fs ->]. reflexivity.
Qed.

Lemma cleanFilename_spec (filename : string) :
  cleanFilename filename = Ok (truncate_at_first_dash filename).
Proof.
  unfold cleanFilename. rewrite py_split_head by discriminate.
  now rewrite before_first_dash.
Qed.

Lemma before_first_absent (sep s : string) :
  contains sep s = false -> before_first sep s = s.
Proof.
  induction s as [|c s IH]; [reflexivity|].
  cbn [contains before_first]. intros Hc.
  apply orb_false_iff in Hc as [-> Hc]. now rewrite IH.
Qed.

Lemma hex_digit_is_hex (n : N) : is_hex_digit (hex_digit n) = true.
Proof.
  unfold hex_digit. generalize (N.to_nat n). intros k.
  do 16 (destruct k as [|k]; [reflexivity|]). reflexivity.
Qed.

Lemma token_hex_6 (entropy : nat -> Byte.byte) :
  String.length (token_hex entropy 6) = 12%nat /\
  string_forallb is_hex_digit (token_hex entropy 6) = true.
Proof.
  split; [reflexivity|].
  unfold token_hex, hex_of_byte.
  cbv -[hex_digit is_hex_digit N.div N.modulo Byte.to_N].
  now rewrite !hex_digit_is_hex.
Qed.

(** An elevation raster named [terrain_mde.tif], with the suffix marker
    [_mde]: the registry id is [terrain], not the file name without its
    extension cut at the first dash, which is [terrain_mde]. *)
Lemma registroid_elevation_drops_suffix :
  contains (filename_prefix Sample.params) "terrain_mde.tif" = false /\
  resolve_registroid Sample.nt Sample.params "terrain_mde.tif" true false
    = Ok "terrain" /\
  truncate_at_first_dash (removeExtension Sample.nt "terrain_mde.tif")
    = "terrain_mde".
Proof. repeat split; vm_compute; reflexivity. Qed.

(** ** More on splitting *)

Lemma split_fields_skip (sep : string) (k : nat) (s : string) :
  split_fields sep k s = split_fields sep 0 (string_drop k s).
Proof.
  revert k. induction s as [|c s IH]; intros [|k]; try reflexivity.
  cbn [split_fields string_drop]. apply IH.
Qed.

Lemma split_fields_nonempty (sep : string) (k : nat) (s : string) :
  split_fields sep k s <> [].
Proof.
  revert k. induction s as [|c s IH]; intros k; [discriminate|].
  cbn [split_fields]. destruct k as [|k]; [|apply IH].
  destruct (String.prefix sep (String c s)); [discriminate|].
  specialize (IH 0%nat). now destruct (split_fields sep 0 s).
Qed.

(** Where [sep] occurs, the split is the part before the first occurrence
    followed by the split of the part behind it. *)
Lemma split_fields_occurs (sep s : string) :
  sep <> "" ->
  contains sep s = true ->
  split_fields sep 0 s =
  before_first sep s :: split_fields sep 0 (after_first sep s).
Proof.
  intros Hsep. induction s as [|c s IH]; intros Hin.
  - destruct sep; [congruence | discriminate Hin].
  - cbn [contains] in Hin. cbn [split_fields before_first after_first].
    destruct (String.prefix sep (String c s)) eqn:Hpre.
    + rewrite split_fields_skip. f_equal.
      destruct sep as [|d sep]; [congruence|].
      cbn [String.length string_drop Nat.sub]. now rewrite ?Nat.sub_0_r.
    + cbn [orb] in Hin. now rewrite (IH Hin).
Qed.

Lemma py_split_second (s sep : string) :
  sep <> "" ->
  contains sep s = true ->
  rbind (py_split s sep) (fun a => py_item a 1)
  = Ok (before_first sep (after_first sep s)).
Proof.
  intros Hsep Hin.
  assert (Hs : py_split s sep = Ok (split_fields sep 0 s))
    by (unfold py_split; destruct sep; congruence).
  rewrite Hs. cbn [rbind]. rewrite split_fields_occurs by assumption.
  destruct (split_fields_head sep (after_first sep s)) as [fs ->].
  reflexivity.
Qed.

Lemma py_split_Ok (s sep : string) :
  sep <> "" -> py_split s sep = Ok (split_fields sep 0 s).
Proof. intros Hsep. unfold py_split. destruct sep; congruence. Qed.

Lemma py_split_empty (s : string) : py_split s "" = Raise ValueError.
Proof. reflexivity. Qed.

(** ** The state of one file *)

Section FileState.
Context {lib : PyLib}.
Implicit Types (pf : Platform) (params : Params) (file : string)
  (fd : file_ds_var) (ds : Dataset) (o : Oracle) (self : Self) (w : world).

(** The band [processTifs] reads is the last one. *)
Lemma GetRasterBand_last ds :
  GetRasterBand ds (RasterCount ds) =
  match last (bands ds) with
  | Some b => Ok b
  | None => Raise RuntimeError
  end.
Proof.
  unfold GetRasterBand, RasterCount. rewrite last_lookup.
  destruct (bands ds) as [|b bs]; [reflexivity|].
  cbn [length]. destruct (Z.leb_spec 1 (Z.of_nat (S (length bs)))); [|lia].
  replace (Z.to_nat (Z.of_nat (S (length bs)) - 1)) with (length bs) by lia.
  cbn [Nat.pred]. now destruct ((b :: bs) !! length bs).
Qed.

(** What a successful [file_state] tells about its inputs and result. *)
Lemma file_state_Ok pf params file fd o self :
  file_state pf params file fd o = Ok self ->
  exists ds b v,
    fd = Opened ds /\ last (bands ds) = Some b /\ NoDataValue b = Some v /\
    bandas self = RasterCount ds /\
    tieneCanalAlfa self = (ColorInterpretation b =? 6) /\
    noDataValue self = (if PrimFloat.is_nan v then 0%float else v) /\
    isMDE self = (RasterCount ds <=? 2) /\
    resolve_mapId pf params file (isMDE self)
      (contains (filename_prefix params) file) (entropy o)
      = Ok (mapId self) /\
    resolve_registroid pf params file (isMDE self)
      (contains (filename_prefix params) file) = Ok (registroid self) /\
    AUTHORITY_1 ds = Some (epsg self) /\
    getDate ds = Ok (date self) /\
    extra_metadata self = metadata params.
Proof.
  unfold file_state. intros Hst.
  destruct fd as [| |ds]; try discriminate Hst. cbn [rbind] in Hst.
  rewrite GetRasterBand_last in Hst.
  destruct (last (bands ds)) as [b|] eqn:Hlast; [|discriminate Hst].
  cbn [rbind] in Hst.
  destruct (NoDataValue b) as [v|] eqn:Hnd; [|discriminate Hst].
  cbn [rbind] in Hst.
  destruct (resolve_mapId _ _ _ _ _ _) as [m|] eqn:Hmap; [|discriminate Hst].
  cbn [rbind] in Hst.
  destruct (resolve_registroid _ _ _ _ _) as [r|] eqn:Hreg; [|discriminate Hst].
  cbn [rbind] in Hst.
  destruct (AUTHORITY_1 ds) as [code|] eqn:Hauth; [|discriminate Hst].
  cbn [rbind] in Hst.
  destruct (getDate ds) as [d|] eqn:Hdate; [|discriminate Hst].
  cbn [rbind] in Hst. injection Hst as <-.
  exists ds, b, v. cbn. repeat split; assumption || reflexivity.
Qed.

Lemma process_file_raise pf params file fd o (e : exn) w :
  file_state pf params file fd o = Raise e ->
  process_file pf params file fd o w = (Raise e, w).
Proof. intros Hst. unfold process_file, bind, lift. now rewrite Hst. Qed.

Lemma process_file_Ok pf params file fd o self w w' :
  process_file pf params file fd o w = (Ok self, w') ->
  file_state pf params file fd o = Ok self.
Proof.
  unfold process_file, bind, lift.
  destruct (file_state pf params file fd o) as [s|e]; [|discriminate].
  cbn [list_append].
  destruct (exportStorageFiles _ _ _) as [[|] w1]; [|discriminate].
  destruct (exportGeoserverFiles _ _ _ _ _ _) as [[|] w2]; [|discriminate].
  unfold ret. congruence.
Qed.

(** With both markers non-empty the two resolvers return. *)
Lemma resolvers_return pf params file (isMDE : bool)
    (entropy : nat -> Byte.byte) :
  filename_prefix params <> "" ->
  filename_suffix params <> "" ->
  (exists m, resolve_mapId pf params file isMDE
               (contains (filename_prefix params) file) entropy = Ok m) /\
  (exists r, resolve_registroid pf params file isMDE
               (contains (filename_prefix params) file) = Ok r).
Proof.
  intros Hprefix Hsuffix.
  unfold resolve_mapId, resolve_registroid.
  destruct (contains (filename_prefix params) file) eqn:Hok.
  - pose proof (py_split_second file _ Hprefix Hok) as Hsecond.
    pose proof (py_split_head file _ Hprefix) as Hfirst.
    rewrite (py_split_Ok _ _ Hprefix) in *. cbn [rbind] in *.
    rewrite Hsecond, Hfirst. cbn [rbind].
    destruct isMDE.
    + pose proof (py_split_head
                    (before_first (filename_prefix params)
                       (after_first (filename_prefix params) file))
                    _ Hsuffix) as Hmid.
      rewrite (py_split_Ok _ _ Hsuffix) in *. cbn [rbind] in *.
      rewrite Hmid. cbn [rbind]. eauto.
    + pose proof (py_split_head file "_" ltac:(discriminate)) as Hus.
      cbn [py_split rbind] in *. rewrite Hus. eauto.
  - destruct isMDE.
    + pose proof (py_split_head file _ Hsuffix) as Hfirst.
      rewrite (py_split_Ok _ _ Hsuffix) in *. cbn [rbind] in *.
      rewrite Hfirst. cbn [rbind]. rewrite cleanFilename_spec. eauto.
    + rewrite cleanFilename_spec. eauto.
Qed.

(** A raster whose last band declares a nodata value, with an EPSG code and
    a readable date, has a state whenever both markers are non-empty; the
    state carries the band count and the kind read off it. *)
Lemma file_state_returns pf params file ds o (b : Band) (v : float)
    (code : Z) (d : option datetime) :
  filename_prefix params <> "" ->
  filename_suffix params <> "" ->
  last (bands ds) = Some b ->
  NoDataValue b = Some v ->
  AUTHORITY_1 ds = Some code ->
  getDate ds = Ok d ->
  exists self,
    file_state pf params file (Opened ds) o = Ok self /\
    bandas self = RasterCount ds /\
    isMDE self = (RasterCount ds <=? 2).
Proof.
  intros Hprefix Hsuffix Hlast Hnd Hepsg Hdate.
  destruct (resolvers_return pf params file (RasterCount ds <=? 2) (entropy o)
              Hprefix Hsuffix) as [[m Hm] [r Hr]].
  unfold file_state. cbn [rbind]. rewrite GetRasterBand_last, Hlast.
  cbn [rbind]. rewrite Hnd. cbn [rbind]. rewrite Hm. cbn [rbind].
  rewrite Hr. cbn [rbind]. rewrite Hepsg. cbn [rbind]. rewrite Hdate.
  cbn [rbind]. eexists. split; [reflexivity|]. split; reflexivity.
Qed.

(** [C9] The raster is classified as elevation exactly when it has at most
    two bands, whatever the configuration.  Every raster that can be
    processed at all (a nodata value on its last band, an EPSG code, a
    readable date, non-empty markers) gets a state, and that state says
    elevation for 1 or 2 bands and orthomosaic for 3 or more; two
    configurations classify the same raster alike. *)
Theorem classification_by_band_count pf params file ds o :
  (forall self,
     file_state pf params file (Opened ds) o = Ok self ->
     (isMDE self = true <-> RasterCount ds <= 2) /\
     (RasterCount ds = 1 \/ RasterCount ds = 2 -> isMDE self = true) /\
     (RasterCount ds = 3 \/ RasterCount ds = 4 -> isMDE self = false) /\
     (forall pf' params' file' o' self',
        file_state pf' params' file' (Opened ds) o' = Ok self' ->
        isMDE self' = isMDE self)) /\
  (forall (b : Band) (v : float) (code : Z) (d : option datetime),
     filename_prefix params <> "" ->
     filename_suffix params <> "" ->
     last (bands ds) = Some b ->
     NoDataValue b = Some v ->
     AUTHORITY_1 ds = Some code ->
     getDate ds = Ok d ->
     exists self,
       file_state pf params file (Opened ds) o = Ok self /\
       (RasterCount ds = 1 \/ RasterCount ds = 2 -> isMDE self = true) /\
       (3 <= RasterCount ds -> isMDE self = false)).
Proof.
  split.
  - intros self Hst.
    apply file_state_Ok in Hst
      as (ds0 & b & v & [= <-] & _ & _ & _ & _ & _ & HisMDE & _).
    rewrite HisMDE. repeat split.
    + apply Z.leb_le.
    + apply Z.leb_le.
    + intros [-> | ->]; reflexivity.
    + intros [-> | ->]; reflexivity.
    + intros pf' params' file' o' self' Hst'.
      apply file_state_Ok in Hst'
        as (ds1 & _ & _ & [= <-] & _ & _ & _ & _ & _ & -> & _).
      reflexivity.
  - intros b v code d Hprefix Hsuffix Hlast Hnd Hepsg Hdate.
    destruct (file_state_returns pf params file ds o b v code d
                Hprefix Hsuffix Hlast Hnd Hepsg Hdate)
      as (self & Hst & _ & HisMDE).
    exists self. split; [exact Hst|]. rewrite HisMDE. split.
    + intros [-> | ->]; reflexivity.
    + intros H3. apply Z.leb_gt. lia.
Qed.

(** [C3] When the file name lacks the prefix marker, the map id
    is the 12-digit hexadecimal token; the registry id is the name without
    its extension cut at the first dash for an orthomosaic, and for an
    elevation raster the same applied to what precedes the suffix marker,
    which is the whole name when the marker does not occur. *)
Theorem fallback_identity pf params file ds o self :
  file_state pf params file (Opened ds) o = Ok self ->
  contains (filename_prefix params) file = false ->
  mapId self = token_hex (entropy o) 6 /\
  String.length (mapId self) = 12%nat /\
  string_forallb is_hex_digit (mapId self) = true /\
  registroid self =
    truncate_at_first_dash
      (removeExtension pf
         (if isMDE self then before_first (filename_suffix params) file
          else file)) /\
  (contains (filename_suffix params) file = false ->
   registroid self = truncate_at_first_dash (removeExtension pf file)).
Proof.
  intros Hst Hok.
  apply file_state_Ok in Hst
    as (_ & _ & _ & _ & _ & _ & _ & _ & _ & _ & Hmap & Hreg & _).
  rewrite Hok in Hmap, Hreg.
  assert (Hid : mapId self = token_hex (entropy o) 6).
  { unfold resolve_mapId in Hmap. destruct (isMDE self); congruence. }
  assert (Hr : registroid self =
               truncate_at_first_dash
                 (removeExtension pf
                    (if isMDE self
                     then before_first (filename_suffix params) file
                     else file))).
  { unfold resolve_registroid in Hreg. destruct (isMDE self).
    - destruct (filename_suffix params) as [|c suffix] eqn:Hsuffix;
        [discriminate Hreg|].
      change (rbind (rbind (py_split file (String c suffix))
                           (fun a => py_item a 0))
                    (fun a0 => cleanFilename (removeExtension pf a0))
              = Ok (registroid self)) in Hreg.
      rewrite py_split_head in Hreg by discriminate.
      cbn [rbind] in Hreg. rewrite cleanFilename_spec in Hreg. congruence.
    - rewrite cleanFilename_spec in Hreg. congruence. }
  rewrite Hid. destruct (token_hex_6 (entropy o)) as [Hlen Hhex].
  repeat split; try assumption.
  intros Hnosuffix. rewrite Hr.
  destruct (isMDE self); [|reflexivity].
  now rewrite before_first_absent.
Qed.

(** [C5] When the last band declares no nodata value, the state cannot be
    built: the nan test raises [TypeError] and the file's processing stops
    there, with nothing appended and no call made.  So a file that is
    processed has a number as the nodata value of its last band. *)
Theorem undeclared_nodata_TypeError pf params file ds o (b : Band) :
  last (bands ds) = Some b ->
  NoDataValue b = None ->
  file_state pf params file (Opened ds) o = Raise TypeError /\
  (forall w, process_file pf params file (Opened ds) o w = (Raise TypeError, w)) /\
  (forall ds' self w w',
     process_file pf params file (Opened ds') o w = (Ok self, w') ->
     exists b' v, last (bands ds') = Some b' /\ NoDataValue b' = Some v).
Proof.
  intros Hlast Hnd.
  assert (Hst : file_state pf params file (Opened ds) o = Raise TypeError).
  { unfold file_state. cbn [rbind]. rewrite GetRasterBand_last, Hlast.
    cbn [rbind]. now rewrite Hnd. }
  split; [exact Hst|]. split.
  - intros w. now apply process_file_raise.
  - intros ds' self w w' Hrun.
    apply process_file_Ok, file_state_Ok in Hrun
      as (ds0 & b' & v & [= <-] & Hlast' & Hnd' & _).
    eauto.
Qed.

Lemma with_last_nodata_bands ds (front : list Band) (b : Band)
    (v : option float) :
  bands ds = (front ++ [b])%list ->
  bands (with_last_nodata ds v) =
  (front ++ [{| ColorInterpretation := ColorInterpretation b;
                NoDataValue := v |}])%list.
Proof.
  intros Hb. unfold with_last_nodata. cbn [bands]. rewrite Hb.
  rewrite List.rev_app_distr. cbn [List.rev List.app].
  now rewrite List.rev_involutive.
Qed.

(** [C6] A nan nodata value of the last band is read as 0 and raises
    nothing: the state is built as for the same raster declaring 0.  A
    raster with neither date tag has the date [None], without an error. *)
Theorem nan_nodata_and_missing_date pf params file ds o :
  (forall (b : Band) (v : float),
     last (bands ds) = Some b ->
     NoDataValue b = Some v ->
     PrimFloat.is_nan v = true ->
     file_state pf params file (Opened ds) o =
       file_state pf params file (Opened (with_last_nodata ds (Some 0%float))) o /\
     (forall self, file_state pf params file (Opened ds) o = Ok self ->
                   noDataValue self = 0%float)) /\
  (GetMetadataItem ds "acquisitionStartDate" = None ->
   GetMetadataItem ds "TIFFTAG_DATETIME" = None ->
   getDate ds = Ok None).
Proof.
  split.
  - intros b v Hlast Hnd Hnan. split.
    + apply last_Some in Hlast as [front Hb].
      pose proof (with_last_nodata_bands ds front b (Some 0%float) Hb) as Hb'.
      unfold file_state. cbn [rbind].
      rewrite !GetRasterBand_last. unfold RasterCount.
      rewrite Hb', Hb, !last_snoc, !length_app. cbn [rbind NoDataValue].
      rewrite Hnd, Hnan. reflexivity.
    + intros self Hst.
      apply file_state_Ok in Hst
        as (ds0 & b0 & v0 & [= <-] & Hlast0 & Hnd0 & _ & _ & Hval & _).
      rewrite Hlast in Hlast0. injection Hlast0 as <-.
      rewrite Hnd in Hnd0. injection Hnd0 as <-.
      now rewrite Hnan in Hval.
  - intros Hdd Hpix. unfold getDate. now rewrite Hdd, Hpix.
Qed.
End FileState.

Lemma classification_by_band_count_witness :
  (exists self,
     file_state (lib := Sample.lib) Sample.nt Sample.params
       "REG42_ortho_mapA_mde.tif" (Opened Sample.dem) Sample.oracle = Ok self /\
     isMDE self = true) /\
  (exists self,
     file_state (lib := Sample.lib) Sample.nt Sample.params
       "REG42_ortho_mapA.tif" (Opened Sample.rgba) Sample.oracle = Ok self /\
     isMDE self = false).
Proof.
  split.
  - destruct (proj2 (classification_by_band_count (lib := Sample.lib)
                       Sample.nt Sample.params "REG42_ortho_mapA_mde.tif"
                       Sample.dem Sample.oracle)
                (Sample.band 1 (Some PrimFloat.nan)) PrimFloat.nan 3857 None
                ltac:(discriminate) ltac:(discriminate) ltac:(reflexivity)
                ltac:(reflexivity) ltac:(reflexivity) ltac:(reflexivity))
      as (self & Hst & Hmde & _).
    exists self. split; [exact Hst|]. apply Hmde. left. reflexivity.
  - destruct (proj2 (classification_by_band_count (lib := Sample.lib)
                       Sample.nt Sample.params "REG42_ortho_mapA.tif"
                       Sample.rgba Sample.oracle)
                (Sample.band 6 (Some 0%float)) 0%float 4326 None
                ltac:(discriminate) ltac:(discriminate) ltac:(reflexivity)
                ltac:(reflexivity) ltac:(reflexivity) ltac:(reflexivity))
      as (self & Hst & _ & Hortho).
    exists self. split; [exact Hst|]. apply Hortho. vm_compute. discriminate.
Defined.

Lemma fallback_identity_witness :
  exists self,
    file_state (lib := Sample.lib) Sample.nt Sample.params
      "terrainXYZ-2.tif" (Opened Sample.dem) Sample.oracle = Ok self /\
    contains (filename_prefix Sample.params) "terrainXYZ-2.tif" = false /\
    mapId self = "abababababab" /\ registroid self = "terrainXYZ".
Proof.
  eexists. split; [vm_compute; reflexivity|]. split; [reflexivity|].
  pose proof (fallback_identity (lib := Sample.lib) Sample.nt Sample.params
                "terrainXYZ-2.tif" Sample.dem Sample.oracle _
                ltac:(vm_compute; reflexivity) ltac:(reflexivity))
    as (Hmap & _ & _ & Hreg & _).
  split; [exact Hmap | exact Hreg].
Defined.

Lemma undeclared_nodata_TypeError_witness :
  last (bands Sample.dem_undeclared) = Some (Sample.band 1 None) /\
  file_state (lib := Sample.lib) Sample.nt Sample.params "terrainXYZ.tif"
    (Opened Sample.dem_undeclared) Sample.oracle = Raise TypeError.
Proof.
  split; [reflexivity|].
  apply (undeclared_nodata_TypeError (lib := Sample.lib) Sample.nt
           Sample.params "terrainXYZ.tif" Sample.dem_undeclared Sample.oracle
           (Sample.band 1 None)); reflexivity.
Defined.

Lemma nan_nodata_and_missing_date_witness :
  (exists self,
     file_state (lib := Sample.lib) Sample.nt Sample.params "terrainXYZ.tif"
       (Opened Sample.dem) Sample.oracle = Ok self /\
     noDataValue self = 0%float) /\
  getDate (lib := Sample.lib) Sample.dem = Ok None.
Proof.
  pose proof (nan_nodata_and_missing_date (lib := Sample.lib) Sample.nt
                Sample.params "terrainXYZ.tif" Sample.dem Sample.oracle)
    as [Hnan Hdate].
  split.
  - eexists. split; [vm_compute; reflexivity|].
    apply (Hnan (Sample.band 1 (Some PrimFloat.nan)) PrimFloat.nan);
      reflexivity || (vm_compute; reflexivity).
  - apply Hdate; reflexivity.
Defined.

(** ** Traces: what a computation adds to the trace *)

Section Traces.
Context {A : Type}.
Implicit Types (m : M A) (Q : event -> Prop).

Lemma only_ret Q (a : A) : only Q (ret a).
Proof. intros w. exists []. split; [now rewrite app_nil_r | constructor]. Qed.

Lemma only_raise Q (e : exn) : only Q (raise (A := A) e).
Proof. intros w. exists []. split; [now rewrite app_nil_r | constructor]. Qed.

Lemma only_lift Q (r : result A) : only Q (lift r).
Proof. intros w. exists []. split; [now rewrite app_nil_r | constructor]. Qed.

Lemma only_weaken Q Q' m : (forall e, Q e -> Q' e) -> only Q m -> only Q' m.
Proof.
  intros Himp Hm w. destruct (Hm w) as (evs & Htr & Hall).
  exists evs. split; [exact Htr|]. eapply Forall_impl; eauto.
Qed.

Lemma only_if Q (c : bool) m1 m2 :
  only Q m1 -> only Q m2 -> only Q (if c then m1 else m2).
Proof. now destruct c. Qed.
End Traces.

Lemma only_emit (Q : event -> Prop) (e : event) : Q e -> only Q (emit e).
Proof. intros He w. exists [e]. split; [reflexivity | now constructor]. Qed.

Lemma only_list_read (Q : event -> Prop) (l : loc) : only Q (list_read l).
Proof. intros w. exists []. split; [now rewrite app_nil_r | constructor]. Qed.

Lemma only_list_append (Q : event -> Prop) (l : loc) (x : string) :
  only Q (list_append l x).
Proof. intros w. exists []. split; [now rewrite app_nil_r | constructor]. Qed.

Lemma only_when (Q : event -> Prop) (c : bool) (m : M unit) :
  only Q m -> only Q (when c m).
Proof. intros Hm. unfold when. destruct c; [exact Hm | apply only_ret]. Qed.

Lemma only_bind {A B : Type} (Q : event -> Prop) (m : M A) (k : A -> M B) :
  only Q m -> (forall a, only Q (k a)) -> only Q (bind m k).
Proof.
  intros Hm Hk w. unfold bind.
  destruct (Hm w) as (evs1 & Htr1 & Hall1).
  destruct (m w) as [[a|e] w1]; cbn [snd] in Htr1.
  - destruct (Hk a w1) as (evs2 & Htr2 & Hall2).
    exists (evs1 ++ evs2)%list. split.
    + now rewrite Htr2, Htr1, app_assoc.
    + now apply Forall_app.
  - exists evs1. now split.
Qed.

Lemma only_bind_lift {A B : Type} (Q : event -> Prop) (r : result A)
    (k : A -> M B) :
  (forall a, r = Ok a -> only Q (k a)) -> only Q (bind (lift r) k).
Proof.
  intros Hk w. unfold bind, lift. destruct r as [a|e].
  - now apply Hk.
  - exists []. split; [now rewrite app_nil_r | constructor].
Qed.

(** Rule-directed proof of [only Q m] for straight-line code with
    conditionals; emitted events are left as goals [Q e]. *)
Ltac only_step :=
  first
    [ apply only_ret | apply only_raise | apply only_lift
    | apply only_list_read | apply only_list_append
    | apply only_when | apply only_emit
    | apply only_bind; [|intros ?]
    | apply only_if ].
Ltac only_tac := repeat only_step.

Lemma features_app (evs1 evs2 : list event) :
  features (evs1 ++ evs2) = (features evs1 + features evs2)%nat.
Proof. unfold features. now rewrite List.filter_app, length_app. Qed.

Lemma features_none (evs : list event) :
  Forall (fun e => is_CreateFeature e = false) evs -> features evs = 0%nat.
Proof.
  unfold features. induction 1 as [|e evs He _ IH]; [reflexivity|].
  cbn [List.filter]. now rewrite He.
Qed.

Lemma at_most_raise {A : Type} (n : nat) (e : exn) : at_most n (raise (A := A) e).
Proof. intros w. exists []. split; [now rewrite app_nil_r | cbn; lia]. Qed.

Lemma at_most_ret {A : Type} (n : nat) (a : A) : at_most n (ret a).
Proof. intros w. exists []. split; [now rewrite app_nil_r | cbn; lia]. Qed.

Lemma at_most_emit (n : nat) (e : event) : at_most (S n) (emit e).
Proof.
  intros w. exists [e]. split; [reflexivity|].
  unfold features. cbn. destruct (is_CreateFeature e); cbn; lia.
Qed.

Lemma at_most_none {A : Type} (n : nat) (m : M A) :
  only (fun e => is_CreateFeature e = false) m -> at_most n m.
Proof.
  intros Hm w. destruct (Hm w) as (evs & Htr & Hall).
  exists evs. split; [exact Htr|]. rewrite features_none by exact Hall. lia.
Qed.

Lemma at_most_bind {A B : Type} (a b : nat) (m : M A) (k : A -> M B) :
  at_most a m -> (forall x, at_most b (k x)) -> at_most (a + b) (bind m k).
Proof.
  intros Hm Hk w. unfold bind.
  destruct (Hm w) as (evs1 & Htr1 & Hn1).
  destruct (m w) as [[x|e] w1]; cbn [snd] in Htr1.
  - destruct (Hk x w1) as (evs2 & Htr2 & Hn2).
    exists (evs1 ++ evs2)%list. split.
    + now rewrite Htr2, Htr1, app_assoc.
    + rewrite features_app. lia.
  - exists evs1. split; [exact Htr1 | lia].
Qed.

(** ** The exports *)

Section Exports.
Context {lib : PyLib}.
Implicit Types (pf : Platform) (params : Params) (file : string)
  (fd : file_ds_var) (o : Oracle) (self : Self) (w : world).

Lemma exportOutline_only pf params self (src : raster_ref) (nbands : Z) o :
  only (fun e => is_outline_event e = true)
       (exportOutline pf params self src nbands o).
Proof.
  unfold exportOutline.
  repeat match goal with
         | |- only _ (if ?c then _ else _) => destruct c
         | _ => only_step
         end; reflexivity.
Qed.

Lemma exportOutline_at_most pf params self (src : raster_ref) (nbands : Z) o :
  at_most 1 (exportOutline pf params self src nbands o).
Proof.
  unfold exportOutline.
  destruct (negb _); [apply at_most_raise|].
  repeat (apply (at_most_bind 0 1);
          [apply at_most_none;
           repeat match goal with
                  | |- only _ (if ?c then _ else _) => destruct c
                  | _ => only_step
                  end; reflexivity
          |intros _]).
  destruct (negb _); [apply at_most_ret|].
  destruct (String.eqb _ _); [apply at_most_ret | apply at_most_emit].
Qed.

Lemma exportStorageFiles_only pf params self :
  only (fun e => is_outline_event e = false /\ is_Warp e = false)
       (exportStorageFiles params self).
Proof. unfold exportStorageFiles. only_tac; now split. Qed.

(** Every Warp that [exportGeoserverFiles] issues is due to an EPSG code
    other than the configured one and carries the nodata choice. *)
Lemma exportGeoserverFiles_warps pf params self file o :
  only (fun e => match e with
                 | EvWarp _ _ kw =>
                     epsg self <> geoserver_epsg params /\
                     w_srcNodata kw =
                       (if tieneCanalAlfa self then nodata_none
                        else nodata_value (noDataValue self))
                 | _ => True
                 end)
       (exportGeoserverFiles pf params self file o).
Proof.
  unfold exportGeoserverFiles.
  destruct (Z.eqb_spec (epsg self) (geoserver_epsg params)) as [Heq|Hne];
    cbn [negb]; only_tac; try exact I; now split.
Qed.

(** With another EPSG code the Warp is the first call. *)
Lemma exportGeoserverFiles_reprojects pf params self file o w :
  epsg self <> geoserver_epsg params ->
  exists dst kw rest,
    trace (snd (exportGeoserverFiles pf params self file o w)) =
    (trace w ++ EvWarp dst source_file kw :: rest)%list.
Proof.
  intros Hne. unfold exportGeoserverFiles.
  apply Z.eqb_neq in Hne. rewrite Hne. cbn [negb when].
  match goal with
  | |- context [bind (emit ?e) ?k] =>
      assert (Hk : only (fun _ => True) (k tt));
      [|destruct (Hk (World (store w) (trace w ++ [e])%list))
          as (rest & Htr & _)]
  end.
  - only_tac; exact I.
  - unfold bind at 1. cbn [emit]. rewrite Htr. cbn [trace].
    rewrite <- app_assoc. eauto.
Qed.

(** [C7] [exportGeoserverFiles] issues a Warp exactly when the raster's EPSG
    code differs from the configured one, and the Warp's source nodata is
    ['none'] with an alpha channel and the raster's nodata value otherwise. *)
Theorem reprojection_trigger pf params self file o w :
  exists evs,
    trace (snd (exportGeoserverFiles pf params self file o w)) =
      (trace w ++ evs)%list /\
    ((exists e, In e evs /\ is_Warp e = true) <->
     epsg self <> geoserver_epsg params) /\
    (forall dst src kw,
       In (EvWarp dst src kw) evs ->
       w_srcNodata kw =
         if tieneCanalAlfa self then nodata_none
         else nodata_value (noDataValue self)).
Proof.
  destruct (exportGeoserverFiles_warps pf params self file o w)
    as (evs & Htr & Hall).
  exists evs. split; [exact Htr|].
  rewrite List.Forall_forall in Hall. split; [split|].
  - intros (e & Hin & Hwarp). specialize (Hall e Hin).
    destruct e; try discriminate Hwarp. apply Hall.
  - intros Hne.
    destruct (exportGeoserverFiles_reprojects pf params self file o w Hne)
      as (dst & kw & rest & Htr').
    rewrite Htr in Htr'. apply app_inv_head in Htr'. subst evs.
    exists (EvWarp dst source_file kw). split; [now left | reflexivity].
  - intros dst src kw Hin. apply (Hall _ Hin).
Qed.

Lemma exportGeoserverFiles_at_most pf params self file o :
  at_most 1 (exportGeoserverFiles pf params self file o).
Proof.
  unfold exportGeoserverFiles.
  apply (at_most_bind 0 1);
    [apply at_most_none; only_tac; reflexivity | intros _].
  apply (at_most_bind 0 1);
    [apply at_most_none; only_tac | intros md].
  apply (at_most_bind 1 0); [|intros _; apply at_most_none; only_tac; reflexivity].
  destruct (_ && _); [apply exportOutline_at_most | apply at_most_ret].
Qed.

Lemma exportGeoserverFiles_elevation pf params self file o :
  isMDE self = true ->
  only (fun e => is_outline_event e = false)
       (exportGeoserverFiles pf params self file o).
Proof.
  intros HisMDE. unfold exportGeoserverFiles.
  rewrite HisMDE, andb_false_r. only_tac; reflexivity.
Qed.

Lemma process_file_at_most pf params file fd o :
  at_most 1 (process_file pf params file fd o).
Proof.
  unfold process_file.
  apply (at_most_bind 0 1); [apply at_most_none; only_tac | intros self].
  do 2 (apply (at_most_bind 0 1); [apply at_most_none; only_tac | intros _]).
  apply (at_most_bind 0 1); [apply at_most_none | intros _].
  { eapply only_weaken; [|apply (exportStorageFiles_only pf)].
    intros [] [Ho _]; reflexivity || discriminate Ho. }
  apply (at_most_bind 1 0);
    [apply exportGeoserverFiles_at_most | intros _; apply at_most_ret].
Qed.

Lemma process_file_elevation pf params file ds o :
  RasterCount ds <= 2 ->
  only (fun e => is_outline_event e = false)
       (process_file pf params file (Opened ds) o).
Proof.
  intros Hbands. unfold process_file.
  apply only_bind_lift. intros self Hst.
  apply file_state_Ok in Hst
    as (ds0 & _ & _ & [= <-] & _ & _ & _ & _ & _ & HisMDE & _).
  apply Z.leb_le in Hbands. rewrite Hbands in HisMDE.
  do 2 (apply only_bind; [apply only_list_append | intros _]).
  apply only_bind; [|intros _].
  { eapply only_weaken; [|apply (exportStorageFiles_only pf)].
    now intros e [Ho _]. }
  apply only_bind; [|intros _; apply only_ret].
  now apply exportGeoserverFiles_elevation.
Qed.

(** [C8] Processing one file writes at most one outline feature, and for
    a raster with at most two bands, classified as elevation, it makes no
    call of the outline export at all. *)
Theorem outline_at_most_one_feature pf params file fd o w :
  exists evs,
    trace (snd (process_file pf params file fd o w)) = (trace w ++ evs)%list /\
    (features evs <= 1)%nat /\
    (forall ds, fd = Opened ds -> RasterCount ds <= 2 ->
                Forall (fun e => is_outline_event e = false) evs).
Proof.
  destruct (process_file_at_most pf params file fd o w) as (evs & Htr & Hn).
  exists evs. split; [exact Htr|]. split; [exact Hn|].
  intros ds -> Hbands.
  destruct (process_file_elevation pf params file ds o Hbands w)
    as (evs' & Htr' & Hall).
  rewrite Htr in Htr'. apply app_inv_head in Htr'. now subst evs'.
Qed.
End Exports.

(** ** The list behind [params.metadata] across the files of a batch *)

Section Store.
Context {lib : PyLib}.
Implicit Types (pf : Platform) (params : Params) (file : string)
  (fd : file_ds_var) (o : Oracle) (self : Self) (w : world).

Lemma keeps_store_ret {A : Type} (a : A) : keeps_store (ret a).
Proof. now intros w. Qed.

Lemma keeps_store_raise {A : Type} (e : exn) : keeps_store (raise (A := A) e).
Proof. now intros w. Qed.

Lemma keeps_store_emit (e : event) : keeps_store (emit e).
Proof. now intros w. Qed.

Lemma keeps_store_list_read (l : loc) : keeps_store (list_read l).
Proof. now intros w. Qed.

Lemma keeps_store_when (c : bool) (m : M unit) :
  keeps_store m -> keeps_store (when c m).
Proof. intros Hm. destruct c; [exact Hm | apply keeps_store_ret]. Qed.

Lemma keeps_store_if {A : Type} (c : bool) (m1 m2 : M A) :
  keeps_store m1 -> keeps_store m2 -> keeps_store (if c then m1 else m2).
Proof. now destruct c. Qed.

Lemma keeps_store_bind {A B : Type} (m : M A) (k : A -> M B) :
  keeps_store m -> (forall a, keeps_store (k a)) -> keeps_store (bind m k).
Proof.
  intros Hm Hk w. unfold bind. specialize (Hm w).
  destruct (m w) as [[a|e] w1]; cbn [snd] in *; [|exact Hm].
  now rewrite Hk.
Qed.

Ltac keeps_store_tac :=
  repeat first
    [ apply keeps_store_ret | apply keeps_store_raise
    | apply keeps_store_emit | apply keeps_store_list_read
    | apply keeps_store_when
    | apply keeps_store_bind; [|intros ?]
    | apply keeps_store_if ].

Lemma exportStorageFiles_store params self :
  keeps_store (exportStorageFiles params self).
Proof. unfold exportStorageFiles. keeps_store_tac. Qed.

Lemma exportGeoserverFiles_store pf params self file o :
  keeps_store (exportGeoserverFiles pf params self file o).
Proof. unfold exportGeoserverFiles, exportOutline. keeps_store_tac. Qed.

(** A processed file leaves its two tags at the end of the list; nothing
    takes earlier tags away. *)
Lemma process_file_store pf params file fd o self w w' :
  process_file pf params file fd o w = (Ok self, w') ->
  store w' = alter (fun xs => (xs ++ file_tags self)%list)
                   (metadata params) (store w).
Proof.
  intros Hrun. pose proof (process_file_Ok _ _ _ _ _ _ _ _ Hrun) as Hst.
  pose proof Hst as Hst'.
  apply file_state_Ok in Hst'
    as (_ & _ & _ & _ & _ & _ & _ & _ & _ & _ & _ & _ & _ & _ & Hloc).
  revert Hrun. unfold process_file, bind at 1, lift. rewrite Hst.
  unfold bind at 1. cbn [list_append]. unfold bind at 1. cbn [list_append].
  match goal with
  | |- context [bind ?m ?k ?w1] =>
      assert (Hkeep : keeps_store (bind m k))
  end.
  { apply keeps_store_bind; [apply exportStorageFiles_store | intros _].
    apply keeps_store_bind; [apply exportGeoserverFiles_store | intros _].
    apply keeps_store_ret. }
  intros Hrun. apply (f_equal snd) in Hrun. cbn [snd] in Hrun.
  rewrite <- Hrun, Hkeep. cbn [store]. rewrite Hloc.
  rewrite alter_alter_eq. apply alter_ext. intros xs _.
  unfold file_tags, compose. now rewrite <- app_assoc.
Qed.

(** After a batch the list holds, behind what it held before, the tags of
    every file of the batch in order. *)
Lemma processTifs_metadata_accumulates pf params files fd w selves w' :
  processTifs_from pf params files fd w = (Ok selves, w') ->
  store w' !! metadata params =
  (fun xs => (xs ++ concat (map file_tags selves))%list)
    <$> (store w !! metadata params).
Proof.
  revert fd w selves w'.
  induction files as [|f files IH]; intros fd w selves w' Hrun.
  - injection Hrun as <- <-. cbn [map concat].
    destruct (store w !! metadata params); cbn; [|reflexivity].
    now rewrite app_nil_r.
  - cbn [processTifs_from] in Hrun. unfold bind at 1 in Hrun.
    match type of Hrun with
    | context [match ?opening w with _ => _ end] =>
        assert (Hopen : snd (opening w) = w);
        [|destruct (opening w) as [[fd'|e] w1]; [|discriminate Hrun];
          cbn [snd] in Hopen; subst w1]
    end.
    { destruct (_ || _); [|reflexivity].
      now destruct (wf_open f) as [ds|[]]. }
    unfold bind at 1 in Hrun.
    destruct (process_file _ _ _ _ _ w) as [[self|e] w1] eqn:Hfile;
      [|discriminate Hrun].
    unfold bind at 1 in Hrun.
    destruct (processTifs_from _ _ files PyNone w1) as [[rest|e] w2] eqn:Hrest;
      [|discriminate Hrun].
    injection Hrun as <- <-.
    rewrite (IH _ _ _ _ Hrest), (process_file_store _ _ _ _ _ _ _ _ Hfile).
    rewrite lookup_alter_eq. cbn [map concat].
    destruct (store w !! metadata params); cbn; [|reflexivity].
    now rewrite <- app_assoc.
Qed.
End Store.

(** [C2] A batch of two orthomosaics: the tag list stamped on the second
    file's rasters still holds the first file's [registroId] and [mapId],
    so it is not the configured list plus the second file's own tags; and
    the list [params.metadata] ends up with the tags of both files. *)
Theorem metadata_carries_over :
  let w := snd (processTifs (lib := Sample.lib) Sample.nt Sample.params
                  Sample.batch Sample.world0) in
  stamped_metadata (trace w) =
    [ ("output/storage/REG42_ortho_mapA.tif",
       ["source=drone"; "registroId=REG42"; "mapId=mapA"]);
      ("output/geoserver/REG42_ortho_mapA.tif",
       ["source=drone"; "registroId=REG42"; "mapId=mapA"]);
      ("output/storage/REG43_ortho_mapB.tif",
       ["source=drone"; "registroId=REG42"; "mapId=mapA";
        "registroId=REG43"; "mapId=mapB"]);
      ("output/geoserver/REG43_ortho_mapB.tif",
       ["source=drone"; "registroId=REG42"; "mapId=mapA";
        "registroId=REG43"; "mapId=mapB"]) ] /\
  store w !! metadata Sample.params =
    Some ["source=drone"; "registroId=REG42"; "mapId=mapA";
          "registroId=REG43"; "mapId=mapB"].
Proof. split; vm_compute; reflexivity. Qed.

(** ** The sample file runs *)

Example file_state_rgba :
  file_state (lib := Sample.lib) Sample.nt Sample.params "REG42_ortho_mapA.tif"
    (Opened Sample.rgba) Sample.oracle = Ok Sample.self_rgba.
Proof. vm_compute. reflexivity. Qed.

Lemma reprojection_trigger_witness :
  epsg Sample.self_rgba <> geoserver_epsg Sample.params /\
  exists e,
    In e (trace (snd (exportGeoserverFiles (lib := Sample.lib) Sample.nt
                        Sample.params Sample.self_rgba "REG42_ortho_mapA.tif"
                        Sample.oracle Sample.world0))) /\
    is_Warp e = true.
Proof.
  assert (Hne : epsg Sample.self_rgba <> geoserver_epsg Sample.params)
    by discriminate.
  split; [exact Hne|].
  destruct (reprojection_trigger (lib := Sample.lib) Sample.nt Sample.params
              Sample.self_rgba "REG42_ortho_mapA.tif" Sample.oracle
              Sample.world0) as (evs & Htr & Hiff & _).
  destruct (proj2 Hiff Hne) as (e & Hin & He).
  exists e. split; [|exact He]. rewrite Htr. apply in_or_app. now right.
Defined.

Lemma outline_at_most_one_feature_witness :
  RasterCount Sample.dem <= 2 /\
  Forall (fun e => is_outline_event e = false)
         (trace (snd (process_file (lib := Sample.lib) Sample.nt Sample.params
                        "terrainXYZ.tif" (Opened Sample.dem) Sample.oracle
                        Sample.world0))).
Proof.
  assert (Hbands : RasterCount Sample.dem <= 2) by (cbv; discriminate).
  split; [exact Hbands|].
  destruct (outline_at_most_one_feature (lib := Sample.lib) Sample.nt
              Sample.params "terrainXYZ.tif" (Opened Sample.dem) Sample.oracle
              Sample.world0) as (evs & Htr & _ & Hnone).
  rewrite Htr. apply (Hnone Sample.dem eq_refl Hbands).
Defined.

(** * Further properties of the code *)

(** ** The file loop as a whole *)

Section Batch.
Context {lib : PyLib}.
Implicit Types (pf : Platform) (params : Params) (files : list walked_file)
  (fd : file_ds_var) (w : world).

Lemma processTifs_from_cons pf params (f : walked_file) files fd :
  processTifs_from pf params (f :: files) fd =
  bind (open_entry f fd) (fun fd' =>
  bind (process_file pf params (wf_name f) fd' (wf_oracle f)) (fun self =>
  bind (processTifs_from pf params files PyNone) (fun selves =>
  ret (self :: selves)))).
Proof. reflexivity. Qed.

Lemma open_entry_world (f : walked_file) fd w : snd (open_entry f fd w) = w.
Proof.
  unfold open_entry. destruct (is_tif _); [|reflexivity].
  now destruct (wf_open f) as [ds|[]].
Qed.

(** Processing [l1 ++ l2] is processing [l1] and then [l2] from the state
    [l1] left, with [file_ds] reset to [None] once an entry was processed;
    an exception in [l1] ends the run there. *)
Lemma processTifs_from_app pf params (l1 l2 : list walked_file) fd w :
  processTifs_from pf params (l1 ++ l2) fd w =
  match processTifs_from pf params l1 fd w with
  | (Ok s1, w1) =>
      match processTifs_from pf params l2 (file_ds_after (length l1) fd) w1 with
      | (Ok s2, w2) => (Ok (s1 ++ s2)%list, w2)
      | (Raise e, w2) => (Raise e, w2)
      end
  | (Raise e, w1) => (Raise e, w1)
  end.
Proof.
  revert fd w. induction l1 as [|f l1 IH]; intros fd w.
  - cbn. now destruct (processTifs_from pf params l2 fd w) as [[s|e] w2].
  - cbn [app length file_ds_after]. rewrite !processTifs_from_cons.
    unfold bind.
    destruct (open_entry f fd w) as [[fd'|e] w0]; [|reflexivity].
    destruct (process_file pf params (wf_name f) fd' (wf_oracle f) w0)
      as [[self|e] w1]; [|reflexivity].
    specialize (IH PyNone w1). unfold bind in IH. rewrite IH.
    destruct (processTifs_from pf params l1 PyNone w1) as [[s1|e] w2];
      [|reflexivity].
    replace (file_ds_after (length l1) PyNone) with PyNone by now destruct l1.
    unfold ret.
    destruct (processTifs_from pf params l2 PyNone w2) as [[s2|e] w3];
      reflexivity.
Qed.

Lemma process_file_needs_dataset pf params (file : string) fd (o : Oracle)
    (self : Self) w w' :
  process_file pf params file fd o w = (Ok self, w') ->
  exists ds, fd = Opened ds.
Proof.
  intros Hrun. apply process_file_Ok, file_state_Ok in Hrun
    as (ds & _ & _ & -> & _). now exists ds.
Qed.

Lemma processTifs_from_completes pf params files fd w (selves : list Self) w' :
  (forall ds, fd <> Opened ds) ->
  processTifs_from pf params files fd w = (Ok selves, w') ->
  length selves = length files /\
  Forall (fun f => is_tif (wf_name f) = true /\ exists ds, wf_open f = Ok ds)
         files.
Proof.
  revert fd w selves w'.
  induction files as [|f files IH]; intros fd w selves w' Hfd Hrun.
  - injection Hrun as <- <-. split; [reflexivity | constructor].
  - rewrite processTifs_from_cons in Hrun. unfold bind in Hrun.
    destruct (open_entry f fd w) as [[fd'|e] w0] eqn:Hopen; [|discriminate].
    destruct (process_file _ _ _ _ _ w0) as [[self|e] w1] eqn:Hfile;
      [|discriminate].
    destruct (processTifs_from _ _ files PyNone w1) as [[rest|e] w2] eqn:Hrest;
      [|discriminate].
    injection Hrun as <- <-.
    apply IH in Hrest as [Hlen Hall]; [|discriminate].
    apply process_file_needs_dataset in Hfile as [ds ->].
    split; [cbn; now rewrite Hlen|]. constructor; [|exact Hall].
    unfold open_entry in Hopen. destruct (is_tif (wf_name f)).
    + split; [reflexivity|]. destruct (wf_open f) as [ds'|[]]; try discriminate.
      now exists ds'.
    + injection Hopen as Heq _. now destruct (Hfd ds).
Qed.

(** [X1] A batch that runs to completion consists of [.tif]/[.tiff] entries
    only, each of which [gdal.Open] could open, and every entry was
    processed: the loop body is not under the extension test, so any other
    entry of the input folder ends the run with an exception. *)
Theorem processTifs_completes_only_on_tifs pf params files w
    (selves : list Self) w' :
  processTifs pf params files w = (Ok selves, w') ->
  length selves = length files /\
  Forall (fun f => is_tif (wf_name f) = true /\ exists ds, wf_open f = Ok ds)
         files.
Proof. apply processTifs_from_completes. discriminate. Qed.

(** [X2] An entry without the [.tif]/[.tiff] extension ends the batch:
    with [UnboundLocalError] when it is the first entry, with
    [AttributeError] when entries were processed before it.  The store
    and the trace are those the earlier entries left; the entries after it are
    not looked at. *)
Theorem stray_entry_aborts pf params (pre rest : list walked_file)
    (f : walked_file) w (selves : list Self) w1 :
  is_tif (wf_name f) = false ->
  processTifs pf params pre w = (Ok selves, w1) ->
  processTifs pf params (pre ++ f :: rest) w =
  (Raise (match pre with [] => UnboundLocalError | _ => AttributeError end), w1).
Proof.
  intros Hext Hpre. unfold processTifs in *.
  rewrite processTifs_from_app, Hpre, processTifs_from_cons.
  unfold bind, open_entry. rewrite Hext. cbn [ret].
  destruct pre; reflexivity.
Qed.

(** [X3] When [gdal.Open] fails on a [.tif]/[.tiff] entry the batch ends with
    [SystemExit(1)]; the files before it stay processed and those after it
    are never opened. *)
Theorem open_failure_exits pf params (pre rest : list walked_file)
    (f : walked_file) fd w (selves : list Self) w1 :
  is_tif (wf_name f) = true ->
  wf_open f = Raise RuntimeError ->
  processTifs_from pf params pre fd w = (Ok selves, w1) ->
  processTifs_from pf params (pre ++ f :: rest) fd w = (Raise (SystemExit 1), w1).
Proof.
  intros Hext Hopen Hpre.
  rewrite processTifs_from_app, Hpre, processTifs_from_cons.
  unfold bind, open_entry. now rewrite Hext, Hopen.
Qed.
End Batch.

Lemma processTifs_completes_only_on_tifs_witness :
  exists selves w',
    processTifs (lib := Sample.lib) Sample.nt Sample.params Sample.batch
      Sample.world0 = (Ok selves, w') /\
    length selves = 2%nat.
Proof.
  eexists. eexists. split; [vm_compute; reflexivity|].
  apply (proj1 (processTifs_completes_only_on_tifs (lib := Sample.lib)
                  Sample.nt Sample.params Sample.batch Sample.world0 _ _
                  ltac:(vm_compute; reflexivity))).
Defined.

Lemma stray_entry_aborts_witness :
  exists w1,
    processTifs (lib := Sample.lib) Sample.nt Sample.params
      (Sample.batch ++ [BatchSample.stray]) Sample.world0 =
    (Raise AttributeError, w1).
Proof.
  eexists.
  apply (stray_entry_aborts (lib := Sample.lib) Sample.nt Sample.params
           Sample.batch [] BatchSample.stray Sample.world0 _ _
           ltac:(reflexivity) ltac:(vm_compute; reflexivity)).
Defined.

Lemma open_failure_exits_witness :
  exists w1,
    processTifs_from (lib := Sample.lib) Sample.nt Sample.params
      (Sample.batch ++ [BatchSample.unreadable; BatchSample.stray]) Unbound
      Sample.world0 =
    (Raise (SystemExit 1), w1).
Proof.
  eexists.
  apply (open_failure_exits (lib := Sample.lib) Sample.nt Sample.params
           Sample.batch [BatchSample.stray] BatchSample.unreadable Unbound
           Sample.world0 _ _
           ltac:(reflexivity) ltac:(reflexivity)
           ltac:(vm_compute; reflexivity)).
Defined.

(** ** The tags stamped on a file's rasters *)

Section Stamps.
Context {lib : PyLib}.
Implicit Types (pf : Platform) (params : Params) (l : loc)
  (xs : list string) (self : Self) (w : world).











End Stamps.


(** ** Splitting, and identities read off well-formed names *)

Lemma truncate_no_dash (s : string) :
  contains "-" (truncate_at_first_dash s) = false.
Proof.
  induction s as [|c s IH]; [reflexivity|].
  cbn [truncate_at_first_dash].
  destruct (Ascii.eqb c "-") eqn:Hc; [reflexivity|].
  cbn [contains]. now rewrite prefix_dash, Hc, IH.
Qed.

Lemma truncate_prefix (s : string) :
  String.prefix (truncate_at_first_dash s) s = true.
Proof.
  induction s as [|c s IH]; [reflexivity|].
  cbn [truncate_at_first_dash].
  destruct (Ascii.eqb c "-"); [reflexivity|].
  cbn [String.prefix]. now destruct (ascii_dec c c).
Qed.

Lemma truncate_dashless (s : string) :
  contains "-" s = false -> truncate_at_first_dash s = s.
Proof.
  intros Hs. rewrite <- before_first_dash. now apply before_first_absent.
Qed.

(** [X5] [cleanFilename] never raises; what it returns is a beginning of its
    argument without a dash, the whole argument when that has none, and
    applying it twice changes nothing more. *)
Theorem cleanFilename_dashless_prefix (filename : string) :
  exists r,
    cleanFilename filename = Ok r /\
    contains "-" r = false /\
    String.prefix r filename = true /\
    (contains "-" filename = false -> r = filename) /\
    cleanFilename r = Ok r.
Proof.
  exists (truncate_at_first_dash filename).
  rewrite !cleanFilename_spec.
  split; [reflexivity|]. split; [apply truncate_no_dash|].
  split; [apply truncate_prefix|]. split; [apply truncate_dashless|].
  f_equal. apply truncate_dashless, truncate_no_dash.
Qed.

Section Identity.
Context {lib : PyLib}.
Implicit Types (pf : Platform) (params : Params) (file : string)
  (ds : Dataset) (o : Oracle) (self : Self).

(** [X6] With both markers non-empty the identity is resolved for every file
    name and either kind of raster: no index is out of range and nothing is
    raised.  *)
Theorem identity_resolved pf params file (isMDE : bool)
    (entropy : nat -> Byte.byte) :
  filename_prefix params <> "" ->
  filename_suffix params <> "" ->
  exists m r,
    resolve_mapId pf params file isMDE
      (contains (filename_prefix params) file) entropy = Ok m /\
    resolve_registroid pf params file isMDE
      (contains (filename_prefix params) file) = Ok r.
Proof.
  intros Hprefix Hsuffix.
  unfold resolve_mapId, resolve_registroid.
  destruct (contains (filename_prefix params) file) eqn:Hok.
  - pose proof (py_split_second file _ Hprefix Hok) as Hsecond.
    pose proof (py_split_head file _ Hprefix) as Hfirst.
    rewrite (py_split_Ok _ _ Hprefix) in *. cbn [rbind] in *.
    rewrite Hsecond, Hfirst. cbn [rbind].
    destruct isMDE.
    + pose proof (py_split_head
                    (before_first (filename_prefix params)
                       (after_first (filename_prefix params) file))
                    _ Hsuffix) as Hmid.
      rewrite (py_split_Ok _ _ Hsuffix) in *. cbn [rbind] in *.
      rewrite Hmid. cbn [rbind]. eauto.
    + pose proof (py_split_head file "_" ltac:(discriminate)) as Hus.
      cbn [py_split rbind] in *. rewrite Hus. eauto.
  - destruct isMDE.
    + pose proof (py_split_head file _ Hsuffix) as Hfirst.
      rewrite (py_split_Ok _ _ Hsuffix) in *. cbn [rbind] in *.
      rewrite Hfirst. cbn [rbind]. rewrite cleanFilename_spec. eauto.
    + rewrite cleanFilename_spec. eauto.
Qed.

Lemma contains_empty file : contains "" file = true.
Proof. now destruct file. Qed.

(** [X7] An empty marker stops the processing with [ValueError]: an empty
    prefix marker for every raster that gets as far as the identity, an empty
    suffix marker for every such raster with at most two bands. *)
Theorem empty_marker_ValueError pf params file ds o (b : Band) (v : float) :
  last (bands ds) = Some b ->
  NoDataValue b = Some v ->
  filename_prefix params = "" \/
    (filename_suffix params = "" /\ (RasterCount ds <= 2)%Z) ->
  file_state pf params file (Opened ds) o = Raise ValueError.
Proof.
  intros Hlast Hnd Hempty.
  unfold file_state. cbn [rbind]. rewrite GetRasterBand_last, Hlast.
  cbn [rbind]. rewrite Hnd. cbn [rbind].
  unfold resolve_mapId, resolve_registroid.
  destruct Hempty as [Hprefix | [Hsuffix Hbands]].
  - rewrite Hprefix, contains_empty.
    now destruct (RasterCount ds <=? 2)%Z.
  - apply Z.leb_le in Hbands. rewrite Hbands, Hsuffix.
    destruct (contains (filename_prefix params) file) eqn:Hok.
    + destruct (filename_prefix params) as [|c p] eqn:Hp; [reflexivity|].
      rewrite <- Hp in *.
      assert (Hne : filename_prefix params <> "") by (rewrite Hp; discriminate).
      pose proof (py_split_second file _ Hne Hok) as Hsecond.
      rewrite (py_split_Ok _ _ Hne) in *. cbn [rbind] in *.
      rewrite Hsecond. reflexivity.
    + reflexivity.
Qed.

(** [X8] When the file name contains the prefix marker, a processed file has
    its identity from the name alone, whatever the random source delivers:
    for an orthomosaic the registry id is what precedes the first underscore
    and the map id what lies between the first and the next prefix marker,
    without extension; for an elevation raster the registry id is what
    precedes the prefix marker and the map id is cut at the suffix marker
    before the extension goes. *)
Theorem wellformed_identity pf params file ds o self :
  file_state pf params file (Opened ds) o = Ok self ->
  contains (filename_prefix params) file = true ->
  let field :=
    before_first (filename_prefix params)
                 (after_first (filename_prefix params) file) in
  (forall o', file_state pf params file (Opened ds) o' = Ok self) /\
  (isMDE self = false ->
   registroid self = before_first "_" file /\
   mapId self = removeExtension pf field) /\
  (isMDE self = true ->
   registroid self = before_first (filename_prefix params) file /\
   mapId self =
     removeExtension pf (before_first (filename_suffix params) field)).
Proof.
  intros Hst Hok field. split.
  - intros o'. revert Hst. unfold file_state, resolve_mapId.
    now rewrite Hok.
  - apply file_state_Ok in Hst
      as (_ & _ & _ & _ & _ & _ & _ & _ & _ & _ & Hmap & Hreg & _).
    rewrite Hok in Hmap, Hreg.
    unfold resolve_mapId in Hmap. unfold resolve_registroid in Hreg.
    assert (Hprefix : filename_prefix params <> "").
    { intros Hp. rewrite Hp in Hmap. now destruct (isMDE self). }
    pose proof (py_split_second file _ Hprefix Hok) as Hsecond.
    pose proof (py_split_head file _ Hprefix) as Hfirst.
    rewrite (py_split_Ok _ _ Hprefix) in *. cbn [rbind] in *.
    fold field in Hsecond.
    split; intros Hkind; rewrite Hkind in Hmap, Hreg.
    + rewrite Hsecond in Hmap. cbn [rbind] in Hmap.
      pose proof (py_split_head file "_" ltac:(discriminate)) as Hus.
      cbn [py_split rbind] in Hus, Hreg. split; congruence.
    + rewrite Hsecond in Hmap. cbn [rbind] in Hmap.
      assert (Hsuffix : filename_suffix params <> "").
      { intros Hs. now rewrite Hs in Hmap. }
      pose proof (py_split_head field _ Hsuffix) as Hmid.
      rewrite (py_split_Ok _ _ Hsuffix) in *. cbn [rbind] in *.
      rewrite Hmid in Hmap. cbn [rbind] in Hmap. split; congruence.
Qed.
End Identity.

Lemma identity_resolved_witness :
  exists m r,
    resolve_mapId Sample.nt Sample.params "REG42_ortho_mapA.tif" false
      (contains "_ortho_" "REG42_ortho_mapA.tif") (fun _ => Byte.xab) = Ok m /\
    resolve_registroid Sample.nt Sample.params "REG42_ortho_mapA.tif" false
      (contains "_ortho_" "REG42_ortho_mapA.tif") = Ok r.
Proof.
  apply (identity_resolved Sample.nt Sample.params "REG42_ortho_mapA.tif"
           false (fun _ => Byte.xab));
    discriminate.
Defined.

Lemma empty_marker_ValueError_witness :
  file_state (lib := Sample.lib) Sample.nt BatchSample.params_no_prefix
    "REG42_ortho_mapA.tif" (Opened Sample.rgba) Sample.oracle =
  Raise ValueError.
Proof.
  apply (empty_marker_ValueError (lib := Sample.lib) Sample.nt
           BatchSample.params_no_prefix "REG42_ortho_mapA.tif" Sample.rgba
           Sample.oracle (Sample.band 6 (Some 0%float)) 0%float);
    [reflexivity | reflexivity | left; reflexivity].
Defined.

Lemma wellformed_identity_witness :
  registroid Sample.self_rgba = before_first "_" "REG42_ortho_mapA.tif" /\
  mapId Sample.self_rgba =
    removeExtension Sample.nt
      (before_first "_ortho_" (after_first "_ortho_" "REG42_ortho_mapA.tif")).
Proof.
  destruct (wellformed_identity (lib := Sample.lib) Sample.nt Sample.params
              "REG42_ortho_mapA.tif" Sample.rgba Sample.oracle
              Sample.self_rgba
              ltac:(vm_compute; reflexivity) ltac:(reflexivity))
    as (_ & Hortho & _).
  exact (Hortho eq_refl).
Defined.

(** ** The outline export and the tile-server export, case by case *)

Section ExportCases.
Context {lib : PyLib}.
Implicit Types (pf : Platform) (params : Params) (file : string)
  (fd : file_ds_var) (o : Oracle) (self : Self) (w : world)
  (src : raster_ref).

(** [X9] [exportOutline] raises in two cases only, both [RuntimeError]: the
    EPSG import fails, and then nothing has been touched; or the raster has
    fewer than four bands, and then only the scratch data source has been
    made.  Otherwise it returns, and it has written one feature exactly when
    the repaired geometry is valid and its simplification is not
    [POLYGON EMPTY]: an invalid or empty outline is skipped, not an error. *)
Theorem exportOutline_outcome pf params self src (nbands : Z) o w :
  (ImportFromEPSG_res o <> 0 ->
   exportOutline pf params self src nbands o w = (Raise RuntimeError, w)) /\
  (ImportFromEPSG_res o = 0 -> nbands < 4 ->
   fst (exportOutline pf params self src nbands o w) = Raise RuntimeError /\
   trace (snd (exportOutline pf params self src nbands o w)) =
     (trace w
      ++ (if tmp_outline_exists o
          then [EvDeleteDataSource (outline_tmp_path pf self)] else [])
      ++ [EvCreateDataSource (outline_tmp_path pf self);
          EvCreateLayer (outline_tmp_path pf self)])%list) /\
  (ImportFromEPSG_res o = 0 -> 4 <= nbands ->
   fst (exportOutline pf params self src nbands o w) = Ok tt /\
   exists evs,
     trace (snd (exportOutline pf params self src nbands o w)) =
       (trace w ++ evs)%list /\
     features evs =
       if repaired_IsValid o &&
          negb (String.eqb (simplified_str o) "POLYGON EMPTY")
       then 1%nat else 0%nat).
Proof.
  unfold exportOutline, outline_tmp_path. split; [|split].
  - intros Hres. apply Z.eqb_neq in Hres. now rewrite Hres.
  - intros -> Hbands. apply Z.ltb_lt in Hbands. rewrite Hbands.
    cbn [Z.eqb negb].
    destruct (tmp_outline_exists o); cbn; now rewrite <- ?app_assoc.
  - intros -> Hbands. apply Z.ltb_ge in Hbands. rewrite Hbands.
    cbn [Z.eqb negb].
    destruct (tmp_outline_exists o), (outline_exists o),
      (repaired_IsValid o), (String.eqb (simplified_str o) "POLYGON EMPTY");
      cbn; rewrite <- ?app_assoc; cbn;
      (split; [reflexivity|]); eexists; (split; [reflexivity|]); reflexivity.
Qed.

Lemma exportStorageFiles_returns params self w :
  fst (exportStorageFiles params self w) = Ok tt /\
  exists evs,
    trace (snd (exportStorageFiles params self w)) = (trace w ++ evs)%list /\
    length (List.filter is_Translate evs) = 1%nat /\
    features evs = 0%nat.
Proof.
  unfold exportStorageFiles.
  destruct (storage_overviews params),
    (storage_exportJSON params && negb (isMDE self)),
    (storage_previews params);
    cbn; rewrite <- ?app_assoc; cbn;
    (split; [reflexivity|]); eexists; (split; [reflexivity|]);
    split; reflexivity.
Qed.

Lemma exportGeoserverFiles_band4 pf params self file o w :
  isMDE self = false ->
  outlines_enabled params = true ->
  ImportFromEPSG_res o = 0 ->
  bandas self < 4 ->
  fst (exportGeoserverFiles pf params self file o w) = Raise RuntimeError /\
  exists evs,
    trace (snd (exportGeoserverFiles pf params self file o w)) =
      (trace w ++ evs)%list /\
    length (List.filter is_Translate evs) = 0%nat /\
    features evs = 0%nat.
Proof.
  intros HisMDE Hout Hres Hbands. apply Z.ltb_lt in Hbands.
  unfold exportGeoserverFiles, exportOutline.
  rewrite HisMDE, Hout, Hres, Hbands. cbn [negb andb Z.eqb].
  destruct (negb (epsg self =? geoserver_epsg params)%Z),
    (tmp_outline_exists o);
    cbn; rewrite <- ?app_assoc; cbn;
    (split; [reflexivity|]); eexists; (split; [reflexivity|]);
    split; reflexivity.
Qed.

(** The body of the loop, once the state is there: the exports run in the
    world with the two tags appended. *)
Lemma process_file_run pf params file fd o self w :
  file_state pf params file fd o = Ok self ->
  process_file pf params file fd o w =
  match exportStorageFiles params self (tagged self w) with
  | (Ok _, w2) =>
      match exportGeoserverFiles pf params self file o w2 with
      | (Ok _, w3) => (Ok self, w3)
      | (Raise e, w3) => (Raise e, w3)
      end
  | (Raise e, w2) => (Raise e, w2)
  end.
Proof.
  intros Hst. unfold process_file, bind, lift. rewrite Hst. reflexivity.
Qed.

(** [X10] With outlines enabled, an orthomosaic of exactly three bands stops
    the run: its archive raster is written, then [exportOutline] asks for
    band 4 and raises [RuntimeError], so the tile-server raster is never
    translated and no outline is written. *)
Theorem three_band_orthomosaic_aborts pf params file fd o self w :
  file_state pf params file fd o = Ok self ->
  bandas self = 3 ->
  outlines_enabled params = true ->
  ImportFromEPSG_res o = 0 ->
  fst (process_file pf params file fd o w) = Raise RuntimeError /\
  exists evs,
    trace (snd (process_file pf params file fd o w)) = (trace w ++ evs)%list /\
    length (List.filter is_Translate evs) = 1%nat /\
    features evs = 0%nat.
Proof.
  intros Hst Hbands Hout Hres.
  assert (HisMDE : isMDE self = false).
  { pose proof Hst as Hst'. apply file_state_Ok in Hst'
      as (ds & _ & _ & _ & _ & _ & Hb & _ & _ & -> & _).
    rewrite <- Hb, Hbands. reflexivity. }
  rewrite (process_file_run _ _ _ _ _ _ _ Hst).
  destruct (exportStorageFiles_returns params self (tagged self w))
    as (Hok & evs1 & Htr1 & Hone & Hnone).
  destruct (exportStorageFiles params self (tagged self w)) as [r w2].
  cbn [fst snd tagged trace] in Hok, Htr1. subst r.
  destruct (exportGeoserverFiles_band4 pf params self file o w2
              HisMDE Hout Hres ltac:(lia))
    as (Hraise & evs2 & Htr2 & Hzero & Hnone2).
  destruct (exportGeoserverFiles pf params self file o w2) as [r w3].
  cbn [fst snd] in Hraise, Htr2. subst r. cbn [fst snd].
  split; [reflexivity|]. exists (evs1 ++ evs2)%list.
  split; [now rewrite Htr2, Htr1, app_assoc|].
  rewrite features_app, List.filter_app, length_app. lia.
Qed.

Lemma exportGeoserverFiles_reads pf params self file o :
  only (reads_from (fileToConvert pf params self file))
       (exportGeoserverFiles pf params self file o).
Proof.
  unfold exportGeoserverFiles, fileToConvert.
  only_tac; exact I || reflexivity.
Qed.

(** [X11] Whatever [exportGeoserverFiles] polygonizes or translates is one
    and the same raster: the warped one when the EPSG codes differ, the
    opened file otherwise.  When it returns, the Translate of that raster to
    the tile-server folder has been issued. *)
Theorem geoserver_reads_one_raster pf params self file o w :
  exists evs,
    trace (snd (exportGeoserverFiles pf params self file o w)) =
      (trace w ++ evs)%list /\
    Forall (reads_from (fileToConvert pf params self file)) evs /\
    (fst (exportGeoserverFiles pf params self file o w) = Ok tt ->
     exists dst kw,
       In (EvTranslate dst (fileToConvert pf params self file) kw) evs).
Proof.
  destruct (exportGeoserverFiles_reads pf params self file o w)
    as (evs & Htr & Hall).
  exists evs. split; [exact Htr|]. split; [exact Hall|].
  revert Htr. unfold exportGeoserverFiles, exportOutline, fileToConvert.
  destruct (negb (epsg self =? geoserver_epsg params)%Z),
    (outlines_enabled params && negb (isMDE self)),
    (negb (ImportFromEPSG_res o =? 0)%Z), (tmp_outline_exists o),
    (bandas self <? 4)%Z, (outline_exists o), (repaired_IsValid o),
    (String.eqb (simplified_str o) "POLYGON EMPTY"),
    (geoserver_overviews params);
    cbn; rewrite <- ?app_assoc; cbn;
    intros Heq;
    first [ apply app_inv_head in Heq
          | rewrite <- (app_nil_r (trace w)) in Heq at 1;
            apply app_inv_head in Heq ];
    subst evs; intros Hok; try discriminate Hok;
    do 2 eexists; cbn; intuition.
Qed.

(** A property of the events of both exports is one of the whole body. *)
Lemma process_file_only (Q : event -> Prop) pf params file fd o :
  (forall self,
     file_state pf params file fd o = Ok self ->
     only Q (exportStorageFiles params self) /\
     only Q (exportGeoserverFiles pf params self file o)) ->
  only Q (process_file pf params file fd o).
Proof.
  intros Hexports. unfold process_file.
  apply only_bind_lift. intros self Hst.
  destruct (Hexports self Hst) as [Hstorage Hgeo].
  do 2 (apply only_bind; [apply only_list_append | intros _]).
  apply only_bind; [exact Hstorage | intros _].
  apply only_bind; [exact Hgeo | intros _; apply only_ret].
Qed.

Lemma exports_nodata pf params self file o :
  let Q e := match nodata_of e with
             | Some a => a = nodata_option self
             | None => True
             end in
  only Q (exportStorageFiles params self) /\
  only Q (exportGeoserverFiles pf params self file o).
Proof.
  split.
  - unfold exportStorageFiles. only_tac; exact I || reflexivity.
  - unfold exportGeoserverFiles. only_tac; exact I || reflexivity.
Qed.

(** [X12] The nodata argument of every Warp and Translate that
    [exportStorageFiles] and [exportGeoserverFiles] issue for a file comes
    from the last band: ['none'] exactly when that band is an alpha band,
    else the band's nodata value with 0 in place of nan.  These calls never
    hand nan to the engine as a nodata value.  (The calls inside the preview
    export are one event of the trace and not among them.) *)
Theorem engine_nodata_never_nan pf params file ds o (b : Band) w :
  last (bands ds) = Some b ->
  exists evs,
    trace (snd (process_file pf params file (Opened ds) o w)) =
      (trace w ++ evs)%list /\
    Forall (nodata_from_band b) evs.
Proof.
  intros Hlast.
  apply (process_file_only (nodata_from_band b)).
  intros self Hst.
  apply file_state_Ok in Hst
    as (ds0 & b0 & v0 & [= <-] & Hlast0 & Hnd & _ & Halpha & Hval & _).
  rewrite Hlast in Hlast0. injection Hlast0 as <-.
  assert (Himp : forall e,
             match nodata_of e with
             | Some a => a = nodata_option self
             | None => True
             end -> nodata_from_band b e).
  { intros e. unfold nodata_from_band, nodata_option.
    destruct (nodata_of e) as [a|]; [|trivial]. intros ->.
    rewrite Halpha. destruct (Z.eqb_spec (ColorInterpretation b) 6) as [He|He].
    - exact He.
    - split; [exact He|]. rewrite Hval. split.
      + now destruct (PrimFloat.is_nan v0) eqn:Hnan.
      + now exists v0. }
  destruct (exports_nodata pf params self file o) as [Hs Hg].
  split; (eapply only_weaken; [exact Himp|]); [exact Hs | exact Hg].
Qed.
End ExportCases.

Lemma exportOutline_outcome_witness :
  fst (exportOutline (lib := Sample.lib) Sample.nt Sample.params Sample.self_rgba source_file 4
         Sample.oracle Sample.world0) = Ok tt.
Proof.
  apply (proj2 (proj2 (exportOutline_outcome (lib := Sample.lib) Sample.nt Sample.params
                         Sample.self_rgba source_file 4 Sample.oracle
                         Sample.world0)));
    [reflexivity | lia].
Defined.

Lemma three_band_orthomosaic_aborts_witness :
  fst (process_file (lib := Sample.lib) Sample.nt Sample.params
         "REG44_ortho_mapC.tif" (Opened BatchSample.rgb) Sample.oracle
         Sample.world0) = Raise RuntimeError.
Proof.
  eapply proj1.
  eapply (three_band_orthomosaic_aborts (lib := Sample.lib) Sample.nt
            Sample.params "REG44_ortho_mapC.tif" (Opened BatchSample.rgb)
            Sample.oracle).
  - vm_compute. reflexivity.
  - reflexivity.
  - reflexivity.
  - reflexivity.
Defined.

Lemma geoserver_reads_one_raster_witness :
  exists evs,
    trace (snd (exportGeoserverFiles (lib := Sample.lib) Sample.nt Sample.params Sample.self_rgba
                  "REG42_ortho_mapA.tif" Sample.oracle Sample.world0)) =
      (trace Sample.world0 ++ evs)%list /\
    Forall (reads_from (written_to "C:\Temp\REG42_ortho_mapA.tif")) evs.
Proof.
  destruct (geoserver_reads_one_raster (lib := Sample.lib) Sample.nt Sample.params
              Sample.self_rgba "REG42_ortho_mapA.tif" Sample.oracle
              Sample.world0) as (evs & Htr & Hall & _).
  exists evs. split; [exact Htr | exact Hall].
Defined.

Lemma engine_nodata_never_nan_witness :
  exists evs,
    trace (snd (process_file (lib := Sample.lib) Sample.nt Sample.params
                  "REG42_ortho_mapA_mde.tif" (Opened Sample.dem)
                  Sample.oracle Sample.world0)) =
      (trace Sample.world0 ++ evs)%list /\
    Forall (nodata_from_band (Sample.band 1 (Some PrimFloat.nan))) evs.
Proof.
  apply (engine_nodata_never_nan (lib := Sample.lib) Sample.nt Sample.params
           "REG42_ortho_mapA_mde.tif" Sample.dem Sample.oracle
           (Sample.band 1 (Some PrimFloat.nan)) Sample.world0).
  reflexivity.
Defined.

(** ** More on the colour ramp and the hillshade merge *)

Lemma sf_number_below (x : spec_float) :
  sf_number x = true -> sf_below x = true.
Proof. now destruct x. Qed.

Lemma float_add_le (x p : float) :
  sf_below (Prim2SF x) = true ->
  sf_nonpos (Prim2SF p) = true ->
  (x + p <=? x)%float = true /\ sf_below (Prim2SF (x + p)) = true.
Proof.
  intros Hx Hp. rewrite FloatAxioms.leb_spec, FloatAxioms.add_spec.
  apply (SFadd_nonpos_le prec emax); try assumption;
    first [reflexivity | apply Prim2SF_valid].
Qed.

Lemma float_add2_le (x p q : float) :
  sf_below (Prim2SF x) = true ->
  sf_nonpos (Prim2SF p) = true ->
  sf_nonpos (Prim2SF q) = true ->
  (x + p + q <=? x)%float = true /\ sf_below (Prim2SF (x + p + q)) = true.
Proof.
  intros Hx Hp Hq.
  destruct (float_add_le x p Hx Hp) as [H1 Hxp].
  destruct (float_add_le (x + p) q Hxp Hq) as [H2 Hxpq].
  split; [exact (float_leb_trans _ _ _ H2 H1) | exact Hxpq].
Qed.

(** For finite percentiles in reversed order, the step and its multiples
    are not positive. *)
Lemma ramp_per_sign_reversed (mn mx : float) :
  PrimFloat.is_finite mn = true ->
  PrimFloat.is_finite mx = true ->
  (mx <=? mn)%float = true ->
  let per := ramp_per mn mx in
  sf_nonpos (Prim2SF per) = true /\
  sf_nonpos (Prim2SF (per * float_of_int 3)) = true /\
  sf_nonpos (Prim2SF (per * float_of_int 2)) = true.
Proof.
  intros Hmn%is_finite_number Hmx%is_finite_number Hle per.
  rewrite FloatAxioms.leb_spec in Hle.
  pose proof (SFleb_units prec emax ltac:(reflexivity) _ _
                (Prim2SF_valid mx) (Prim2SF_valid mn) Hmx Hmn Hle) as Hu.
  change (SpecFloat.emin prec emax) with (-1074) in Hu.
  destruct (SFdiv_two_units _ (Prim2SF_valid mn) Hmn) as [Hnb _].
  destruct (SFdiv_two_units _ (Prim2SF_valid mx) Hmx) as [Hna _].
  pose proof (SFdiv_two_mono _ _ (Prim2SF_valid mx) (Prim2SF_valid mn)
                Hmx Hmn Hu) as Hhalf.
  assert (Hper : sf_nonpos (Prim2SF per) = true).
  { unfold per, ramp_per. cbn [fdiv fsub of_int binary64].
    rewrite FloatAxioms.div_spec, FloatAxioms.sub_spec, !FloatAxioms.div_spec.
    change (Prim2SF (float_of_int 2)) with sf_two.
    change (Prim2SF (float_of_int 7))
      with (S754_finite false 7881299347898368 (-50)).
    apply (SFdiv_nonpos prec emax).
    assert (Hva : SpecFloat.valid_binary prec emax
                    (SFdiv prec emax (Prim2SF mx) sf_two) = true).
    { change sf_two with (Prim2SF (float_of_int 2)).
      rewrite <- FloatAxioms.div_spec. apply Prim2SF_valid. }
    assert (Hvb : SpecFloat.valid_binary prec emax
                    (SFdiv prec emax (Prim2SF mn) sf_two) = true).
    { change sf_two with (Prim2SF (float_of_int 2)).
      rewrite <- FloatAxioms.div_spec. apply Prim2SF_valid. }
    apply (SFsub_nonpos prec emax ltac:(reflexivity));
      first [assumption | exact Hhalf]. }
  split; [exact Hper|]. split.
  - rewrite FloatAxioms.mul_spec.
    change (Prim2SF (float_of_int 3))
      with (S754_finite false 6755399441055744 (-51)).
    now apply (SFmul_nonpos prec emax).
  - rewrite FloatAxioms.mul_spec.
    change (Prim2SF (float_of_int 2)) with sf_two.
    now apply (SFmul_nonpos prec emax).
Qed.

(** In binary64, for finite percentiles in reversed order, the breakpoints
    never go up. *)
Lemma ramp_sorted_reversed_binary64 (fuel : nat) (mn mx : float) :
  (7 <= fuel)%nat ->
  PrimFloat.is_finite mn = true ->
  PrimFloat.is_finite mx = true ->
  (mx <=? mn)%float = true ->
  exists l,
    getMdeColorValues fuel mn mx = Some (Ok l) /\
    length l = 7%nat /\
    head l = Some mn /\
    Sorted (fun x y => (y <=? x)%float = true) l.
Proof.
  intros Hfuel Hfmn Hfmx Hle.
  destruct (ramp_per_sign_reversed mn mx Hfmn Hfmx Hle) as (Hp & Hp3 & Hp2).
  rewrite (getMdeColorValues_fuel _ _ _ Hfuel).
  unfold getMdeColorValues. cbn [isnan binary64].
  rewrite (is_finite_not_nan _ Hfmn), (is_finite_not_nan _ Hfmx).
  cbn [orb]. rewrite ramp_loop_unrolled. cbn [colorValues].
  cbn [fadd fmul of_int binary64].
  set (per := ramp_per mn mx) in *.
  eexists. split; [reflexivity|]. split; [reflexivity|].
  split; [reflexivity|].
  pose proof (sf_number_below _ (is_finite_number _ Hfmn)) as H0.
  destruct (float_add_le mn per H0 Hp) as [L1 H1].
  destruct (float_add2_le _ per per H1 Hp Hp) as [L2 H2].
  destruct (float_add_le _ per H2 Hp) as [L3 H3].
  destruct (float_add2_le _ per _ H3 Hp Hp3) as [L4 H4].
  destruct (float_add2_le _ per _ H4 Hp Hp2) as [L5 H5].
  destruct (float_add2_le _ per _ H5 Hp Hp2) as [L6 H6].
  repeat (constructor; [|try (constructor; assumption)]). constructor.
Qed.

(** For the percentiles 1e16 and 1e16 + 2 the step is lost in every
    addition: the seven breakpoints are equal, though the percentiles
    differ. *)
Lemma ramp_absorbs_step :
  (10000000000000000 <? 10000000000000002)%float = true /\
  getMdeColorValues 7 10000000000000000%float 10000000000000002%float =
    Some (Ok (repeat 10000000000000000%float 7)).
Proof. split; [reflexivity | vm_compute; reflexivity]. Qed.

(** [X13] In binary64 the ramp follows the order of its two finite
    percentiles: it never goes down when [trimmedMin <= trimmedMax] and
    never goes up when they come reversed.  (It need not go up either, see
    [ramp_absorbs_step].) *)
Theorem ramp_order (fuel : nat) (trimmedMin trimmedMax : float) :
  (7 <= fuel)%nat ->
  PrimFloat.is_finite trimmedMin = true ->
  PrimFloat.is_finite trimmedMax = true ->
  exists l,
    getMdeColorValues fuel trimmedMin trimmedMax = Some (Ok l) /\
    ((trimmedMin <=? trimmedMax)%float = true ->
     Sorted (fun x y => (x <=? y)%float = true) l) /\
    ((trimmedMax <=? trimmedMin)%float = true ->
     Sorted (fun x y => (y <=? x)%float = true) l).
Proof.
  intros Hfuel Hfmn Hfmx.
  destruct (getMdeColorValues_shape (F := binary64) trimmedMin trimmedMax
              fuel Hfuel) as (l & Hl & _).
  { cbn [isnan binary64].
    now rewrite (is_finite_not_nan _ Hfmn), (is_finite_not_nan _ Hfmx). }
  exists l. split; [exact Hl|]. split; intros Hle.
  - destruct (ramp_sorted_binary64 fuel _ _ Hfuel Hfmn Hfmx Hle)
      as (l' & Hl' & _ & _ & Hs). congruence.
  - destruct (ramp_sorted_reversed_binary64 fuel _ _ Hfuel Hfmn Hfmx Hle)
      as (l' & Hl' & _ & _ & Hs). congruence.
Qed.

Lemma ramp_order_witness :
  exists l,
    getMdeColorValues 7 1%float 0%float = Some (Ok l) /\
    Sorted (fun x y => (y <=? x)%float = true) l.
Proof.
  destruct (ramp_order 7 1%float 0%float (le_n 7) eq_refl eq_refl)
    as (l & Hl & _ & Hrev).
  exists l. split; [exact Hl | apply Hrev; reflexivity].
Defined.

(** [X14] In binary64 the ramp computation raises [RuntimeError] exactly
    when a percentile is nan; otherwise it returns its seven values. *)
Theorem percentile_nan_RuntimeError (fuel : nat) (trimmedMin trimmedMax : float) :
  (7 <= fuel)%nat ->
  (getMdeColorValues fuel trimmedMin trimmedMax = Some (Raise RuntimeError) <->
   PrimFloat.is_nan trimmedMax || PrimFloat.is_nan trimmedMin = true) /\
  (PrimFloat.is_nan trimmedMax || PrimFloat.is_nan trimmedMin = false ->
   exists l, getMdeColorValues fuel trimmedMin trimmedMax = Some (Ok l)).
Proof.
  intros Hfuel.
  destruct (PrimFloat.is_nan trimmedMax || PrimFloat.is_nan trimmedMin) eqn:Hnan.
  - split; [|discriminate]. split; [reflexivity|]. intros _.
    unfold getMdeColorValues. cbn [isnan binary64]. now rewrite Hnan.
  - destruct (getMdeColorValues_shape (F := binary64) trimmedMin trimmedMax
                fuel Hfuel Hnan) as (l & Hl & _).
    split; [|now exists l]. rewrite Hl. split; discriminate.
Qed.

Lemma percentile_nan_RuntimeError_witness :
  (7 <= 7)%nat /\
  getMdeColorValues 7 0%float PrimFloat.nan = Some (Raise RuntimeError).
Proof.
  split; [lia|].
  apply (proj1 (percentile_nan_RuntimeError 7 0%float PrimFloat.nan (le_n 7))).
  reflexivity.
Defined.

Lemma all_bytes2_spec (f : Z -> Z -> bool) (A B : Z) :
  all_bytes2 f = true -> 0 <= A <= 255 -> 0 <= B <= 255 -> f A B = true.
Proof.
  unfold all_bytes2. intros Hall HA HB.
  rewrite forallb_forall in Hall.
  specialize (Hall A (byte_values_spec A HA)).
  rewrite forallb_forall in Hall. exact (Hall B (byte_values_spec B HB)).
Qed.

Lemma soft_light_table :
  all_bytes2 (fun A B =>
    (0 <=? soft_light A B) && (soft_light A B <=? 255) &&
    (if A <? 128 then soft_light A B <=? B else B <=? soft_light A B)) = true.
Proof. vm_compute. reflexivity. Qed.

(** [X15] The merge expression stays a Byte value for all Byte inputs: it
    darkens the colour where the shade is below 128 and lightens it from 128
    on. *)
Theorem soft_light_range (A B : Z) :
  0 <= A <= 255 -> 0 <= B <= 255 ->
  0 <= soft_light A B <= 255 /\
  (A < 128 -> soft_light A B <= B) /\
  (128 <= A -> B <= soft_light A B).
Proof.
  intros HA HB.
  pose proof (all_bytes2_spec _ A B soft_light_table HA HB) as H.
  cbv beta in H. apply andb_prop in H as [H Hside].
  apply andb_prop in H as [Hlo Hhi].
  apply Z.leb_le in Hlo, Hhi. split; [lia|].
  destruct (Z.ltb_spec A 128); apply Z.leb_le in Hside; split; lia.
Qed.

Lemma soft_light_range_witness :
  0 <= 200 <= 255 /\ 0 <= 100 <= 255 /\ 100 <= soft_light 200 100 <= 255.
Proof.
  split; [lia|]. split; [lia|].
  destruct (soft_light_range 200 100 ltac:(lia) ltac:(lia)) as (Hr & _ & Hup).
  split; [apply Hup; lia | apply Hr].
Defined.

Lemma dark_values_spec (a : Z) : 0 <= a <= 127 -> In a dark_values.
Proof.
  intros Ha. unfold dark_values. apply in_map_iff.
  exists (Z.to_nat a). split; [lia|]. apply in_seq. lia.
Qed.

Lemma soft_light_dark_table :
  forallb (fun a => forallb (fun B =>
    (soft_light a B <=? 254) &&
    ((a =? 127) || (soft_light a B <=? soft_light (a + 1) B)) &&
    ((B =? 255) || (soft_light a B <=? soft_light a (B + 1))))
    byte_values) dark_values = true.
Proof. vm_compute. reflexivity. Qed.

Lemma gamma_hillshade_half (A : Z) :
  0 <= A <= 255 -> gamma_hillshade A = A / 2.
Proof.
  intros HA. pose proof gamma_hillshade_table as Htable.
  rewrite forallb_forall in Htable.
  specialize (Htable A (byte_values_spec A HA)). now apply Z.eqb_eq.
Qed.

Lemma soft_light_dark (a b : Z) :
  0 <= a <= 127 -> 0 <= b <= 255 ->
  soft_light a b <= 254 /\
  (a < 127 -> soft_light a b <= soft_light (a + 1) b) /\
  (b < 255 -> soft_light a b <= soft_light a (b + 1)).
Proof.
  intros Ha Hb. pose proof soft_light_dark_table as H.
  rewrite forallb_forall in H. specialize (H a (dark_values_spec a Ha)).
  rewrite forallb_forall in H. specialize (H b (byte_values_spec b Hb)).
  cbv beta in H. apply andb_prop in H as [H Hb'].
  apply andb_prop in H as [Hw Ha'].
  apply Z.leb_le in Hw. apply orb_prop in Ha', Hb'.
  split; [exact Hw|]. split; intros Hlt.
  - destruct Ha' as [H|H]; [apply Z.eqb_eq in H; lia | now apply Z.leb_le in H].
  - destruct Hb' as [H|H]; [apply Z.eqb_eq in H; lia | now apply Z.leb_le in H].
Qed.

(** A function that does not fall from one value to the next does not fall
    at all, here between 0 and [top]. *)
Lemma step_monotone (top : Z) (f : Z -> Z) :
  (forall x, 0 <= x < top -> f x <= f (x + 1)) ->
  forall x y, 0 <= x -> x <= y -> y <= top -> f x <= f y.
Proof.
  intros Hstep x y Hx Hxy Hy.
  replace y with (x + Z.of_nat (Z.to_nat (y - x))) in * by lia.
  revert Hy. generalize (Z.to_nat (y - x)) as n. clear Hxy.
  induction n as [|n IH]; intros Hy.
  - replace (x + Z.of_nat 0) with x by lia. lia.
  - transitivity (f (x + Z.of_nat n)); [apply IH; lia|].
    replace (x + Z.of_nat (S n)) with (x + Z.of_nat n + 1) by lia.
    apply Hstep. lia.
Qed.

(** [X16] After the gamma expression the shade is below 128, so the merge only
    ever darkens: a pixel of the coloured hillshade is never brighter than
    the colour it shades and never full white, and it grows with the shade
    and with the colour. *)
Theorem colored_hillshade_darkens (A B : Z) :
  0 <= A <= 255 -> 0 <= B <= 255 ->
  gamma_hillshade A < 128 /\
  0 <= colored_hillshade A B <= B /\
  colored_hillshade A B <= 254 /\
  (forall A' B', A <= A' <= 255 -> B <= B' <= 255 ->
                 colored_hillshade A B <= colored_hillshade A' B').
Proof.
  intros HA HB. unfold colored_hillshade.
  rewrite (gamma_hillshade_half A HA).
  assert (Hhalf : 0 <= A / 2 <= 127) by (Z.div_mod_to_equations; lia).
  destruct (soft_light_range (A / 2) B ltac:(lia) HB) as (Hr & Hdark & _).
  destruct (soft_light_dark (A / 2) B Hhalf HB) as (Hw & _).
  split; [lia|]. split; [lia|]. split; [exact Hw|].
  intros A' B' HA' HB'. rewrite (gamma_hillshade_half A') by lia.
  assert (Hhalf' : A / 2 <= A' / 2 <= 127) by (Z.div_mod_to_equations; lia).
  transitivity (soft_light (A' / 2) B).
  - apply (step_monotone 127 (fun a => soft_light a B)); try lia.
    intros x Hx. apply soft_light_dark; lia.
  - apply (step_monotone 255 (fun b => soft_light (A' / 2) b)); try lia.
    intros x Hx. apply soft_light_dark; lia.
Qed.

Lemma colored_hillshade_darkens_witness :
  0 <= 255 <= 255 /\ colored_hillshade 255 255 <= 254.
Proof.
  split; [lia|].
  apply (colored_hillshade_darkens 255 255); lia.
Defined.

(** ** The files of the elevation preview *)

Lemma append_inv_head (p a b : string) :
  (p ++ a)%string = (p ++ b)%string -> a = b.
Proof.
  induction p as [|c p IH]; cbn [String.append]; [easy|].
  intros E. injection E as E. now apply IH.
Qed.

Lemma last_char_app (s t : string) :
  t <> EmptyString -> last_char (s ++ t) = last_char t.
Proof.
  intros Ht. induction s as [|c s IH]; [reflexivity|].
  change (String c s ++ t)%string with (String c (s ++ t)).
  cbn [last_char]. rewrite IH.
  destruct (s ++ t)%string eqn:E; [|reflexivity].
  destruct s; [destruct (Ht E) | discriminate E].
Qed.

Section PreviewFiles.
Context {txt : PyText}.
Variable pf : Platform.
Variable params : Params.
Variable style : StyleMDE.
Implicit Types (w : hs_world) (self : Self).

Lemma rgb_palette_length (colors rgb : list string) :
  rgb_palette colors = Ok rgb -> length rgb = length colors.
Proof.
  revert rgb. induction colors as [|x rest IH]; intros rgb; cbn.
  - now intros [= <-].
  - destruct (getcolor_RGB x); cbn; [|discriminate].
    destruct (rgb_palette rest); cbn; [|discriminate].
    intros [= <-]. cbn. f_equal. now apply IH.
Qed.

(** The loop writes, in order, one chunk for each index below [n] that both
    lists have, and stops with [IndexError] at the first index one of them
    lacks. *)
Lemma write_loop (chunk : float -> string -> string) (path : string) (n : nat)
    (colorValues : list float) (colors : list string) (fuel i : nat) w :
  (n - i <= fuel)%nat ->
  exists st,
    while_loop (write_cond n) (write_body chunk path colorValues colors) fuel
               (WriteState i None w) = Some st /\
    ws_exc st =
      (if (n <=? Nat.max i (Nat.min (length colorValues) (length colors)))%nat
       then None else Some IndexError) /\
    ws_world st =
      foldl (fun w c => write_to path c w) w
            (take (n - i) (zip_with chunk (drop i colorValues) (drop i colors))).
Proof.
  revert i w. induction fuel as [|fuel IH]; intros i w Hfuel.
  - assert (Hc : write_cond n (WriteState i None w) = false).
    { unfold write_cond; cbn. apply Nat.ltb_ge. lia. }
    cbn [while_loop]. rewrite Hc. eexists. split; [reflexivity|]. cbn.
    replace (n - i)%nat with 0%nat by lia. split; [|reflexivity].
    destruct (Nat.leb_spec n (Nat.max i (Nat.min (length colorValues) (length colors))));
      [reflexivity | lia].
  - cbn [while_loop]. unfold write_cond at 1. cbn [ws_exc ws_i].
    destruct (Nat.ltb_spec i n) as [Hlt|Hge].
    + unfold write_body at 2. cbn [ws_i ws_world].
      destruct (colorValues !! i) as [v|] eqn:Hv.
      * destruct (colors !! i) as [c|] eqn:Hc.
        -- destruct (IH (S i) (write_to path (chunk v c) w)) as (st & Hrun & Hexc & Hw);
             [lia|].
           exists st. split; [exact Hrun|]. split.
           ++ rewrite Hexc.
              apply lookup_lt_Some in Hv, Hc.
              destruct (Nat.leb_spec n (Nat.max (S i) (Nat.min (length colorValues) (length colors))));
                destruct (Nat.leb_spec n (Nat.max i (Nat.min (length colorValues) (length colors))));
                try reflexivity; lia.
           ++ rewrite Hw. rewrite (drop_S _ _ _ Hv), (drop_S _ _ _ Hc).
              replace (n - i)%nat with (S (n - S i)) by lia. reflexivity.
        -- exists (WriteState i (Some IndexError) w).
           split; [destruct fuel; reflexivity|]. cbn.
           apply lookup_ge_None in Hc.
           rewrite (drop_ge colors) by exact Hc.
           rewrite zip_with_nil_r, take_nil. split; [|reflexivity].
           destruct (Nat.leb_spec n (Nat.max i (Nat.min (length colorValues) (length colors))));
             [lia | reflexivity].
      * exists (WriteState i (Some IndexError) w).
        split; [destruct fuel; reflexivity|]. cbn.
        apply lookup_ge_None in Hv.
        rewrite (drop_ge colorValues) by exact Hv. cbn.
        rewrite take_nil. split; [|reflexivity].
        destruct (Nat.leb_spec n (Nat.max i (Nat.min (length colorValues) (length colors))));
          [lia | reflexivity].
    + eexists. split; [reflexivity|]. cbn.
      replace (n - i)%nat with 0%nat by lia. split; [|reflexivity].
      destruct (Nat.leb_spec n (Nat.max i (Nat.min (length colorValues) (length colors))));
        [reflexivity | lia].
Qed.

Lemma write_all (path : string) (chunks cs : list string) w :
  fs w !! path = Some (Text cs) ->
  foldl (fun w c => write_to path c w) w chunks =
  HsWorld (<[path := Text (cs ++ chunks)]> (fs w)) (GDAL_PAM_ENABLED w).
Proof.
  revert cs w. induction chunks as [|c chunks IH]; intros cs w Hp.
  - cbn. rewrite app_nil_r, insert_id by exact Hp. now destruct w.
  - cbn [foldl]. rewrite (IH (cs ++ [c])%list).
    + cbn. f_equal. rewrite <- app_assoc. cbn.
      apply map_eq. intros q. destruct (decide (path = q)) as [<-|Hq].
      * now rewrite !lookup_insert_eq.
      * rewrite !lookup_insert_ne by exact Hq. now rewrite lookup_alter_ne.
    + cbn. rewrite lookup_alter_eq, Hp. reflexivity.
Qed.

(** [write_entries] on a file that holds [cs]. *)
Lemma write_entries_run (chunk : float -> string -> string) (path : string)
    (colorValues : list float) (colors cs : list string) (fuel : nat) w :
  (length colors <= fuel)%nat ->
  fs w !! path = Some (Text cs) ->
  write_entries chunk path (length colors) colorValues colors fuel w =
  Some (if (length colors <=? length colorValues)%nat
        then Done tt else Failed (PyExn IndexError),
        HsWorld (<[path := Text (cs ++ zip_with chunk colorValues colors)]> (fs w))
                (GDAL_PAM_ENABLED w)).
Proof.
  intros Hfuel Hp. unfold write_entries.
  destruct (write_loop chunk path (length colors) colorValues colors fuel 0 w)
    as (st & -> & Hexc & Hw); [lia|].
  rewrite Hexc, Hw. cbn [drop]. rewrite Nat.sub_0_r.
  rewrite (take_ge _ (length colors))
    by (rewrite length_zip_with; apply Nat.le_min_r).
  rewrite (write_all _ _ cs) by exact Hp.
  f_equal. f_equal.
  destruct (Nat.leb_spec (length colors) (Nat.max 0 (Nat.min (length colorValues) (length colors))));
    destruct (Nat.leb_spec (length colors) (length colorValues));
    try reflexivity; lia.
Qed.

Lemma exportSld_run self (colorValues : list float) (fuel : nat) w :
  (length (palette style) <= fuel)%nat ->
  exportSld params style self colorValues fuel w =
  Some (if (length (palette style) <=? length colorValues)%nat
        then Done tt else Failed (PyExn IndexError),
        HsWorld (<[sld_path params self := Text (sld_text style colorValues)]> (fs w))
                (GDAL_PAM_ENABLED w)).
Proof.
  intros Hfuel. unfold exportSld, hbind, open_w, write, sld_text.
  unfold write_to at 1. cbn [fs GDAL_PAM_ENABLED].
  rewrite alter_insert_eq. cbn [add_chunk app].
  rewrite (write_entries_run _ _ _ _ [sld_header]); [|exact Hfuel|].
  2:{ cbn. apply lookup_insert_eq. }
  cbn [fs GDAL_PAM_ENABLED]. rewrite insert_insert_eq.
  destruct (length (palette style) <=? length colorValues)%nat.
  - unfold write_to. cbn [fs GDAL_PAM_ENABLED]. rewrite alter_insert_eq. reflexivity.
  - now rewrite app_nil_r.
Qed.

Lemma last_char_neq (p q : string) : last_char p <> last_char q -> p <> q.
Proof. intros Hn ->. now apply Hn. Qed.

Lemma temp_neq (a b : string) :
  a <> b -> (TEMP_FOLDER pf ++ a)%string <> (TEMP_FOLDER pf ++ b)%string.
Proof. intros Hn E. apply Hn. exact (append_inv_head _ _ _ E). Qed.

Lemma last_char_temp (a : string) :
  a <> EmptyString -> last_char (TEMP_FOLDER pf ++ a) = last_char a.
Proof. apply last_char_app. Qed.

Lemma last_char_preview self :
  last_char (preview_path params self) = Some "g"%char.
Proof.
  unfold preview_path.
  transitivity (last_char (String "/" (outputFilename self ++ ".jpg"))).
  { apply last_char_app. discriminate. }
  transitivity (last_char (outputFilename self ++ ".jpg")%string).
  { apply (last_char_app "/").
    intros E. destruct (outputFilename self); discriminate E. }
  now rewrite last_char_app.
Qed.

Lemma last_char_sld self : last_char (sld_path params self) = Some "d"%char.
Proof.
  unfold sld_path.
  transitivity (last_char (String "\" (outputFilename self ++ ".sld"))).
  { apply last_char_app. discriminate. }
  transitivity (last_char (outputFilename self ++ ".sld")%string).
  { apply (last_char_app "\").
    intros E. destruct (outputFilename self); discriminate E. }
  now rewrite last_char_app.
Qed.

Ltac path_neq :=
  unfold tmpColorRelief, tmpHillshade, tmpGammaHillshade, tmpColoredHillshade,
    tmpColoredHillshadeContrast, tmpFileColorPath, tmpGeotiffCompressed;
  first
    [ apply temp_neq; discriminate
    | apply last_char_neq;
      rewrite ?last_char_preview, ?last_char_sld,
        ?last_char_temp by discriminate;
      discriminate ].

Ltac fs_lookup :=
  cbn [fs GDAL_PAM_ENABLED];
  repeat first
    [ rewrite lookup_insert_eq
    | rewrite lookup_delete_eq
    | rewrite lookup_insert_ne by path_neq
    | rewrite lookup_delete_ne by path_neq ].

Lemma os_remove_present (p : string) (c : file_content) w :
  fs w !! p = Some c ->
  os_remove p w =
  Some (Done tt, HsWorld (delete p (fs w)) (GDAL_PAM_ENABLED w)).
Proof. intros Hp. unfold os_remove. now rewrite Hp. Qed.

(** [getColoredHillshade] when the ramp is found, the palette is no longer
    than the ramp and its colours are known. *)
Lemma getColoredHillshade_run self (mn mx : float) (fuel : nat)
    (cv : list float) (rgb : list string) w :
  (7 <= fuel)%nat ->
  getMdeColorValues fuel mn mx = Some (Ok cv) ->
  length cv = 7%nat ->
  (length (palette style) <= 7)%nat ->
  rgb_palette (palette style) = Ok rgb ->
  exists m,
    getColoredHillshade pf params style self mn mx fuel w =
      Some (Done (tmpColoredHillshadeContrast pf),
            HsWorld m (GDAL_PAM_ENABLED w)) /\
    m !! tmpColoredHillshadeContrast pf = Some Raster /\
    m !! tmpGeotiffCompressed pf = Some Raster /\
    m !! tmpColorRelief pf = None /\
    m !! tmpHillshade pf = None /\
    m !! tmpGammaHillshade pf = None /\
    m !! tmpFileColorPath pf = None /\
    m !! tmpColoredHillshade pf = None /\
    m !! sld_path params self =
      (if export_sld style then Some (Text (sld_text style cv))
       else fs w !! sld_path params self) /\
    m !! preview_path params self = fs w !! preview_path params self.
Proof.
  intros Hfuel Hcv Hlen Hpal Hrgb.
  assert (Hrl := rgb_palette_length _ _ Hrgb).
  unfold getColoredHillshade.
  unfold hbind at 1. unfold create_raster at 1.
  unfold hbind at 1. rewrite Hcv. unfold hlift at 1, hret at 1.
  unfold hbind at 1.
  assert (Hsld : forall w0, exists m0,
            hwhen (export_sld style) (exportSld params style self cv fuel) w0 =
              Some (Done tt, HsWorld m0 (GDAL_PAM_ENABLED w0)) /\
            m0 = (if export_sld style
                  then <[sld_path params self := Text (sld_text style cv)]> (fs w0)
                  else fs w0)).
  { intros w0. unfold hwhen. destruct (export_sld style).
    - rewrite exportSld_run by lia.
      replace (length (palette style) <=? length cv)%nat with true
        by (symmetry; apply Nat.leb_le; lia).
      eexists; split; reflexivity.
    - exists (fs w0). split; [now destruct w0 | reflexivity]. }
  match goal with
  | |- context [hwhen _ _ ?w0] => destruct (Hsld w0) as (m0 & -> & Hm0)
  end.
  cbn [fs GDAL_PAM_ENABLED] in Hm0.
  unfold hbind at 1, open_w at 1. cbn [fs GDAL_PAM_ENABLED].
  unfold hbind at 1. rewrite Hrgb. unfold hlift at 1, hret at 1.
  unfold hbind at 1.
  rewrite <- Hrl.
  rewrite (write_entries_run _ _ _ _ []) by first [lia | apply lookup_insert_eq].
  replace (length rgb <=? length cv)%nat with true
    by (symmetry; apply Nat.leb_le; lia).
  cbn [fs GDAL_PAM_ENABLED app]. rewrite insert_insert_eq.
  do 5 (unfold hbind at 1; unfold create_raster at 1; cbn [fs GDAL_PAM_ENABLED]).
  do 5 (unfold hbind at 1;
        erewrite os_remove_present by (fs_lookup; reflexivity);
        cbn [fs GDAL_PAM_ENABLED]).
  unfold hret. eexists. split; [reflexivity|].
  subst m0.
  repeat split; fs_lookup; try reflexivity;
    destruct (export_sld style); fs_lookup; reflexivity.
Qed.

(** [X17] [exportSld] leaves in the [.sld] file the header, then one entry
    for each ramp value paired with its palette colour, in order, and
    touches no other file.  It completes, and the footer is written, exactly
    when the palette is no longer than the ramp; otherwise it stops with
    [IndexError] and the file ends after the last entry. *)
Theorem exportSld_file self (colorValues : list float) (fuel : nat) w :
  (length (palette style) <= fuel)%nat ->
  exists out w',
    exportSld params style self colorValues fuel w = Some (out, w') /\
    fs w' !! sld_path params self =
      Some (Text ((sld_header
                   :: zip_with sld_entry colorValues (palette style))
                  ++ (if out is Done _ then [sld_footer] else []))) /\
    (out = Done tt <-> (length (palette style) <= length colorValues)%nat) /\
    (out <> Done tt -> out = Failed (PyExn IndexError)) /\
    (forall q, q <> sld_path params self -> fs w' !! q = fs w !! q) /\
    GDAL_PAM_ENABLED w' = GDAL_PAM_ENABLED w.
Proof.
  intros Hfuel. rewrite exportSld_run by exact Hfuel.
  do 2 eexists. split; [reflexivity|]. cbn [fs GDAL_PAM_ENABLED].
  rewrite lookup_insert_eq. unfold sld_text.
  destruct (Nat.leb_spec (length (palette style)) (length colorValues)) as [Hle|Hgt].
  - repeat split; try easy.
    intros q Hq. now rewrite lookup_insert_ne.
  - repeat split; try easy; try lia.
    intros q Hq. now rewrite lookup_insert_ne.
Qed.

(** [X18] The preview of an elevation raster, when both percentiles are
    numbers, the palette has at most seven colours and all of them are
    known: the call completes, the preview exists, the metadata option is
    enabled again, and of the seven scratch files six are gone while
    [mde_compress.tif] stays behind. *)
Theorem preview_scratch_files self (mn mx : float) (fuel : nat)
    (rgb : list string) w :
  isMDE self = true ->
  (7 <= fuel)%nat ->
  isnan mx || isnan mn = false ->
  (length (palette style) <= 7)%nat ->
  rgb_palette (palette style) = Ok rgb ->
  exists w',
    exportStoragePreview pf params style self mn mx fuel w =
      Some (Done tt, w') /\
    GDAL_PAM_ENABLED w' = true /\
    fs w' !! preview_path params self = Some Raster /\
    fs w' !! tmpGeotiffCompressed pf = Some Raster /\
    Forall (fun p => fs w' !! p = None) (scratch_paths pf).
Proof.
  intros Hmde Hfuel Hnan Hpal Hrgb.
  destruct (getMdeColorValues_shape mn mx fuel Hfuel Hnan)
    as (cv & Hcv & Hlen & _).
  unfold exportStoragePreview. rewrite Hmde.
  unfold hbind at 1, SetConfigOption_PAM at 1.
  unfold hbind at 1. unfold hbind at 1.
  destruct (getColoredHillshade_run self mn mx fuel cv rgb
              (HsWorld (fs w) false) Hfuel Hcv Hlen Hpal Hrgb)
    as (m & -> & Hc & Hk & H1 & H2 & H3 & H4 & H5 & _ & _).
  unfold hret at 1.
  unfold hbind at 1, create_raster at 1. cbn [fs GDAL_PAM_ENABLED].
  unfold hbind at 1.
  erewrite os_remove_present by (fs_lookup; exact Hc).
  unfold SetConfigOption_PAM. cbn [fs GDAL_PAM_ENABLED].
  eexists. split; [reflexivity|]. cbn [fs GDAL_PAM_ENABLED].
  split; [reflexivity|]. split; [now fs_lookup|]. split; [now fs_lookup|].
  unfold scratch_paths. repeat constructor; now fs_lookup.
Qed.

(** [X19] The preview of an elevation raster fails when a percentile is
    nan, when the palette has more than seven colours, or when one of its
    colours is unknown.  Then no preview is written, [mde_compress.tif] is
    left behind, and the metadata option stays disabled. *)
Theorem preview_failure self (mn mx : float) (fuel : nat) w :
  isMDE self = true ->
  (7 <= fuel)%nat ->
  (length (palette style) <= fuel)%nat ->
  isnan mx || isnan mn = true \/
  (7 < length (palette style))%nat \/
  (exists e, rgb_palette (palette style) = Raise e) ->
  exists e w',
    exportStoragePreview pf params style self mn mx fuel w =
      Some (Failed (PyExn e), w') /\
    GDAL_PAM_ENABLED w' = false /\
    fs w' !! tmpGeotiffCompressed pf = Some Raster /\
    fs w' !! preview_path params self = fs w !! preview_path params self.
Proof.
  intros Hmde Hfuel Hfuel' Hcase.
  unfold exportStoragePreview. rewrite Hmde.
  unfold hbind at 1, SetConfigOption_PAM at 1.
  unfold hbind at 1. unfold hbind at 1.
  unfold getColoredHillshade.
  unfold hbind at 1, create_raster at 1. cbn [fs GDAL_PAM_ENABLED].
  unfold hbind at 1.
  destruct (isnan mx || isnan mn) eqn:Hnan.
  { unfold getMdeColorValues. rewrite Hnan.
    unfold hlift, hraise.
    do 2 eexists. split; [reflexivity|]. cbn [fs GDAL_PAM_ENABLED].
    split; [reflexivity|]. split; now fs_lookup. }
  destruct (getMdeColorValues_shape mn mx fuel Hfuel Hnan)
    as (cv & -> & Hlen & _).
  unfold hlift at 1, hret at 1. unfold hbind at 1.
  destruct Hcase as [Hcase | Hcase]; [discriminate|].
  unfold hwhen. destruct (export_sld style) eqn:Hexp.
  - rewrite exportSld_run by exact Hfuel'. rewrite Hlen.
    destruct (Nat.leb_spec (length (palette style)) 7) as [Hle|Hgt].
    + destruct Hcase as [Hcase | (e & He)]; [lia|].
      unfold hbind at 1, open_w at 1. cbn [fs GDAL_PAM_ENABLED].
      unfold hbind at 1. rewrite He. unfold hlift, hraise.
      do 2 eexists. split; [reflexivity|]. cbn [fs GDAL_PAM_ENABLED].
      split; [reflexivity|]. split; now fs_lookup.
    + do 2 eexists. split; [reflexivity|]. cbn [fs GDAL_PAM_ENABLED].
      split; [reflexivity|]. split; now fs_lookup.
  - unfold hret at 1.
    unfold hbind at 1, open_w at 1. cbn [fs GDAL_PAM_ENABLED].
    unfold hbind at 1.
    destruct (rgb_palette (palette style)) as [rgb|e] eqn:Hrgb.
    + destruct Hcase as [Hcase | (e & He)]; [|discriminate].
      assert (Hrl := rgb_palette_length _ _ Hrgb).
      unfold hlift at 1, hret at 1. unfold hbind at 1.
      rewrite <- Hrl.
      rewrite (write_entries_run _ _ _ _ [])
        by first [lia | apply lookup_insert_eq].
      replace (length rgb <=? length cv)%nat with false
        by (symmetry; apply Nat.leb_gt; lia).
      do 2 eexists. split; [reflexivity|]. cbn [fs GDAL_PAM_ENABLED].
      split; [reflexivity|]. split; now fs_lookup.
    + unfold hlift, hraise.
      do 2 eexists. split; [reflexivity|]. cbn [fs GDAL_PAM_ENABLED].
      split; [reflexivity|]. split; now fs_lookup.
Qed.
End PreviewFiles.

Lemma exportSld_file_witness :
  exists out w',
    exportSld (txt := PreviewSample.text) Sample.params PreviewSample.style
      PreviewSample.self_dem [0%float; 1%float] 2 PreviewSample.files0 =
      Some (out, w') /\
    out = Done tt.
Proof.
  destruct (exportSld_file (txt := PreviewSample.text) Sample.params
              PreviewSample.style PreviewSample.self_dem [0%float; 1%float] 2
              PreviewSample.files0 ltac:(cbn; lia))
    as (out & w' & Hrun & _ & Hdone & _).
  exists out, w'. split; [exact Hrun|]. apply Hdone. cbn. lia.
Defined.

Lemma preview_scratch_files_witness :
  exists w',
    exportStoragePreview (txt := PreviewSample.text) Sample.nt Sample.params
      PreviewSample.style PreviewSample.self_dem 0%float 14%float 7
      PreviewSample.files0 = Some (Done tt, w') /\
    GDAL_PAM_ENABLED w' = true /\
    fs w' !! tmpGeotiffCompressed Sample.nt = Some Raster.
Proof.
  destruct (preview_scratch_files (txt := PreviewSample.text) Sample.nt
              Sample.params PreviewSample.style PreviewSample.self_dem
              0%float 14%float 7 ["0 0 0"; "255 255 255"]
              PreviewSample.files0
              ltac:(reflexivity) ltac:(lia) ltac:(reflexivity)
              ltac:(cbn; lia) ltac:(reflexivity))
    as (w' & Hrun & Hpam & _ & Hk & _).
  exists w'. split; [exact Hrun|]. split; [exact Hpam | exact Hk].
Defined.

Lemma preview_failure_witness :
  exists e w',
    exportStoragePreview (txt := PreviewSample.text) Sample.nt Sample.params
      PreviewSample.long_style PreviewSample.self_dem 0%float 14%float 8
      PreviewSample.files0 = Some (Failed (PyExn e), w') /\
    GDAL_PAM_ENABLED w' = false.
Proof.
  destruct (preview_failure (txt := PreviewSample.text) Sample.nt
              Sample.params PreviewSample.long_style PreviewSample.self_dem
              0%float 14%float 8 PreviewSample.files0
              ltac:(reflexivity) ltac:(lia) ltac:(cbn; lia)
              ltac:(right; left; cbn; lia))
    as (e & w' & Hrun & Hpam & _).
  exists e, w'. split; [exact Hrun | exact Hpam].
Defined.
